(** * Plummy: category filter, price formulas and product normalisation

    A shallow embedding of [category_filter.py], [price_calculator.py] and
    [product_processor.py] together with the properties claimed of them.

    Python values are modelled as the code receives them: documents are JSON
    trees, integers are unbounded ([Z]), floats are IEEE binary64 values
    ([spec_float] with precision 53 and maximal exponent 1024), strings are
    UTF-8 byte strings, and a raised exception is an explicit result. *)

From Stdlib Require Import ZArith List String Ascii Bool Lia.
From Stdlib Require Import Floats.SpecFloat.
From stdpp Require Import base option list gmap strings pretty.

Local Open Scope string_scope.
Local Open Scope Z_scope.

(** ** Binary64 floats *)

Module Float.

Definition float := spec_float.

Definition add : float -> float -> float := SFadd 53 1024.
Definition sub : float -> float -> float := SFsub 53 1024.
Definition mul : float -> float -> float := SFmul 53 1024.
Definition div : float -> float -> float := SFdiv 53 1024.

(** The integer [z] as an exact, possibly unnormalised, float. *)
Definition exact_of_Z (z : Z) : float :=
  match z with
  | Z0 => S754_zero false
  | Zpos p => S754_finite false p 0
  | Zneg p => S754_finite true p 0
  end.

(** [float(z)]: the nearest binary64 value, ties to even; infinite when the
    integer is out of range. *)
Definition of_Z (z : Z) : float := binary_normalize 53 1024 z 0 false.

Definition is_zero (x : float) : bool :=
  match x with S754_zero _ => true | _ => false end.

Definition is_nan (x : float) : bool :=
  match x with S754_nan => true | _ => false end.

Definition is_finite (x : float) : bool :=
  match x with S754_zero _ | S754_finite _ _ _ => true | _ => false end.

(** Comparison of magnitudes [m1 * 2^e1] and [m2 * 2^e2], exact for every
    mantissa and exponent. *)
Definition mag_compare (m1 : positive) (e1 : Z) (m2 : positive) (e2 : Z)
  : comparison :=
  let e := Z.min e1 e2 in
  Z.compare (Z.shiftl (Zpos m1) (e1 - e)) (Z.shiftl (Zpos m2) (e2 - e)).

(** IEEE comparison: [None] when an operand is NaN. *)
Definition compare (x y : float) : option comparison :=
  match x, y with
  | S754_nan, _ | _, S754_nan => None
  | S754_infinity s1, S754_infinity s2 =>
      Some (match s1, s2 with
            | true, false => Lt
            | false, true => Gt
            | _, _ => Eq
            end)
  | S754_infinity s, _ => Some (if s then Lt else Gt)
  | _, S754_infinity s => Some (if s then Gt else Lt)
  | S754_zero _, S754_zero _ => Some Eq
  | S754_finite s _ _, S754_zero _ => Some (if s then Lt else Gt)
  | S754_zero _, S754_finite s _ _ => Some (if s then Gt else Lt)
  | S754_finite s1 m1 e1, S754_finite s2 m2 e2 =>
      Some (match s1, s2 with
            | true, false => Lt
            | false, true => Gt
            | false, false => mag_compare m1 e1 m2 e2
            | true, true => CompOpp (mag_compare m1 e1 m2 e2)
            end)
  end.

Definition eqb (x y : float) : bool :=
  match compare x y with Some Eq => true | _ => false end.
Definition ltb (x y : float) : bool :=
  match compare x y with Some Lt => true | _ => false end.
Definition leb (x y : float) : bool :=
  match compare x y with Some (Lt | Eq) => true | _ => false end.
Definition geb (x y : float) : bool := leb y x.

(** The decimal [n / 10^k] rounded once to binary64: the value of a literal
    with digits [n] and [k] digits after the point. *)
Definition of_decimal (neg : bool) (n : Z) (k : nat) : float :=
  match n with
  | Z0 => S754_zero neg
  | _ =>
      let q := div (exact_of_Z (Z.abs n)) (exact_of_Z (10 ^ Z.of_nat k)) in
      if neg then SFopp q else q
  end.

(** [round(x, 2)]: the exact value of [x] is rounded to two decimals, ties to
    even, and the decimal is converted back to the nearest float.  NaN and the
    infinities round to themselves. *)
Definition round_half_even (n d : Z) : Z :=
  let q := n / d in
  let r := n mod d in
  match Z.compare (2 * r) d with
  | Lt => q
  | Gt => q + 1
  | Eq => if Z.even q then q else q + 1
  end.

Definition round2 (x : float) : float :=
  match x with
  | S754_finite s m e =>
      let hundredths :=
        if 0 <=? e then Z.shiftl (Zpos m * 100) e
        else round_half_even (Zpos m * 100) (Z.shiftl 1 (- e)) in
      of_decimal s hundredths 2
  | _ => x
  end.

End Float.

(** ** Python values and exceptions *)

(** The exceptions the modelled code can raise.  All derive from [Exception]
    but [SystemExit], which derives from [BaseException] only. *)
Inductive exn : Set :=
| AttributeError | TypeError | ValueError | KeyError | NameError
| SyntaxError | ZeroDivisionError | OverflowError | RecursionError
| SystemExit.

(** The outcome of a computation that may raise. *)
Inductive res (A : Type) : Type :=
| Ok (a : A)
| Raise (e : exn).
Arguments Ok {A} a.
Arguments Raise {A} e.

#[export] Instance res_ret : MRet res := fun A a => Ok a.
#[export] Instance res_bind : MBind res := fun A B f m =>
  match m with Ok a => f a | Raise e => Raise e end.

Local Set Warnings "-register-all".

(** A document as [json.load] builds it.  An object keeps its members in
    order; of two members with one key the later one is the value. *)
Inductive json : Type :=
| JNull
| JBool (b : bool)
| JInt (z : Z)
| JFloat (f : Float.float)
| JStr (s : string)
| JList (l : list json)
| JDict (d : list (string * json)).

(** What the CPython runtime does outside the fragment modelled here: on text
    that is not plain ASCII and for the printed form of floats and containers.
    The definitions below consult it only there, and the properties are
    stated for every runtime. *)
Record PyRuntime : Type := {
  rt_isspace : string -> bool;     (* [c.isspace()] of a non-ASCII character *)
  rt_isdigit : string -> bool;     (* [c.isdigit()] of a non-ASCII character *)
  rt_upper : string -> string;     (* [c.upper()] of a non-ASCII character *)
  rt_float_of_str : string -> option Float.float;
                                   (* [float(s)] beyond [-?digits(.digits)?] *)
  rt_int_of_str : string -> option Z;
                                   (* [int(s)] beyond [-?digits] *)
  rt_repr : json -> string;        (* [str(v)] of a float, list or dict *)
  rt_size_suffix : string -> option string
                                   (* the size pattern on a non-ASCII id *)
}.

(** A runtime for plain ASCII documents. *)
Definition ascii_runtime : PyRuntime := {|
  rt_isspace := fun _ => false;
  rt_isdigit := fun _ => false;
  rt_upper := fun c => c;
  rt_float_of_str := fun _ => None;
  rt_int_of_str := fun _ => None;
  rt_repr := fun _ => "";
  rt_size_suffix := fun _ => None |}.

(** ** Strings *)

Module Str.

Definition code (a : ascii) : Z := Z.of_nat (nat_of_ascii a).

Definition is_ascii_char (a : ascii) : bool := code a <? 128.
Definition is_digit (a : ascii) : bool := (48 <=? code a) && (code a <=? 57).
Definition is_upper (a : ascii) : bool := (65 <=? code a) && (code a <=? 90).
Definition is_lower (a : ascii) : bool := (97 <=? code a) && (code a <=? 122).
Definition is_alpha (a : ascii) : bool := is_upper a || is_lower a.
(** ASCII white space: tab, line feed, vertical tab, form feed, carriage
    return, the four separators 28..31 and the space. *)
Definition is_space (a : ascii) : bool :=
  ((9 <=? code a) && (code a <=? 13)) || ((28 <=? code a) && (code a <=? 32)).

Definition upper_char (a : ascii) : ascii :=
  if is_lower a then ascii_of_nat (nat_of_ascii a - 32) else a.

Fixpoint all (p : ascii -> bool) (s : string) : bool :=
  match s with
  | EmptyString => true
  | String a s' => p a && all p s'
  end.

Fixpoint any (p : ascii -> bool) (s : string) : bool :=
  match s with
  | EmptyString => false
  | String a s' => p a || any p s'
  end.

Fixpoint map (f : ascii -> ascii) (s : string) : string :=
  match s with
  | EmptyString => EmptyString
  | String a s' => String (f a) (map f s')
  end.

Definition is_ascii (s : string) : bool := all is_ascii_char s.

Definition eqb (s t : string) : bool := bool_decide (s = t).

Definition mem (s : string) (l : list string) : bool := existsb (eqb s) l.

(** The value of a run of decimal digits, most significant first. *)
Fixpoint digits_value (acc : Z) (s : string) : Z :=
  match s with
  | EmptyString => acc
  | String a s' => digits_value (10 * acc + (code a - 48)) s'
  end.

Definition is_digits (s : string) : bool :=
  negb (eqb s "") && all is_digit s.

(** Splits at the first occurrence of the character [c]. *)
Fixpoint split_at (c : ascii) (s : string) : string * option string :=
  match s with
  | EmptyString => (EmptyString, None)
  | String a s' =>
      if Ascii.eqb a c then (EmptyString, Some s')
      else let '(l, r) := split_at c s' in (String a l, r)
  end.

Definition strip_sign (s : string) : bool * string :=
  match s with
  | String "-" s' => (true, s')
  | _ => (false, s)
  end.

End Str.

(** [float(s)] for a string: a plain decimal is converted here, any other
    spelling is left to the runtime; [None] stands for [ValueError]. *)
Definition float_of_str (rt : PyRuntime) (s : string) : option Float.float :=
  let '(neg, body) := Str.strip_sign s in
  match Str.split_at "." body with
  | (ip, None) =>
      if Str.is_digits ip
      then Some (Float.of_decimal neg (Str.digits_value 0 ip) 0)
      else rt_float_of_str rt s
  | (ip, Some fp) =>
      if Str.is_digits ip && Str.is_digits fp
      then Some (Float.of_decimal neg (Str.digits_value 0 (ip ++ fp))
                   (String.length fp))
      else rt_float_of_str rt s
  end.

(** ** category_filter.py *)

Module CategoryFilter.

(** An entry of [categories_flat]. *)
Record category : Type := {
  name : string;
  slug : string;
  parent : Z
}.

(** [WOMEN_MAX_SIZE = 39.0] and [MEN_MIN_SIZE = 39.5]. *)
Definition WOMEN_MAX_SIZE : Float.float := Float.of_decimal false 390 1.
Definition MEN_MIN_SIZE : Float.float := Float.of_decimal false 395 1.

Definition MEN_PARENT_ID : Z := 101.
Definition WOMEN_PARENT_ID : Z := 102.

Definition ONE_SIZE_CATEGORIES : list Z :=
  [119; 123; 124; 125; 131; 132; 133; 1182; 1183].

Section Filter.

Variable categories_flat : gmap Z category.

(** [is_child_of] recurses along the parent links.  [fuel] bounds the depth
    of the recursion; [None] means the walk has not returned within it. *)
Fixpoint is_child_of (fuel : nat) (category_id parent_id : Z) : option bool :=
  match fuel with
  | O => None
  | S fuel' =>
      match categories_flat !! category_id with
      | None => Some false
      | Some cat =>
          if bool_decide (parent cat = parent_id) then Some true
          else if bool_decide (parent cat <> 0)
               then is_child_of fuel' (parent cat) parent_id
               else Some false
      end
  end.

(** Python's [a or b] on two walks. *)
Definition or_else (a : option bool) (b : option bool) : option bool :=
  match a with
  | Some true => Some true
  | Some false => b
  | None => None
  end.

Definition is_shoe_category (fuel : nat) (category_id : Z) : option bool :=
  or_else (is_child_of fuel category_id MEN_PARENT_ID)
    (or_else (is_child_of fuel category_id WOMEN_PARENT_ID)
       (Some (bool_decide (category_id = MEN_PARENT_ID)
              || bool_decide (category_id = WOMEN_PARENT_ID)))).

Definition is_one_size_category (category_id : Z) : bool :=
  bool_decide (category_id ∈ ONE_SIZE_CATEGORIES).

Definition has_one_size_category (category_ids : list Z) : bool :=
  existsb is_one_size_category category_ids.

Fixpoint get_size_attribute_id (fuel : nat) (category_ids : list Z)
  : option Z :=
  match category_ids with
  | [] => Some 5
  | cat_id :: rest =>
      match is_shoe_category fuel cat_id with
      | None => None
      | Some true => Some 4
      | Some false => get_size_attribute_id fuel rest
      end
  end.

(** The two size predicates of [analyze_sizes]. *)
Definition is_women_size (size_float : Float.float) : bool :=
  Float.leb size_float WOMEN_MAX_SIZE.
Definition is_men_size (size_float : Float.float) : bool :=
  Float.geb size_float MEN_MIN_SIZE.

Variable rt : PyRuntime.

Fixpoint analyze_sizes_from (has_women has_men : bool) (sizes : list string)
  : bool * bool :=
  match sizes with
  | [] => (has_women, has_men)
  | size :: rest =>
      match float_of_str rt size with
      | Some size_float =>
          analyze_sizes_from (has_women || is_women_size size_float)
            (has_men || is_men_size size_float) rest
      | None => analyze_sizes_from has_women has_men rest
      end
  end.

Definition analyze_sizes (sizes : list string) : bool * bool :=
  analyze_sizes_from false false sizes.

(** The three buckets of [filter_categories]: children of 101, children of
    102 and the rest. *)
Fixpoint split_categories (fuel : nat) (category_ids : list Z)
  : option (list Z * list Z * list Z) :=
  match category_ids with
  | [] => Some ([], [], [])
  | cat_id :: rest =>
      is_men ← is_child_of fuel cat_id MEN_PARENT_ID;
      if is_men : bool then
        '(men, women, other) ← split_categories fuel rest;
        Some (cat_id :: men, women, other)
      else
        is_women ← is_child_of fuel cat_id WOMEN_PARENT_ID;
        '(men, women, other) ← split_categories fuel rest;
        if is_women : bool then Some (men, cat_id :: women, other)
        else Some (men, women, cat_id :: other)
  end.

Definition filter_categories (fuel : nat) (category_ids : list Z)
    (sizes : list string) (size_type : string) : option (list Z) :=
  match category_ids, sizes with
  | [], _ | _, [] => Some category_ids
  | _, _ =>
      if negb (Str.eqb size_type "shoes") then Some category_ids
      else
        match split_categories fuel category_ids with
        | None => None
        | Some (men_categories, women_categories, other_categories) =>
            let '(has_women, has_men) := analyze_sizes sizes in
            Some (if has_women && has_men
                  then other_categories ++ men_categories ++ women_categories
                  else if has_women then other_categories ++ women_categories
                  else if has_men then other_categories ++ men_categories
                  else other_categories ++ men_categories ++ women_categories)%list
        end
  end.

End Filter.

End CategoryFilter.

(** ** price_calculator.py *)

Module PriceCalculator.

(** A Python number: an [int] or a [float]. *)
Inductive number : Type :=
| VInt (z : Z)
| VFloat (f : Float.float).

(** *** The expressions [eval] is modelled on

    [eval(formula_str)] runs the Python compiler and interpreter on an
    arbitrary string, in the scope of [calculate_price], with the module's
    globals and the builtins behind it.  The model covers the strings built
    from decimal literals, the six numeric names of that scope, names that
    are bound nowhere, the calls [exit()] and [quit()], [+ - * /],
    parentheses, spaces, tabs and the characters no Python source may hold;
    every other string is [EUnmodelled] and nothing is claimed of it. *)

Inductive token : Type :=
| TNum (v : number)
| TName (n : string)
| TExit
| TBad
| TAdd | TSub | TMul | TDiv | TLPar | TRPar.

(** The longest prefix of characters satisfying [p], and the rest. *)
Fixpoint span (p : ascii -> bool) (s : string) : string * string :=
  match s with
  | EmptyString => (EmptyString, EmptyString)
  | String a s' =>
      if p a then let '(l, r) := span p s' in (String a l, r)
      else (EmptyString, s)
  end.

Definition is_name_start (a : ascii) : bool :=
  Str.is_alpha a || Ascii.eqb a "_".
Definition is_name_char (a : ascii) : bool :=
  is_name_start a || Str.is_digit a.

(** The names of [calculate_price]'s scope that hold numbers. *)
Definition numeric_locals : list string :=
  ["x"; "a"; "b"; "c"; "price_cny"; "category_id"].

(** Names that neither the call, nor the module, nor the builtins bind: a
    single letter other than [x], [a], [b], [c] (the shortest builtin name
    has two letters, and [e] is bound by the [except] clause only), and
    [price_rub], which is assigned after [eval] returns.  Reading one raises
    [NameError]. *)
Definition unbound_name (n : string) : bool :=
  match n with
  | String ch EmptyString => Str.is_alpha ch && negb (Str.mem n numeric_locals)
  | _ => Str.eqb n "price_rub"
  end.

(** The builtins [exit] and [quit] of the [site] module: calling one raises
    [SystemExit]. *)
Definition exit_names : list string := ["exit"; "quit"].

(** Characters that are no part of any token outside string literals and
    comments, which the fragment does not have. *)
Definition is_illegal_char (a : ascii) : bool :=
  Ascii.eqb a "$" || Ascii.eqb a "?" || Ascii.eqb a "`".

(** A character that may not follow a decimal literal in the fragment: it
    would continue the literal ([1e3], [1_000], [0x1f], [1.5.2], [1j]). *)
Definition continues_number (s : string) : bool :=
  match s with
  | String a _ => is_name_char a || Ascii.eqb a "."
  | EmptyString => false
  end.

Definition has_leading_zero (digits : string) : bool :=
  match digits with
  | String "0" (String _ _) => true
  | _ => false
  end.

(** A literal at the head of [s] (which starts with a digit): the token and
    the rest, or [None] outside the fragment. *)
Definition lex_number (s : string) : option (token * string) :=
  let '(ip, r) := span Str.is_digit s in
  if has_leading_zero ip then None
  else
    match r with
    | String "." r' =>
        let '(fp, r'') := span Str.is_digit r' in
        if Str.eqb fp "" || continues_number r'' then None
        else Some (TNum (VFloat (Float.of_decimal false
                                   (Str.digits_value 0 (ip ++ fp))
                                   (String.length fp))), r'')
    | _ =>
        if continues_number r then None
        else Some (TNum (VInt (Str.digits_value 0 ip)), r)
    end.

(** The tokens of [s]; [None] when [s] leaves the fragment. *)
Fixpoint lex (fuel : nat) (s : string) : option (list token) :=
  match fuel with
  | O => None
  | S fuel' =>
      match s with
      | EmptyString => Some []
      | String a s' =>
          if Ascii.eqb a " " || Ascii.eqb a "009" then lex fuel' s'
          else if Str.is_digit a then
            match lex_number s with
            | Some (t, r) => cons t <$> lex fuel' r
            | None => None
            end
          else if is_name_start a then
            let '(n, r) := span is_name_char s in
            if Str.mem n numeric_locals || unbound_name n
            then cons (TName n) <$> lex fuel' r
            else if Str.mem n exit_names then cons TExit <$> lex fuel' r
            else None
          else if is_illegal_char a then cons TBad <$> lex fuel' s'
          else if Ascii.eqb a "+" then cons TAdd <$> lex fuel' s'
          else if Ascii.eqb a "-" then cons TSub <$> lex fuel' s'
          else if Ascii.eqb a "(" then cons TLPar <$> lex fuel' s'
          else if Ascii.eqb a ")" then cons TRPar <$> lex fuel' s'
          else if Ascii.eqb a "*" then
            match s' with
            | String "*" _ => None
            | _ => cons TMul <$> lex fuel' s'
            end
          else if Ascii.eqb a "/" then
            match s' with
            | String "/" _ => None
            | _ => cons TDiv <$> lex fuel' s'
            end
          else None
      end
  end.

(** Formulas longer than this are outside the fragment: CPython bounds the
    nesting depth of what it compiles. *)
Definition max_formula_length : nat := 200.

Definition tokens_of (formula_str : string) : option (list token) :=
  if (max_formula_length <? String.length formula_str)%nat then None
  else lex (S (String.length formula_str)) formula_str.

Inductive expr : Type :=
| ENum (v : number)
| EName (n : string)
| EPos (e : expr)
| ENeg (e : expr)
| EAdd (l r : expr)
| ESub (l r : expr)
| EMul (l r : expr)
| EDiv (l r : expr)
| EExit.

Inductive parsed : Type :=
| POk (e : expr) (rest : list token)
| PSyntaxError
| PUnmodelled.

(** Python's grammar on these tokens:
    [sum: sum ('+'|'-') term | term], [term: term ('*'|'/') factor | factor],
    [factor: ('+'|'-') factor | primary], [primary: atom | primary '(' ...],
    [atom: NAME | NUMBER | '(' sum ')' | '(' ')'].
    The empty tuple and every call but [exit()] and [quit()] are Python but
    outside the fragment, and so is [exit] or [quit] where it is not called.
    An illegal character is a syntax error wherever it stands. *)
Definition after_atom (e : expr) (rest : list token) : parsed :=
  match rest with
  | TLPar :: _ => PUnmodelled
  | _ => POk e rest
  end.

Fixpoint parse_sum (fuel : nat) (ts : list token) : parsed :=
  match fuel with
  | O => PUnmodelled
  | S fuel' =>
      match parse_term fuel' ts with
      | POk l rest => sum_rest fuel' l rest
      | r => r
      end
  end
with sum_rest (fuel : nat) (l : expr) (ts : list token) : parsed :=
  match fuel with
  | O => PUnmodelled
  | S fuel' =>
      match ts with
      | TAdd :: ts' =>
          match parse_term fuel' ts' with
          | POk r rest => sum_rest fuel' (EAdd l r) rest
          | r => r
          end
      | TSub :: ts' =>
          match parse_term fuel' ts' with
          | POk r rest => sum_rest fuel' (ESub l r) rest
          | r => r
          end
      | _ => POk l ts
      end
  end
with parse_term (fuel : nat) (ts : list token) : parsed :=
  match fuel with
  | O => PUnmodelled
  | S fuel' =>
      match parse_factor fuel' ts with
      | POk l rest => term_rest fuel' l rest
      | r => r
      end
  end
with term_rest (fuel : nat) (l : expr) (ts : list token) : parsed :=
  match fuel with
  | O => PUnmodelled
  | S fuel' =>
      match ts with
      | TMul :: ts' =>
          match parse_factor fuel' ts' with
          | POk r rest => term_rest fuel' (EMul l r) rest
          | r => r
          end
      | TDiv :: ts' =>
          match parse_factor fuel' ts' with
          | POk r rest => term_rest fuel' (EDiv l r) rest
          | r => r
          end
      | _ => POk l ts
      end
  end
with parse_factor (fuel : nat) (ts : list token) : parsed :=
  match fuel with
  | O => PUnmodelled
  | S fuel' =>
      match ts with
      | TAdd :: ts' =>
          match parse_factor fuel' ts' with
          | POk e rest => POk (EPos e) rest
          | r => r
          end
      | TSub :: ts' =>
          match parse_factor fuel' ts' with
          | POk e rest => POk (ENeg e) rest
          | r => r
          end
      | TNum v :: ts' => after_atom (ENum v) ts'
      | TName n :: ts' => after_atom (EName n) ts'
      | TExit :: TLPar :: TRPar :: ts' => after_atom EExit ts'
      | TExit :: _ => PUnmodelled
      | TLPar :: TRPar :: _ => PUnmodelled
      | TLPar :: ts' =>
          match parse_sum fuel' ts' with
          | POk e (TRPar :: rest) => after_atom e rest
          | POk _ _ => PSyntaxError
          | r => r
          end
      | _ => PSyntaxError
      end
  end.

(** The whole string must be one expression. *)
Definition parse (ts : list token) : parsed :=
  match parse_sum (4 * S (length ts)) ts with
  | POk e [] => POk e []
  | POk _ _ => PSyntaxError
  | r => r
  end.

(** *** Arithmetic on numbers *)

(** [float(z)] raises [OverflowError] when [z] rounds beyond the range. *)
Definition float_of_int (z : Z) : res Float.float :=
  let f := Float.of_Z z in
  if Float.is_finite f then Ok f else Raise OverflowError.

Definition to_float (v : number) : res Float.float :=
  match v with
  | VInt z => float_of_int z
  | VFloat f => Ok f
  end.

(** [int / int]: the quotient rounded once; [float / float]: IEEE division. *)
Definition int_true_divide (n d : Z) : res number :=
  if d =? 0 then Raise ZeroDivisionError
  else
    let q := Float.div (Float.exact_of_Z n) (Float.exact_of_Z d) in
    if Float.is_finite q then Ok (VFloat q) else Raise OverflowError.

Definition float_divide (n d : Float.float) : res number :=
  if Float.is_zero d then Raise ZeroDivisionError
  else Ok (VFloat (Float.div n d)).

Definition float_op (op : Float.float -> Float.float -> Float.float)
    (l r : number) : res number :=
  lf ← to_float l; rf ← to_float r; Ok (VFloat (op lf rf)).

Definition py_add (l r : number) : res number :=
  match l, r with
  | VInt m, VInt n => Ok (VInt (m + n))
  | _, _ => float_op Float.add l r
  end.

Definition py_sub (l r : number) : res number :=
  match l, r with
  | VInt m, VInt n => Ok (VInt (m - n))
  | _, _ => float_op Float.sub l r
  end.

Definition py_mul (l r : number) : res number :=
  match l, r with
  | VInt m, VInt n => Ok (VInt (m * n))
  | _, _ => float_op Float.mul l r
  end.

Definition py_div (l r : number) : res number :=
  match l, r with
  | VInt m, VInt n => int_true_divide m n
  | _, _ => lf ← to_float l; rf ← to_float r; float_divide lf rf
  end.

Definition py_neg (v : number) : number :=
  match v with
  | VInt z => VInt (- z)
  | VFloat f => VFloat (SFopp f)
  end.

(** The numeric locals of [calculate_price] that [eval] can read. *)
Record scope : Type := {
  sc_x : Float.float;
  sc_a : number;
  sc_b : number;
  sc_c : number;
  sc_price_cny : Float.float;
  sc_category_id : Z
}.

Definition lookup (sc : scope) (n : string) : res number :=
  if Str.eqb n "x" then Ok (VFloat (sc_x sc))
  else if Str.eqb n "a" then Ok (sc_a sc)
  else if Str.eqb n "b" then Ok (sc_b sc)
  else if Str.eqb n "c" then Ok (sc_c sc)
  else if Str.eqb n "price_cny" then Ok (VFloat (sc_price_cny sc))
  else if Str.eqb n "category_id" then Ok (VInt (sc_category_id sc))
  else Raise NameError.

(** Operands are evaluated left to right; the first exception propagates. *)
Fixpoint eval_expr (sc : scope) (e : expr) : res number :=
  match e with
  | ENum v => Ok v
  | EName n => lookup sc n
  | EPos e1 => eval_expr sc e1
  | ENeg e1 => v ← eval_expr sc e1; Ok (py_neg v)
  | EAdd l r => lv ← eval_expr sc l; rv ← eval_expr sc r; py_add lv rv
  | ESub l r => lv ← eval_expr sc l; rv ← eval_expr sc r; py_sub lv rv
  | EMul l r => lv ← eval_expr sc l; rv ← eval_expr sc r; py_mul lv rv
  | EDiv l r => lv ← eval_expr sc l; rv ← eval_expr sc r; py_div lv rv
  | EExit => Raise SystemExit
  end.

(** What [eval(formula_str)] does: a value, an exception, or a string the
    model does not cover. *)
Inductive evaluated : Type :=
| EValue (v : number)
| ERaise (e : exn)
| EUnmodelled.

Definition py_eval (formula_str : string) (sc : scope) : evaluated :=
  match tokens_of formula_str with
  | None => EUnmodelled
  | Some ts =>
      match parse ts with
      | PUnmodelled => EUnmodelled
      | PSyntaxError => ERaise SyntaxError
      | POk e _ =>
          match eval_expr sc e with
          | Ok v => EValue v
          | Raise ex => ERaise ex
          end
      end
  end.

(** *** The calculator *)

Record config : Type := {
  parameters : gmap string number;
  formulas : gmap string (gmap string string);
  default_formula : gmap string string
}.

(** [_set_defaults] *)
Definition defaults : config := {|
  parameters :=
    {[ "a" := VInt 12; "b" := VFloat (Float.of_decimal false 12 1);
       "c" := VInt 6 ]};
  default_formula :=
    {[ "21-26 дней" := "(x * a + 400) * b";
       "10-14 дней" := "(x * a + 400) * b + 600" ]};
  formulas := ∅ |}.

Definition DELIVERY_OPTIONS : list string := ["21-26 дней"; "10-14 дней"].

(** [str(category_id)] *)
Definition str_of_int (z : Z) : string := pretty z.

Definition get_formula (cfg : config) (category_id : Z)
    (delivery_days : string) : string :=
  let category_key := str_of_int category_id in
  let fallback := default "(x * a + 400) * b"
                    (default_formula cfg !! delivery_days) in
  match formulas cfg !! category_key with
  | Some category_formulas =>
      match category_formulas !! delivery_days with
      | Some f => f
      | None => fallback
      end
  | None => fallback
  end.

(** [round(v, 2)]: an [int] is returned as it is. *)
Definition py_round2 (v : number) : number :=
  match v with
  | VInt z => VInt z
  | VFloat f => VFloat (Float.round2 f)
  end.

(** [f"{price_rub:.0f}"] converts an [int] to a float to print it. *)
Definition format_0f (v : number) : res unit :=
  _ ← to_float v; Ok tt.

(** The value of the [except Exception] branch. *)
Definition fallback_price (price_cny : Float.float) : number :=
  VFloat (Float.round2 (Float.mul price_cny (Float.of_decimal false 25 1))).

(** [isinstance(e, Exception)]: what [except Exception] catches. *)
Definition caught (e : exn) : bool :=
  match e with
  | SystemExit => false
  | _ => true
  end.

(** What a call of [calculate_price] does. *)
Inductive outcome : Type :=
| Returns (v : number)
| Raises (e : exn)
| Unmodelled.

(** The locals before [eval]: [x = float(price_cny)] and the parameters with
    their defaults. *)
Definition scope_of (cfg : config) (price_cny : Float.float)
    (category_id : Z) : scope :=
  {| sc_x := price_cny;
     sc_a := default (VInt 12) (parameters cfg !! "a");
     sc_b := default (VFloat (Float.of_decimal false 12 1))
               (parameters cfg !! "b");
     sc_c := default (VInt 6) (parameters cfg !! "c");
     sc_price_cny := price_cny;
     sc_category_id := category_id |}.

(** The [try] statement on an exception of its body: the fallback when the
    handler catches it, otherwise the exception reaches the caller. *)
Definition handle (e : exn) (price_cny : Float.float) : outcome :=
  if caught e then Returns (fallback_price price_cny) else Raises e.

(** The body of [calculate_price] once [formula_str] is known. *)
Definition evaluate_formula (cfg : config) (formula_str : string)
    (price_cny : Float.float) (category_id : Z) : outcome :=
  match py_eval formula_str (scope_of cfg price_cny category_id) with
  | EUnmodelled => Unmodelled
  | ERaise e => handle e price_cny
  | EValue price_rub =>
      match format_0f price_rub with
      | Raise e => handle e price_cny
      | Ok _ => Returns (py_round2 price_rub)
      end
  end.

Definition calculate_price (cfg : config) (price_cny : Float.float)
    (category_id : Z) (delivery_days : string) : outcome :=
  evaluate_formula cfg (get_formula cfg category_id delivery_days)
    price_cny category_id.

Definition calculate_prices_for_variant (cfg : config)
    (price_cny : Float.float) (category_id : Z) : list (string * outcome) :=
  (fun delivery_days =>
     (delivery_days, calculate_price cfg price_cny category_id delivery_days))
    <$> DELIVERY_OPTIONS.

End PriceCalculator.

(** ** Python operations on documents *)

Module Py.

(** *** Text *)

Definition is_continuation (a : ascii) : bool :=
  (128 <=? Str.code a) && (Str.code a <? 192).

Definition starts_with_continuation (c : string) : bool :=
  match c with
  | String a _ => is_continuation a
  | EmptyString => false
  end.

(** The characters of a string, each with its UTF-8 bytes. *)
Fixpoint chars (s : string) : list string :=
  match s with
  | EmptyString => []
  | String a s' =>
      match chars s' with
      | c :: cs =>
          if starts_with_continuation c then String a c :: cs
          else String a EmptyString :: c :: cs
      | [] => [String a EmptyString]
      end
  end.

Definition join_chars (cs : list string) : string :=
  fold_right String.append EmptyString cs.

Definition len (s : string) : nat := length (chars s).

Section Text.

Variable rt : PyRuntime.

Definition isspace_chr (c : string) : bool :=
  match c with
  | String a EmptyString =>
      if Str.is_ascii_char a then Str.is_space a else rt_isspace rt c
  | _ => rt_isspace rt c
  end.

Definition isdigit_chr (c : string) : bool :=
  match c with
  | String a EmptyString =>
      if Str.is_ascii_char a then Str.is_digit a else rt_isdigit rt c
  | _ => rt_isdigit rt c
  end.

Definition upper_chr (c : string) : string :=
  match c with
  | String a EmptyString =>
      if Str.is_ascii_char a then String (Str.upper_char a) EmptyString
      else rt_upper rt c
  | _ => rt_upper rt c
  end.

(** [s.upper()] *)
Definition upper (s : string) : string := join_chars (upper_chr <$> chars s).

Fixpoint drop_space (cs : list string) : list string :=
  match cs with
  | c :: cs' => if isspace_chr c then drop_space cs' else cs
  | [] => []
  end.

(** [s.strip()] *)
Definition strip (s : string) : string :=
  join_chars (rev (drop_space (rev (drop_space (chars s))))).

(** [any(char.isdigit() for char in s)] *)
Definition any_isdigit (s : string) : bool := existsb isdigit_chr (chars s).

End Text.

(** [s.isalpha()] of an ASCII string. *)
Definition ascii_isalpha (s : string) : bool :=
  negb (Str.eqb s "") && Str.all Str.is_alpha s.

Fixpoint prefix (p s : string) : bool :=
  match p, s with
  | EmptyString, _ => true
  | String a p', String b s' => Ascii.eqb a b && prefix p' s'
  | String _ _, EmptyString => false
  end.

(** [needle in hay] for two strings. *)
Fixpoint contains (needle hay : string) : bool :=
  prefix needle hay ||
  match hay with
  | EmptyString => false
  | String _ hay' => contains needle hay'
  end.

(** *** Values *)

Definition int_of_bool (b : bool) : Z := if b then 1 else 0.

(** [bool(v)] *)
Definition truthy (v : json) : bool :=
  match v with
  | JNull => false
  | JBool b => b
  | JInt z => negb (z =? 0)
  | JFloat f => negb (Float.is_zero f)
  | JStr s => negb (Str.eqb s "")
  | JList l => match l with [] => false | _ => true end
  | JDict d => match d with [] => false | _ => true end
  end.

Definition is_dict (v : json) : bool :=
  match v with JDict _ => true | _ => false end.
Definition is_list (v : json) : bool :=
  match v with JList _ => true | _ => false end.
Definition is_str (v : json) : bool :=
  match v with JStr _ => true | _ => false end.
Definition is_none (v : json) : bool :=
  match v with JNull => true | _ => false end.

(** The value of a key in an object: the last member with that key. *)
Fixpoint lookup (k : string) (d : list (string * json)) : option json :=
  match d with
  | [] => None
  | (k', v) :: d' =>
      match lookup k d' with
      | Some v' => Some v'
      | None => if Str.eqb k k' then Some v else None
      end
  end.

Definition has_key (k : string) (d : list (string * json)) : bool :=
  match lookup k d with Some _ => true | None => false end.

(** The keys of an object in order, each once. *)
Fixpoint keys (d : list (string * json)) : list string :=
  match d with
  | [] => []
  | (k, _) :: d' => k :: filter (fun k' => negb (Str.eqb k k')) (keys d')
  end.

(** [v.get(k, dflt)]: only a dict has [get]. *)
Definition get_default (v : json) (k : string) (dflt : json) : res json :=
  match v with
  | JDict d => Ok (default dflt (lookup k d))
  | _ => Raise AttributeError
  end.

(** [v.get(k)] *)
Definition get (v : json) (k : string) : res json := get_default v k JNull.

(** [for x in v]: the items a loop over [v] sees. *)
Definition iter (v : json) : res (list json) :=
  match v with
  | JList l => Ok l
  | JDict d => Ok (JStr <$> keys d)
  | JStr s => Ok (JStr <$> chars s)
  | _ => Raise TypeError
  end.

(** [len(v)] *)
Definition length_of (v : json) : res nat :=
  match v with
  | JList l => Ok (length l)
  | JDict d => Ok (length (keys d))
  | JStr s => Ok (len s)
  | _ => Raise TypeError
  end.

(** A number, with [bool] as the [int] it is. *)
Definition as_number (v : json) : option (Z + Float.float) :=
  match v with
  | JBool b => Some (inl (int_of_bool b))
  | JInt z => Some (inl z)
  | JFloat f => Some (inr f)
  | _ => None
  end.

Definition exact (n : Z + Float.float) : Float.float :=
  match n with
  | inl z => Float.exact_of_Z z
  | inr f => f
  end.

(** Comparison of two numbers by value; [None] when one is NaN. *)
Definition num_compare (m n : Z + Float.float) : option comparison :=
  Float.compare (exact m) (exact n).

Definition num_eqb (m n : Z + Float.float) : bool :=
  match num_compare m n with Some Eq => true | _ => false end.

(** [v <= k], [v > k] for an integer constant [k]: [TypeError] unless [v] is
    a number. *)
Definition le_int (v : json) (k : Z) : res bool :=
  match as_number v with
  | Some n => Ok (match num_compare n (inl k) with
                  | Some (Lt | Eq) => true
                  | _ => false
                  end)
  | None => Raise TypeError
  end.

Definition gt_int (v : json) (k : Z) : res bool :=
  match as_number v with
  | Some n => Ok (match num_compare n (inl k) with
                  | Some Gt => true
                  | _ => false
                  end)
  | None => Raise TypeError
  end.

(** [a == b].  Numbers are compared by value across [bool], [int] and
    [float]; inside a list or a dict an item equals itself even when it is
    the decoder's NaN ([same] is then true). *)
Fixpoint eqb_gen (same : bool) (a b : json) {struct a} : bool :=
  match a, b with
  | JNull, JNull => true
  | JStr s, JStr t => Str.eqb s t
  | JList l, JList m =>
      (fix items (l m : list json) : bool :=
         match l, m with
         | [], [] => true
         | x :: l', y :: m' => eqb_gen true x y && items l' m'
         | _, _ => false
         end) l m
  | JDict d, JDict e =>
      (length (keys d) =? length (keys e))%nat &&
      (fix members (d' : list (string * json)) : bool :=
         match d' with
         | [] => true
         | (k, v) :: tl =>
             (if has_key k tl then true
              else match lookup k e with
                   | Some w => eqb_gen true v w
                   | None => false
                   end) && members tl
         end) d
  | _, _ =>
      match as_number a, as_number b with
      | Some m, Some n =>
          num_eqb m n ||
          (same && Float.is_nan (exact m) && Float.is_nan (exact n))
      | _, _ => false
      end
  end.

Definition eqb (a b : json) : bool := eqb_gen false a b.
Definition eqb_int (a : json) (k : Z) : bool := eqb a (JInt k).
Definition eqb_str (a : json) (s : string) : bool := eqb a (JStr s).

(** [v in [s1, s2, ...]] for a list of string constants. *)
Definition in_strs (v : json) (l : list string) : bool :=
  existsb (eqb_str v) l.

(** Lists and dicts cannot be hashed. *)
Definition hashable (v : json) : bool := negb (is_list v || is_dict v).

(** [item in container] *)
Definition contains_item (container item : json) : res bool :=
  match container with
  | JDict d =>
      if hashable item
      then Ok (match item with JStr s => has_key s d | _ => false end)
      else Raise TypeError
  | JList l => Ok (existsb (eqb_gen true item) l)
  | JStr s =>
      match item with
      | JStr t => Ok (contains t s)
      | _ => Raise TypeError
      end
  | _ => Raise TypeError
  end.

(** [container[key]] for a string key. *)
Definition subscript (container : json) (key : string) : res json :=
  match container with
  | JDict d =>
      match lookup key d with
      | Some v => Ok v
      | None => Raise KeyError
      end
  | _ => Raise TypeError
  end.

(** [str(v)] *)
Definition str (rt : PyRuntime) (v : json) : string :=
  match v with
  | JNull => "None"
  | JBool true => "True"
  | JBool false => "False"
  | JInt z => pretty z
  | JStr s => s
  | _ => rt_repr rt v
  end.

(** [int(s)] for a string: [ValueError] when it is no integer. *)
Definition int_of_str (rt : PyRuntime) (s : string) : res Z :=
  let '(neg, body) := Str.strip_sign s in
  if Str.is_digits body && (String.length body <=? 4300)%nat
  then Ok (if neg then - Str.digits_value 0 body else Str.digits_value 0 body)
  else match rt_int_of_str rt s with
       | Some z => Ok z
       | None => Raise ValueError
       end.

(** [float(v)] *)
Definition to_float (rt : PyRuntime) (v : json) : res Float.float :=
  match v with
  | JStr s =>
      match float_of_str rt s with
      | Some f => Ok f
      | None => Raise ValueError
      end
  | JFloat f => Ok f
  | JInt z =>
      let f := Float.of_Z z in
      if Float.is_finite f then Ok f else Raise OverflowError
  | JBool b => Ok (Float.of_Z (int_of_bool b))
  | _ => Raise TypeError
  end.

(** [int(f)] when [f.is_integer()]. *)
Definition integer_value (f : Float.float) : option Z :=
  match f with
  | S754_zero _ => Some 0
  | S754_finite s m e =>
      let mag :=
        if 0 <=? e then Some (Z.shiftl (Zpos m) e)
        else if Zpos m mod Z.shiftl 1 (- e) =? 0
             then Some (Zpos m / Z.shiftl 1 (- e))
             else None in
      (fun z => if s then - z else z) <$> mag
  | _ => None
  end.

(** [v / 100] *)
Definition div_100 (v : json) : res Float.float :=
  match as_number v with
  | Some (inl z) =>
      let q := Float.div (Float.exact_of_Z z) (Float.exact_of_Z 100) in
      if Float.is_finite q then Ok q else Raise OverflowError
  | Some (inr f) => Ok (Float.div f (Float.of_Z 100))
  | None => Raise TypeError
  end.

(** *** A dict keyed by document values ([property_to_size]) *)

Definition table : Type := list (json * json).

Definition key_eqb (a b : json) : bool := eqb_gen true a b.

Fixpoint table_get (k : json) (t : table) : option json :=
  match t with
  | [] => None
  | (k', v) :: t' => if key_eqb k k' then Some v else table_get k t'
  end.

(** [t[k] = v]: an equal key keeps its place. *)
Fixpoint table_set (k v : json) (t : table) : table :=
  match t with
  | [] => [(k, v)]
  | (k', v') :: t' =>
      if key_eqb k k' then (k', v) :: t' else (k', v') :: table_set k v t'
  end.

Definition table_values (t : table) : list json := snd <$> t.

End Py.

(** ** product_processor.py *)

Module ProductProcessor.

Import Py.

Inductive size_type : Set := Shoes | Clothing | Accessories.

Definition size_type_eqb (a b : size_type) : bool :=
  match a, b with
  | Shoes, Shoes | Clothing, Clothing | Accessories, Accessories => true
  | _, _ => false
  end.

(** ['priceInfo'] or [f"price.prices[] (type={selected_type})"]. *)
Inductive price_source : Type :=
| FromPriceInfo
| FromPricePrices (selected_type : Z).

(** An entry of [variants]. *)
Record variant : Type := {
  sku_id : json;
  size_eu : json;
  v_size_type : size_type;
  price_cny : Float.float;
  price_rub : Float.float;
  is_available : bool;
  stock_status : json;
  v_price_source : price_source
}.

(** The dict [parse_product_detail] returns. *)
Record product : Type := {
  spu_id : json;
  title : string;
  brand : string;
  category : json;
  category_id : json;
  article_number : json;
  main_image_url : json;
  images : list json;
  variants : list variant;
  is_active : bool
}.

(** The reasons [_log_invalid] counts when [None] is returned. *)
Inductive reason : Set :=
| no_spu_id | empty_title | no_images | no_skus | no_valid_variants
| processing_error.

Inductive parse_result : Type :=
| Parsed (p : product)
| Invalid (r : reason).

Definition VALID_CLOTHING_SIZES : list string :=
  ["XXXS"; "XXS"; "XS"; "S"; "M"; "L"; "XL"; "XXL"; "XXXL";
   "4XL"; "5XL"; "6XL"; "7XL"].

Definition color_names : list string := ["颜色"; "Color"; "color"].
Definition size_names : list string := ["尺码"; "尺寸"; "Size"; "size"; "码"].

Section Processor.

Variable rt : PyRuntime.

(** [self.price_formula] followed by [float(...)]. *)
Variable price_formula : option (Float.float -> res Float.float).

(** *** Cleaning of names *)

Definition is_alnum_chr (c : string) : bool :=
  match c with
  | String a EmptyString =>
      Str.is_ascii_char a && (Str.is_alpha a || Str.is_digit a)
  | _ => false
  end.

(** [re.sub(r'\s+', ' ', s)] on the characters of [s]. *)
Fixpoint collapse_spaces (after_space : bool) (cs : list string)
  : list string :=
  match cs with
  | [] => []
  | c :: cs' =>
      if isspace_chr rt c
      then if after_space then collapse_spaces true cs'
           else " "%string :: collapse_spaces true cs'
      else c :: collapse_spaces false cs'
  end.

(** Deletes every character outside [keep] and white space, collapses the
    white space and strips the ends. *)
Definition clean_text (keep : string -> bool) (s : string) : string :=
  let kept := filter (fun c => keep c || isspace_chr rt c) (chars s) in
  strip rt (join_chars (collapse_spaces false kept)).

(** The regular expressions take a [str] only. *)
Definition clean_title (title : json) : res string :=
  if negb (truthy title) then Ok ""%string
  else match title with
       | JStr s => Ok (clean_text is_alnum_chr s)
       | _ => Raise TypeError
       end.

Definition is_brand_chr (c : string) : bool :=
  is_alnum_chr c || Str.eqb c "-" || Str.eqb c "&".

Definition _sanitize_brand_name (brand : json) : res string :=
  if negb (truthy brand) then Ok ""%string
  else match brand with
       | JStr s => Ok (clean_text is_brand_chr s)
       | _ => Raise TypeError
       end.

(** *** Identifier, title, images, brand *)

Definition member (pd : list (string * json)) (k : string) : json :=
  default JNull (lookup k pd).

(** [d.get(k1) or d.get(k2) or ...] *)
Fixpoint or_get (d : list (string * json)) (ks : list string) : json :=
  match ks with
  | [] => JNull
  | [k] => member d k
  | k :: ks' => if truthy (member d k) then member d k else or_get d ks'
  end.

Definition find_spu_id (pd : list (string * json)) : res json :=
  let spu_id := member pd "spuId" in
  if negb (truthy spu_id) && has_key "detail" pd
  then get (member pd "detail") "spuId"
  else Ok spu_id.

(** The title of a nested object, tried while no title is found yet. *)
Definition title_from (pd : list (string * json)) (field : string)
    (ks : list string) (title : json) : json :=
  if negb (truthy title) && has_key field pd then
    match member pd field with
    | JDict d => or_get d ks
    | _ => title
    end
  else title.

Definition find_title (pd : list (string * json)) : json :=
  let title := or_get pd ["title"; "name"; "productName"; "spuName"] in
  let title := title_from pd "detail"
                 ["title"; "name"; "productName"; "spuName"; "desc";
                  "description"] title in
  let title := title_from pd "basicParam"
                 ["title"; "name"; "productName"; "spuName"] title in
  title_from pd "detailModel" ["title"; "name"; "productName"] title.

(** The logo of the reference SKU: the first SKU with that id and a logo.
    The logo is sliced for the log line, which a number or a dict refuses. *)
Fixpoint sku_logo_url (reference_sku_id : string) (skus : list json)
  : res json :=
  match skus with
  | [] => Ok JNull
  | sku :: rest =>
      match sku with
      | JDict d =>
          if Str.eqb (str rt (member d "skuId")) reference_sku_id then
            let sku_logo := member d "logoUrl" in
            if truthy sku_logo then
              if is_str sku_logo || is_list sku_logo then Ok sku_logo
              else Raise TypeError
            else sku_logo_url reference_sku_id rest
          else sku_logo_url reference_sku_id rest
      | _ => sku_logo_url reference_sku_id rest
      end
  end.

Definition find_logo_url (pd : list (string * json))
    (reference_sku_id : option string) : res json :=
  logo_url ←
    match reference_sku_id, member pd "skus" with
    | Some r, JList skus =>
        if negb (Str.eqb r "") && has_key "skus" pd
        then sku_logo_url r skus else Ok JNull
    | _, _ => Ok JNull
    end;
  if negb (truthy logo_url) then
    match member pd "detail" with
    | JDict d => Ok (member d "logoUrl")
    | _ => Ok logo_url
    end
  else Ok logo_url.

Fixpoint image_urls (images_list : list json) : list json :=
  match images_list with
  | [] => []
  | img :: rest =>
      match img with
      | JDict d =>
          let img_url := member d "url" in
          if truthy img_url then img_url :: image_urls rest
          else image_urls rest
      | JStr _ => img :: image_urls rest
      | _ => image_urls rest
      end
  end.

Definition find_images (pd : list (string * json)) : list json :=
  match member pd "image" with
  | JDict image =>
      match default (JDict []) (lookup "spuImage" image) with
      | JDict spu_image =>
          match default (JList []) (lookup "images" spu_image) with
          | JList images_list => image_urls images_list
          | _ => []
          end
      | _ => []
      end
  | _ => []
  end.

Definition all_images_of (logo_url : json) (images : list json) : list json :=
  if truthy logo_url then logo_url :: images else images.

Definition find_brand (pd : list (string * json)) : res string :=
  match member pd "brandRootInfo" with
  | JDict brand_root =>
      match default (JList []) (lookup "brandItemList" brand_root) with
      | JList (first :: _) =>
          raw_brand ← get_default first "brandName" (JStr "");
          _sanitize_brand_name raw_brand
      | _ => Ok ""%string
      end
  | _ => Ok ""%string
  end.

(** *** Colour, size labels and size type *)

(** The first property that is a dict with [level == 1]. *)
Fixpoint first_level1 (props : list json) : option (list (string * json)) :=
  match props with
  | [] => None
  | JDict prop :: rest =>
      if eqb_int (member prop "level") 1 then Some prop
      else first_level1 rest
  | _ :: rest => first_level1 rest
  end.

(** Whether the sale property with this value id is named as a colour. *)
Fixpoint sale_prop_is_color (prop_value_id : json)
    (properties_list : list json) : res bool :=
  match properties_list with
  | [] => Ok false
  | sale_prop :: rest =>
      id ← get sale_prop "propertyValueId";
      if eqb id prop_value_id then
        prop_name ← get_default sale_prop "name" (JStr "");
        Ok (in_strs prop_name color_names)
      else sale_prop_is_color prop_value_id rest
  end.

(** The colour of the reference SKU, or [None]. *)
Fixpoint reference_color (reference_sku_id_int : Z) (skus : list json)
    (properties_list : json) : res json :=
  match skus with
  | [] => Ok JNull
  | sku :: rest =>
      id ← get sku "skuId";
      if eqb_int id reference_sku_id_int then
        props ← get_default sku "properties" (JList []);
        items ← iter props;
        match first_level1 items with
        | None => Ok JNull
        | Some prop =>
            let prop_value_id := member prop "propertyValueId" in
            sale_props ← iter properties_list;
            is_color ← sale_prop_is_color prop_value_id sale_props;
            Ok (if is_color : bool then prop_value_id else JNull)
        end
      else reference_color reference_sku_id_int rest properties_list
  end.

(** The loop over [saleProperties.list]: the primary colour when none is set
    yet and the map from property value id to size label. *)
Fixpoint scan_sale_properties (props : list json) (primary_color_id : json)
    (property_to_size : table) : res (json * table) :=
  match props with
  | [] => Ok (primary_color_id, property_to_size)
  | JDict prop :: rest =>
      let prop_id := member prop "propertyValueId" in
      let prop_value := default (JStr "") (lookup "value" prop) in
      let prop_name := default (JStr "") (lookup "name" prop) in
      let level := default (JInt 0) (lookup "level" prop) in
      let primary_color_id :=
        if is_none primary_color_id && eqb_int level 1
           && in_strs prop_name color_names
        then prop_id else primary_color_id in
      let is_size :=
        eqb_int level 2 || (eqb_int level 1 && in_strs prop_name size_names) in
      if truthy prop_id && truthy prop_value && is_size then
        if hashable prop_id
        then scan_sale_properties rest primary_color_id
               (table_set prop_id prop_value property_to_size)
        else Raise TypeError
      else scan_sale_properties rest primary_color_id property_to_size
  | _ :: rest => scan_sale_properties rest primary_color_id property_to_size
  end.

(** The loop over the size labels: clothing at the first clothing size,
    otherwise shoes; the flag says whether a label held a digit. *)
Fixpoint classify_sizes (values : list json) (has_valid_sizes : bool)
  : res (size_type * bool) :=
  match values with
  | [] => Ok (Shoes, has_valid_sizes)
  | JStr size_value :: rest =>
      if Str.mem (upper rt size_value) VALID_CLOTHING_SIZES
      then Ok (Clothing, true)
      else if any_isdigit rt size_value then classify_sizes rest true
      else classify_sizes rest has_valid_sizes
  | _ :: _ => Raise AttributeError
  end.

Definition one_size_by_category (category_ids : option (list Z)) : bool :=
  match category_ids with
  | Some ids => CategoryFilter.has_one_size_category ids
  | None => false
  end.

(** The size type, and the size map as it is used from then on. *)
Definition determine_size_type (category_ids : option (list Z))
    (property_to_size : table) : res (size_type * table) :=
  if one_size_by_category category_ids then Ok (Accessories, [])
  else
    '(st, has_valid_sizes) ← classify_sizes (table_values property_to_size)
                                false;
    if negb has_valid_sizes && (0 <? length property_to_size)%nat
    then Ok (Accessories, [])
    else Ok (st, property_to_size).

(** *** Prices from [priceInfo] *)

Definition find_price_info_skus (pd : list (string * json)) : res json :=
  let price_info_data := default (JDict []) (lookup "priceInfo" pd) in
  if truthy price_info_data then
    price_info_skus ← get_default price_info_data "skus" (JDict []);
    _ ← length_of price_info_skus;
    Ok price_info_skus
  else Ok (JDict []).

(** The loop that counts the SKUs priced in [priceInfo]; it reads every SKU
    as a dict. *)
Fixpoint count_price_info (skus : list json) (price_info_skus : json)
  : res nat :=
  match skus with
  | [] => Ok O
  | sku :: rest =>
      id ← get_default sku "skuId" (JInt 0);
      found ← contains_item price_info_skus (JStr (str rt id));
      n ← count_price_info rest price_info_skus;
      Ok (if found : bool then S n else n)
  end.

(** *** The size of one SKU *)

(** The size label the map gives for a property of the SKU, or [None]. *)
Fixpoint lookup_size (props : list json) (property_to_size : table)
  : res json :=
  match props with
  | [] => Ok JNull
  | JDict prop :: rest =>
      let level := default (JInt 0) (lookup "level" prop) in
      let prop_value_id := member prop "propertyValueId" in
      if hashable prop_value_id then
        match table_get prop_value_id property_to_size with
        | Some size =>
            if eqb_int level 1 || eqb_int level 2 then Ok size
            else lookup_size rest property_to_size
        | None => lookup_size rest property_to_size
        end
      else Raise TypeError
  | _ :: rest => lookup_size rest property_to_size
  end.

Definition width_indicators : list string :=
  ["D"; "E"; "W"; "EE"; "EEE"; "2E"; "3E"; "4E"; "D宽"; "E宽"; "2E宽";
   "宽"; "窄"].

Definition is_width (prop_value_str : string) : bool :=
  existsb (fun indicator =>
             contains indicator prop_value_str
             || Str.eqb (upper rt prop_value_str) indicator)
    width_indicators.

(** Fallback 1: the first [level == 2] value that is no width. *)
Fixpoint level2_size (props : list json) : option string :=
  match props with
  | [] => None
  | JDict prop :: rest =>
      if eqb_int (member prop "level") 2 then
        let prop_value := member prop "propertyValue" in
        if truthy prop_value then
          let prop_value_str := strip rt (str rt prop_value) in
          if is_width prop_value_str then level2_size rest
          else Some prop_value_str
        else level2_size rest
      else level2_size rest
  | _ :: rest => level2_size rest
  end.

Definition width_indicators_ascii : list string :=
  ["D"; "E"; "W"; "EE"; "EEE"; "2E"; "3E"; "4E"; "D宽"; "E宽"; "2E宽"].

Definition ends_with (suffix s : string) : bool :=
  let n := String.length s in
  let k := String.length suffix in
  (k <=? n)%nat && Str.eqb (String.substring (n - k) k s) suffix.

(** Fallback 2: the first short ASCII value that is neither a width nor made
    of letters only, for shoes one with a digit. *)
Fixpoint any_value_size (st : size_type) (props : list json)
  : option string :=
  match props with
  | [] => None
  | JDict prop :: rest =>
      let prop_value := member prop "propertyValue" in
      if truthy prop_value then
        let prop_value_str := strip rt (str rt prop_value) in
        if negb (Str.is_ascii prop_value_str) then any_value_size st rest
        else if (10 <? len prop_value_str)%nat then any_value_size st rest
        else if Str.mem (upper rt prop_value_str) width_indicators_ascii
                || ends_with "宽" (upper rt prop_value_str)
             then any_value_size st rest
        else if ascii_isalpha prop_value_str then any_value_size st rest
        else if size_type_eqb st Shoes
                && negb (any_isdigit rt prop_value_str)
             then any_value_size st rest
        else Some prop_value_str
      else any_value_size st rest
  | _ :: rest => any_value_size st rest
  end.

Definition possible_size_fields : list string :=
  ["size"; "sizeValue"; "sizeName"; "sizeEu"; "sizeUs"; "sizeUk"].

(** Fallback 3: another field of the SKU. *)
Fixpoint field_size (st : size_type) (sku : list (string * json))
    (fields : list string) : option string :=
  match fields with
  | [] => None
  | field :: rest =>
      let field_value := member sku field in
      if truthy field_value then
        let field_value_str := strip rt (str rt field_value) in
        if size_type_eqb st Shoes && any_isdigit rt field_value_str
        then Some field_value_str
        else if size_type_eqb st Clothing
                && Str.mem (upper rt field_value_str) VALID_CLOTHING_SIZES
             then Some field_value_str
        else field_size st sku rest
      else field_size st sku rest
  end.

Definition no_digit (s : string) : bool := negb (Str.any Str.is_digit s).

(** The group of [re.search(r'(\d{2}(?:\.\d)?)\D*$', s)] in an ASCII
    string: the leftmost two digits, with one decimal if there is one, after
    which no digit follows. *)
Fixpoint size_suffix_ascii (s : string) : option string :=
  match s with
  | EmptyString => None
  | String a s' =>
      match s' with
      | String b r =>
          if Str.is_digit a && Str.is_digit b then
            match r with
            | String "." (String d r') =>
                if Str.is_digit d && no_digit r'
                then Some (String a (String b (String "." (String d ""))))
                else if no_digit r then Some (String a (String b ""))
                else size_suffix_ascii s'
            | _ =>
                if no_digit r then Some (String a (String b ""))
                else size_suffix_ascii s'
            end
          else size_suffix_ascii s'
      | EmptyString => None
      end
  end.

Definition size_suffix (s : string) : option string :=
  if Str.is_ascii s then size_suffix_ascii s else rt_size_suffix rt s.

Definition f33 : Float.float := Float.of_decimal false 330 1.
Definition f50 : Float.float := Float.of_decimal false 500 1.

(** Fallback 4: a size between 33 and 50 at the end of the SKU id. *)
Definition sku_id_size (sku_id : json) : option string :=
  match size_suffix (str rt sku_id) with
  | Some potential_size =>
      match float_of_str rt potential_size with
      | Some size_float =>
          if Float.leb f33 size_float && Float.leb size_float f50
          then Some potential_size else None
      | None => None
      end
  | None => None
  end.

Definition of_option (o : option string) : json :=
  match o with Some s => JStr s | None => JNull end.

(** The chain of fallbacks after the lookup in the map; [None] when every
    one fails. *)
Definition fallback_size (st : size_type) (sku : list (string * json))
    (sku_id properties : json) (props : list json) (size_eu : json) : json :=
  let size_eu :=
    if negb (truthy size_eu) then
      match level2_size props with
      | Some s => JStr s
      | None => size_eu
      end
    else size_eu in
  let size_eu :=
    if negb (truthy size_eu) && truthy properties then
      match any_value_size st props with
      | Some s => JStr s
      | None => size_eu
      end
    else size_eu in
  let size_eu :=
    if negb (truthy size_eu) then
      match field_size st sku possible_size_fields with
      | Some s => JStr s
      | None => size_eu
      end
    else size_eu in
  if negb (truthy size_eu) && size_type_eqb st Shoes then
    match sku_id_size sku_id with
    | Some s => JStr s
    | None => size_eu
    end
  else size_eu.

(** [40.0] becomes [40]: a shoe size that is an integral float is printed as
    the integer.  [ValueError] and [TypeError] are passed over. *)
Definition normalize_size (st : size_type) (size_eu : json) : res json :=
  if size_type_eqb st Shoes && negb (eqb_str size_eu "ONE SIZE") then
    match to_float rt size_eu with
    | Ok size_float =>
        match integer_value size_float with
        | Some z => Ok (JStr (pretty z))
        | None => Ok size_eu
        end
    | Raise ValueError | Raise TypeError => Ok size_eu
    | Raise e => Raise e
    end
  else Ok size_eu.

(** *** The price of one SKU *)

(** Priority 1: the first tier with [tradeType == 2] whose delivery takes at
    most four days.  Every dict before it is read too, and a tier whose
    [timeDelivery] is no dict or whose [max] is no number raises. *)
Fixpoint find_fast_standard (prices_list : list json) : res (option json) :=
  match prices_list with
  | [] => Ok None
  | JDict price_obj :: rest =>
      let trade_type := default (JInt 0) (lookup "tradeType" price_obj) in
      let time_delivery :=
        default (JDict []) (lookup "timeDelivery" price_obj) in
      max_delivery ← get_default time_delivery "max" (JInt 999);
      short ← le_int max_delivery 4;
      let is_fast := (short : bool) && negb (eqb_int trade_type 95) in
      if eqb_int trade_type 2 && is_fast then Ok (Some (JDict price_obj))
      else find_fast_standard rest
  | _ :: rest => find_fast_standard rest
  end.

(** The first tier of a type; [dflt] is what a tier without [tradeType]
    counts as. *)
Fixpoint find_type (dflt : json) (trade_type : Z) (prices_list : list json)
  : option json :=
  match prices_list with
  | [] => None
  | JDict price_obj :: rest =>
      if eqb_int (default dflt (lookup "tradeType" price_obj)) trade_type
      then Some (JDict price_obj)
      else find_type dflt trade_type rest
  | _ :: rest => find_type dflt trade_type rest
  end.

(** One later priority: looked for only while nothing truthy is selected. *)
Definition or_find (dflt : json) (trade_type : Z) (prices_list : list json)
    (selected : json * Z) : json * Z :=
  if negb (truthy (fst selected)) then
    match find_type dflt trade_type prices_list with
    | Some price_obj => (price_obj, trade_type)
    | None => selected
    end
  else selected.

(** The five priorities 2, 12, 0, 8, 11 over one list of tiers: the tier
    selected ([None] when there is none) and its type. *)
Definition select_price (dflt : json) (prices_list : list json)
  : res (json * Z) :=
  first ← find_fast_standard prices_list;
  let selected :=
    match first with
    | Some price_obj => (price_obj, 2)
    | None => (JNull, 0)
    end in
  Ok (or_find dflt 11 prices_list
        (or_find dflt 8 prices_list
           (or_find dflt 0 prices_list
              (or_find dflt 12 prices_list selected)))).

(** What a price source says of a SKU. *)
Inductive priced : Type :=
| SkipSku
| Price (price_cny : option (Float.float * price_source)).

(** [prices_list and len(prices_list) > 0], then the items of the list. *)
Definition nonempty_items (prices_list : json) : res (option (list json)) :=
  if truthy prices_list then
    n ← length_of prices_list;
    if (0 <? n)%nat then items ← iter prices_list; Ok (Some items)
    else Ok None
  else Ok None.

(** Source 1, [priceInfo]: the selected tier's [activePrice] when it is there
    and positive, else its [price]. *)
Definition price_from_price_info (sku_id : json) (price_info_skus : json)
  : res priced :=
  let key := str rt sku_id in
  found ← contains_item price_info_skus (JStr key);
  if found : bool then
    sku_price_data ← subscript price_info_skus key;
    match sku_price_data with
    | JDict d =>
        items ← nonempty_items (default (JList []) (lookup "prices" d));
        match items with
        | Some prices_list =>
            '(selected_price_obj, _) ← select_price (JInt 0) prices_list;
            if negb (truthy selected_price_obj) then Ok SkipSku
            else
              active ← get selected_price_obj "activePrice";
              use_price ←
                (if negb (truthy active) then Ok true else le_int active 0);
              price_raw ←
                (if use_price : bool
                 then get_default selected_price_obj "price" (JInt 0)
                 else Ok active);
              positive ← gt_int price_raw 0;
              if positive : bool then
                price_cny ← div_100 price_raw;
                Ok (Price (Some (price_cny, FromPriceInfo)))
              else Ok (Price None)
        | None => Ok (Price None)
        end
    | _ => Ok (Price None)
    end
  else Ok (Price None).

(** Source 2, the SKU's own [price.prices]: the selected tier's [price]. *)
Definition price_from_sku (sku : list (string * json))
    (price_cny : option (Float.float * price_source)) : res priced :=
  match default (JDict []) (lookup "price" sku) with
  | JDict price_obj =>
      items ← nonempty_items (default (JList []) (lookup "prices" price_obj));
      match items with
      | Some prices_list =>
          '(selected_price_obj, selected_type) ←
            select_price JNull prices_list;
          if truthy selected_price_obj then
            detailed_price ← get_default selected_price_obj "price" (JInt 0);
            positive ← gt_int detailed_price 0;
            if positive : bool then
              p ← div_100 detailed_price;
              Ok (Price (Some (p, FromPricePrices selected_type)))
            else Ok (Price price_cny)
          else Ok SkipSku
      | None => Ok (Price price_cny)
      end
  | _ => Ok (Price price_cny)
  end.

Definition f0 : Float.float := S754_zero false.

(** [price_cny is None or price_cny <= 0] *)
Definition no_price (price_cny : option (Float.float * price_source))
  : bool :=
  match price_cny with
  | None => true
  | Some (p, _) => Float.leb p f0
  end.

(** Both sources in order. *)
Definition find_price (sku : list (string * json)) (sku_id : json)
    (price_info_skus : json) : res priced :=
  first ← price_from_price_info sku_id price_info_skus;
  match first with
  | SkipSku => Ok SkipSku
  | Price price_cny =>
      if no_price price_cny then price_from_sku sku price_cny
      else Ok (Price price_cny)
  end.

(** *** The loop over the SKUs *)

(** [reference_sku_id] as a condition: a string that is not empty. *)
Definition supplied (reference_sku_id : option string) : bool :=
  match reference_sku_id with
  | Some r => negb (Str.eqb r "")
  | None => false
  end.

Definition is_reference (reference_sku_id : option string) (sku_id : json)
  : bool :=
  match reference_sku_id with
  | Some r => Str.eqb (str rt sku_id) r
  | None => false
  end.

(** The SKU has a colour and it is not the primary one. *)
Definition other_color (primary_color_id : json) (props : list json) : bool :=
  let sku_color_id :=
    match first_level1 props with
    | Some prop => member prop "propertyValueId"
    | None => JNull
    end in
  truthy sku_color_id && negb (eqb sku_color_id primary_color_id).

Definition ONE_SIZE : string := "ONE SIZE".

(** One turn of the loop: the SKU is passed over or gives a variant. *)
Inductive step : Type :=
| Skipped
| Emitted (v : variant).

Definition process_sku (st : size_type) (reference_sku_id : option string)
    (primary_color_id : json) (property_to_size : table)
    (price_info_skus : json) (found_one_size_variant : bool) (sku : json)
  : res step :=
  match sku with
  | JDict d =>
      let sku_id := default (JInt 0) (lookup "skuId" d) in
      let properties := default (JList []) (lookup "properties" d) in
      let by_reference :=
        size_type_eqb st Accessories && supplied reference_sku_id in
      if by_reference && negb (is_reference reference_sku_id sku_id)
      then Ok Skipped
      else
        skip ←
          (if by_reference then Ok false
           else if negb (size_type_eqb st Accessories)
                   && truthy primary_color_id
                then props ← iter properties;
                     Ok (other_color primary_color_id props)
                else Ok false);
        if skip : bool then Ok Skipped
        else
          props ← iter properties;
          size_eu ← lookup_size props property_to_size;
          let size_eu := fallback_size st d sku_id properties props size_eu in
          if negb (truthy size_eu) && negb (size_type_eqb st Accessories)
          then Ok Skipped
          else
            let size_eu :=
              if negb (truthy size_eu) then JStr ONE_SIZE else size_eu in
            if size_type_eqb st Accessories && eqb_str size_eu ONE_SIZE
               && found_one_size_variant && negb (supplied reference_sku_id)
            then Ok Skipped
            else
              size_eu ← normalize_size st size_eu;
              _ ← (if truthy price_info_skus
                   then contains_item price_info_skus (JStr (str rt sku_id))
                   else Ok false);
              let status := default (JInt 0) (lookup "status" d) in
              if negb (eqb_int status 1) then Ok Skipped
              else
                p ← find_price d sku_id price_info_skus;
                match p with
                | SkipSku => Ok Skipped
                | Price None => Ok Skipped
                | Price (Some (price, source)) =>
                    if no_price (Some (price, source)) then Ok Skipped
                    else
                      rub ← match price_formula with
                            | Some f => f price
                            | None => Ok price
                            end;
                      Ok (Emitted {| sku_id := sku_id;
                                     size_eu := size_eu;
                                     v_size_type := st;
                                     price_cny := price;
                                     price_rub := rub;
                                     is_available := true;
                                     stock_status := status;
                                     v_price_source := source |})
                end
  | _ => Ok Skipped
  end.

(** The flag set after an accessory's ONE SIZE variant when no reference SKU
    is given. *)
Definition sets_one_size (st : size_type) (reference_sku_id : option string)
    (v : variant) : bool :=
  size_type_eqb st Accessories && eqb_str (size_eu v) ONE_SIZE
  && negb (supplied reference_sku_id).

Fixpoint process_skus (st : size_type) (reference_sku_id : option string)
    (primary_color_id : json) (property_to_size : table)
    (price_info_skus : json) (found_one_size_variant : bool)
    (skus : list json) : res (list variant) :=
  match skus with
  | [] => Ok []
  | sku :: rest =>
      s ← process_sku st reference_sku_id primary_color_id property_to_size
            price_info_skus found_one_size_variant sku;
      match s with
      | Skipped =>
          process_skus st reference_sku_id primary_color_id property_to_size
            price_info_skus found_one_size_variant rest
      | Emitted v =>
          vs ← process_skus st reference_sku_id primary_color_id
                 property_to_size price_info_skus
                 (found_one_size_variant
                  || sets_one_size st reference_sku_id v) rest;
          Ok (v :: vs)
      end
  end.

(** *** The sizes printed in the log *)

(** [sorted(l, key=...)] for keys compared by [lt]: equal keys keep their
    order. *)
Fixpoint insert_by {K A : Type} (lt : K -> K -> bool) (x : K * A)
    (l : list (K * A)) : list (K * A) :=
  match l with
  | [] => [x]
  | y :: l' =>
      if lt (fst x) (fst y) then x :: y :: l' else y :: insert_by lt x l'
  end.

Definition sorted_by {K A : Type} (lt : K -> K -> bool) (l : list (K * A))
  : list A :=
  snd <$> fold_left (fun acc x => insert_by lt x acc) l [].

Definition f999 : Float.float := Float.of_Z 999.

(** [safe_float_sort]: what does not convert sorts as 999. *)
Definition safe_float_sort (x : json) : res Float.float :=
  match to_float rt x with
  | Ok f => Ok f
  | Raise ValueError | Raise TypeError => Ok f999
  | Raise e => Raise e
  end.

Definition size_order : list (string * Z) :=
  [("XXXS", 1); ("XXS", 2); ("XS", 3); ("S", 4); ("M", 5); ("L", 6);
   ("XL", 7); ("XXL", 8); ("XXXL", 9); ("4XL", 10); ("5XL", 11);
   ("6XL", 12); ("7XL", 13)].

(** [size_order.get(str(x).upper(), 999)]; what is no string prints as no
    clothing size. *)
Definition clothing_key (x : json) : Z :=
  match x with
  | JStr s =>
      default 999 (snd <$> find (fun e => Str.eqb (fst e) (upper rt s))
                             size_order)
  | _ => 999
  end.

Fixpoint with_keys {K : Type} (key : json -> res K) (l : list json)
  : res (list (K * json)) :=
  match l with
  | [] => Ok []
  | x :: l' => k ← key x; kl ← with_keys key l'; Ok ((k, x) :: kl)
  end.

(** [sizes_list]: in the order of the variants for accessories, sorted by
    number for shoes and by [size_order] for clothing.  (With a NaN among the
    keys Python's order is that of its own sorting algorithm.) *)
Definition sizes_list (st : size_type) (vs : list variant) : res (list json) :=
  let sizes := size_eu <$> vs in
  match st with
  | Accessories => Ok sizes
  | Shoes =>
      keyed ← with_keys safe_float_sort sizes;
      Ok (sorted_by Float.ltb keyed)
  | Clothing =>
      Ok (sorted_by Z.ltb ((fun x => (clothing_key x, x)) <$> sizes))
  end.

(** [', '.join(sizes_list[:5])] joins strings only. *)
Definition log_sizes (st : size_type) (vs : list variant) : res unit :=
  l ← sizes_list st vs;
  if forallb is_str (take 5 l) then Ok tt else Raise TypeError.

(** *** parse_product_detail *)

Definition parse_body (product_data : json)
    (reference_sku_id : option string) (category_ids : option (list Z))
  : res parse_result :=
  match product_data with
  | JDict pd =>
      spu ← find_spu_id pd;
      if negb (truthy spu) then Ok (Invalid no_spu_id)
      else
        let raw_title := find_title pd in
        title_str ← (if truthy raw_title then clean_title raw_title
                     else Ok ""%string);
        if Str.eqb title_str "" then Ok (Invalid empty_title)
        else
          logo_url ← find_logo_url pd reference_sku_id;
          let all_images := all_images_of logo_url (find_images pd) in
          match all_images with
          | [] => Ok (Invalid no_images)
          | first_image :: _ =>
              brand_str ← find_brand pd;
              let detail :=
                match member pd "detail" with
                | JDict d => d
                | _ => []
                end in
              let article := default (JStr "") (lookup "articleNumber" detail) in
              let cat_id := member detail "categoryId" in
              let cat_name := default (JStr "") (lookup "categoryName" detail) in
              let skus := default (JList []) (lookup "skus" pd) in
              let size_dto := default (JDict []) (lookup "sizeDto" pd) in
              size_info ← get_default size_dto "sizeInfo" (JDict []);
              _ ← get_default size_info "sizeTemplate" (JDict []);
              let sale_properties :=
                default (JDict []) (lookup "saleProperties" pd) in
              properties_list ← get_default sale_properties "list" (JList []);
              primary ←
                (match reference_sku_id with
                 | Some r =>
                     if supplied reference_sku_id then
                       reference_sku_id_int ← int_of_str rt r;
                       items ← iter skus;
                       reference_color reference_sku_id_int items
                         properties_list
                     else Ok JNull
                 | None => Ok JNull
                 end);
              sale_props ← iter properties_list;
              '(primary_color_id, property_to_size) ←
                scan_sale_properties sale_props primary [];
              if negb (truthy skus) then Ok (Invalid no_skus)
              else
                price_info_skus ← find_price_info_skus pd;
                items ← iter skus;
                _ ← count_price_info items price_info_skus;
                '(st, property_to_size) ←
                  determine_size_type category_ids property_to_size;
                vs ← process_skus st reference_sku_id primary_color_id
                       property_to_size price_info_skus false items;
                match vs with
                | [] => Ok (Invalid no_valid_variants)
                | _ :: _ =>
                    _ ← log_sizes st vs;
                    Ok (Parsed {| spu_id := spu;
                                  title := title_str;
                                  brand := brand_str;
                                  category := cat_name;
                                  category_id := cat_id;
                                  article_number := article;
                                  main_image_url := first_image;
                                  images := all_images;
                                  variants := vs;
                                  is_active := true |})
                end
          end
  | _ => Raise AttributeError
  end.

(** Every exception is caught and counted as [processing_error]. *)
Definition parse_product_detail (product_data : json)
    (reference_sku_id : option string) (category_ids : option (list Z))
  : parse_result :=
  match parse_body product_data reference_sku_id category_ids with
  | Ok r => r
  | Raise _ => Invalid processing_error
  end.

End Processor.

End ProductProcessor.

(** ** product_processor.py: validation *)

Module ProductValidation.

Import Py ProductProcessor.

(** [str(size/2)] for an odd [size] and [str(size//2)] for an even one. *)
Definition half_size_label (size : Z) : string :=
  if Z.odd size then pretty (size / 2) ++ ".5" else pretty (size / 2).

(** [VALID_EU_SHOE_SIZES]: the labels of [range(66, 101)], 33 to 50 in half
    steps. *)
Definition VALID_EU_SHOE_SIZES : list string :=
  half_size_label <$> seqZ 66 35.

(** [validate_eu_size(size, size_type)] *)
Definition validate_eu_size (rt : PyRuntime) (size : json)
    (size_type : string) : bool :=
  let size := strip rt (str rt size) in
  if Str.eqb size_type "shoes" then Str.mem size VALID_EU_SHOE_SIZES
  else if Str.eqb size_type "clothing"
       then Str.mem (upper rt size) VALID_CLOTHING_SIZES
  else false.

Definition positive_price (x : Float.float) : bool := Float.ltb f0 x.

(** [validate_product] on the dict that [parse_product_detail] returns: the
    verdict and its reason. *)
Definition validate_product (p : product) : bool * string :=
  if negb (truthy (spu_id p)) then (false, "Отсутствует SPU ID")
  else if Str.eqb (title p) "" then (false, "Отсутствует название")
  else if match images p with [] => true | _ => false end
       then (false, "Нет изображений")
  else if match variants p with [] => true | _ => false end
       then (false, "Нет размеров")
  else if negb (existsb (fun v => truthy (size_eu v) && is_available v)
                  (variants p))
       then (false, "Нет валидных размеров EU")
  else if negb (existsb (fun v => positive_price (price_rub v)) (variants p))
       then (false, "Нет валидных цен")
  else if negb (existsb is_available (variants p))
       then (false, "Нет в наличии")
  else (true, "Valid").

End ProductValidation.

(** ** category_filter.py: the loader's flat map *)

Module CategoryTree.

Import CategoryFilter.

(** A category of the categories file with the fields the loader reads:
    [id], [name], [slug], [parent] and the list under [children]. *)
Inductive tree : Type :=
| Node (id : Z) (name slug : string) (parent : Z) (children : list tree).

(** One turn of the loop of [_flatten_categories]: the entry of the category
    is written, then its children are flattened into the same dict. *)
Fixpoint flatten_node (cat : tree) (result : gmap Z category)
  : gmap Z category :=
  match cat with
  | Node id name slug parent children =>
      fold_left (fun result child => flatten_node child result) children
        (<[id := {| name := name; slug := slug; parent := parent |}]> result)
  end.

(** [_flatten_categories(cats, result)] *)
Definition _flatten_categories (cats : list tree) (result : gmap Z category)
  : gmap Z category :=
  fold_left (fun result cat => flatten_node cat result) cats result.

End CategoryTree.

(** ** category_filter.py: the recursion limit *)

Module CategoryFilterCalls.

Import CategoryFilter.

(** [is_child_of] takes one interpreter frame per call, and CPython allows a
    bounded number of nested calls.  [frames] is the number of calls the
    interpreter still allows where [is_child_of] is called, its recursion
    limit less the depth of the caller.  A walk that needs more ends in
    [RecursionError], which nothing in the module catches. *)
Definition is_child_of_call (categories_flat : gmap Z category)
    (frames : nat) (category_id parent_id : Z) : res bool :=
  match is_child_of categories_flat frames category_id parent_id with
  | Some b => Ok b
  | None => Raise RecursionError
  end.

End CategoryFilterCalls.

(** * Properties *)

(** ** The category filter *)

Module CategoryFilterProofs.

Import CategoryFilter.

(** [ancestor flat c p]: [p] is reached from [c] by following parent links,
    the walk stopping at a parent 0. *)
Inductive ancestor (flat : gmap Z category) : Z -> Z -> Prop :=
| ancestor_parent c cat :
    flat !! c = Some cat -> ancestor flat c (parent cat)
| ancestor_step c cat p :
    flat !! c = Some cat -> parent cat <> 0 ->
    ancestor flat (parent cat) p -> ancestor flat c p.

(** A small tree: the two shoe roots and a child of each. *)
Definition shoe_tree : gmap Z category :=
  {[ 101 := {| name := "Shoes"; slug := "shoes-men"; parent := 0 |};
     102 := {| name := "Shoes"; slug := "shoes-women"; parent := 0 |};
     103 := {| name := "Sneakers"; slug := "sneakers-men"; parent := 101 |};
     154 := {| name := "Sneakers"; slug := "sneakers-women"; parent := 102 |} ]}.

(** A malformed map: 1 and 2 are each other's parent. *)
Definition cyclic_map : gmap Z category :=
  {[ 1 := {| name := "a"; slug := "a"; parent := 2 |};
     2 := {| name := "b"; slug := "b"; parent := 1 |} ]}.

Lemma is_child_of_sound flat fuel c p :
  is_child_of flat fuel c p = Some true -> ancestor flat c p.
Proof.
  revert c. induction fuel as [|fuel IH]; intros c; simpl; [discriminate|].
  destruct (flat !! c) as [cat|] eqn:Hc; [|discriminate].
  case_bool_decide as Hp.
  - intros _. subst p. by eapply ancestor_parent.
  - case_bool_decide as H0; [|discriminate].
    intros H. eapply ancestor_step; eauto.
Qed.

Lemma is_child_of_complete flat c p :
  ancestor flat c p -> exists fuel, is_child_of flat fuel c p = Some true.
Proof.
  induction 1 as [c cat Hc|c cat p Hc H0 _ [fuel IH]].
  - exists 1%nat. simpl. rewrite Hc. by rewrite bool_decide_eq_true_2.
  - exists (S fuel). simpl. rewrite Hc.
    case_bool_decide; [done|]. by rewrite bool_decide_eq_true_2.
Qed.

Lemma is_child_of_absent flat fuel c p :
  flat !! c = None -> is_child_of flat (S fuel) c p = Some false.
Proof. intros Hc. simpl. by rewrite Hc. Qed.

(** More fuel does not change an answer. *)
Lemma is_child_of_mono flat fuel fuel' c p b :
  (fuel <= fuel')%nat ->
  is_child_of flat fuel c p = Some b -> is_child_of flat fuel' c p = Some b.
Proof.
  revert fuel' c. induction fuel as [|fuel IH]; intros fuel' c Hle;
    simpl; [discriminate|].
  destruct fuel' as [|fuel']; [lia|]. simpl.
  destruct (flat !! c) as [cat|]; [|done].
  case_bool_decide; [done|]. case_bool_decide; [|done].
  apply IH. lia.
Qed.

(** C2 (amended).  [is_child_of] is the strict descendant check: for an id
    absent from the map [is_child_of(c, c)] is false, and it is true only
    when [c] is its own ancestor, that is, lies on a cycle of parent links.
    The reflexive case is that of [is_shoe_category], which never answers
    false on a shoe root. *)
Theorem is_child_of_self_strict :
  forall (flat : gmap Z category) (fuel : nat) (c : Z),
    (flat !! c = None -> is_child_of flat (S fuel) c c = Some false)
    /\ (is_child_of flat fuel c c = Some true -> ancestor flat c c)
    /\ is_shoe_category flat fuel MEN_PARENT_ID <> Some false
    /\ is_shoe_category flat fuel WOMEN_PARENT_ID <> Some false.
Proof.
  intros flat fuel c. split; [apply is_child_of_absent|].
  split; [apply is_child_of_sound|].
  unfold is_shoe_category, or_else.
  split.
  - destruct (is_child_of flat fuel MEN_PARENT_ID MEN_PARENT_ID) as [[]|];
      [done| |done].
    destruct (is_child_of flat fuel MEN_PARENT_ID WOMEN_PARENT_ID) as [[]|];
      done.
  - destruct (is_child_of flat fuel WOMEN_PARENT_ID MEN_PARENT_ID) as [[]|];
      [done| |done].
    destruct (is_child_of flat fuel WOMEN_PARENT_ID WOMEN_PARENT_ID) as [[]|];
      done.
Qed.

(** C2 (as stated) fails: a shoe root is no child of itself, nor is an id
    that the map does not hold. *)
Lemma is_child_of_self_false :
  is_child_of shoe_tree 10 101 101 = Some false
  /\ is_child_of shoe_tree 10 7 7 = Some false.
Proof. split; vm_compute; reflexivity. Qed.

Lemma cyclic_map_walk fuel :
  is_child_of cyclic_map fuel 1 3 = None
  /\ is_child_of cyclic_map fuel 2 3 = None.
Proof.
  induction fuel as [|fuel [IH1 IH2]]; [done|].
  split; simpl.
  - change (cyclic_map !! 1) with
      (Some {| name := "a"; slug := "a"; parent := 2 |}).
    simpl. exact IH2.
  - change (cyclic_map !! 2) with
      (Some {| name := "b"; slug := "b"; parent := 1 |}).
    simpl. exact IH1.
Qed.

(** C3 (as stated) fails: on a map with a cycle the walk from 1 towards 3
    returns at no depth (the interpreter ends it with a RecursionError). *)
Lemma is_child_of_cycle_unbounded :
  ~ (exists fuel b, is_child_of cyclic_map fuel 1 3 = Some b).
Proof.
  intros (fuel & b & H). by rewrite (proj1 (cyclic_map_walk fuel)) in H.
Qed.

Lemma is_child_of_ranked flat (rank : Z -> nat) :
  (forall c cat, flat !! c = Some cat -> parent cat <> 0 ->
                 (rank (parent cat) < rank c)%nat) ->
  forall fuel c p, (rank c < fuel)%nat ->
                   exists b, is_child_of flat fuel c p = Some b.
Proof.
  intros Hrank. induction fuel as [|fuel IH]; intros c p Hlt; [lia|].
  simpl. destruct (flat !! c) as [cat|] eqn:Hc; [|by eexists].
  case_bool_decide; [by eexists|].
  case_bool_decide as H0; [|by eexists].
  apply IH. specialize (Hrank c cat Hc H0). lia.
Qed.

(** [ranked flat rank]: the parent links of [flat] are well founded, [rank]
    decreasing along every link to a parent other than 0. *)
Definition ranked (flat : gmap Z category) (rank : Z -> nat) : Prop :=
  forall c cat, flat !! c = Some cat -> parent cat <> 0 ->
                (rank (parent cat) < rank c)%nat.

Definition shoe_rank (c : Z) : nat :=
  if bool_decide (c = 103) || bool_decide (c = 154) then 1%nat else 0%nat.

Lemma shoe_tree_ranked :
  forall c cat, shoe_tree !! c = Some cat -> parent cat <> 0 ->
                (shoe_rank (parent cat) < shoe_rank c)%nat.
Proof.
  intros c cat Hc H0. unfold shoe_tree in Hc.
  repeat (apply lookup_insert_Some in Hc as [[<- <-]|[_ Hc]];
          [simpl in *; first [done | vm_compute; lia]|]).
  apply lookup_singleton_Some in Hc as [<- <-].
  simpl in *. vm_compute; lia.
Defined.

(** *** The walk and the frames it takes *)

(** [walks_on flat p n c]: the walk from [c] towards [p] follows [n] parent
    links without coming to an end: every category it meets is in the map
    and has a parent that is neither [p] nor 0. *)
Fixpoint walks_on (flat : gmap Z category) (p : Z) (n : nat) (c : Z)
  : Prop :=
  match n with
  | O => True
  | S n' =>
      exists cat,
        flat !! c = Some cat /\ parent cat <> p /\ parent cat <> 0
        /\ walks_on flat p n' (parent cat)
  end.

(** A set of ids that the walk towards [p] never leaves: a cycle of parent
    links, or what leads into one. *)
Definition closed_walk (flat : gmap Z category) (p : Z) (ids : Z -> Prop)
  : Prop :=
  forall c, ids c ->
            exists cat,
              flat !! c = Some cat /\ parent cat <> p /\ parent cat <> 0
              /\ ids (parent cat).

(** The chain of [n] categories: [k] has the parent [k - 1], and 1 the
    parent 0. *)
Fixpoint chain (n : nat) : gmap Z category :=
  match n with
  | O => ∅
  | S n' =>
      <[Z.of_nat (S n') := {| name := "c"; slug := "c";
                              parent := Z.of_nat n' |}]> (chain n')
  end.

Lemma is_child_of_walks_on flat p fuel c :
  is_child_of flat fuel c p = None <-> walks_on flat p fuel c.
Proof.
  revert c. induction fuel as [|fuel IH]; intros c; simpl; [done|].
  destruct (flat !! c) as [cat|] eqn:Hc.
  - case_bool_decide as Hp.
    + split; [discriminate|]. intros (cat' & [= <-] & Hp' & _). done.
    + case_bool_decide as H0.
      * rewrite IH. split; [by exists cat|].
        by intros (cat' & [= <-] & _ & _ & Hw).
      * split; [discriminate|]. intros (cat' & [= <-] & _ & H0' & _). done.
  - split; [discriminate|]. by intros (cat' & Hcat & _).
Qed.

Lemma closed_walk_walks_on flat p ids :
  closed_walk flat p ids -> forall n c, ids c -> walks_on flat p n c.
Proof.
  intros Hclosed. induction n as [|n IH]; intros c Hc; simpl; [done|].
  destruct (Hclosed c Hc) as (cat & Hcat & Hp & H0 & Hnext).
  exists cat. repeat split; try done. by apply IH.
Qed.

Lemma chain_lookup n c cat :
  chain n !! c = Some cat <->
  (1 <= c <= Z.of_nat n)
  /\ cat = {| name := "c"; slug := "c"; parent := c - 1 |}.
Proof.
  induction n as [|n IH]; cbn [chain].
  - rewrite lookup_empty. split; [discriminate|]. lia.
  - rewrite lookup_insert_Some, IH. split.
    + intros [[<- <-]|[Hne [Hc ->]]].
      * split; [lia|]. f_equal. lia.
      * split; [lia|done].
    + intros [Hc ->]. destruct (decide (Z.of_nat (S n) = c)) as [<-|Hne].
      * left. split; [done|]. f_equal. lia.
      * right. split; [done|]. split; [lia|done].
Qed.

Lemma chain_ranked n : ranked (chain n) Z.to_nat.
Proof.
  intros c cat Hc H0. apply chain_lookup in Hc as [Hc ->]. simpl in *. lia.
Qed.

Lemma chain_walks_on n frames c :
  Z.of_nat frames < c <= Z.of_nat n -> walks_on (chain n) (-1) frames c.
Proof.
  revert c. induction frames as [|frames IH]; intros c Hc; simpl; [done|].
  exists {| name := "c"; slug := "c"; parent := c - 1 |}.
  split; [apply chain_lookup; split; [lia|done]|]. simpl.
  split; [lia|]. split; [lia|]. apply IH. lia.
Qed.

Import CategoryFilterCalls.

(** C3 (amended).  The recursion has no depth guard and no visited set, and
    every parent link takes one interpreter frame.  With [frames] calls left
    to the interpreter, [is_child_of] returns a boolean exactly when the walk
    comes to an end within them, and raises [RecursionError] otherwise; an
    answer once given is the same with more frames.  So the call returns on a
    map with well-founded parent links when the rank of the category is
    below the frames left; it raises [RecursionError] at every number of
    frames on a set of ids the walk never leaves (a cycle that avoids 0 and
    [parent_id]); and it raises [RecursionError] on a well-founded chain that
    is longer than the frames left. *)
Theorem is_child_of_within_frames :
  (forall (flat : gmap Z category) (p : Z) (frames : nat) (c : Z),
      (is_child_of_call flat frames c p = Raise RecursionError
       <-> walks_on flat p frames c)
      /\ ((exists b, is_child_of_call flat frames c p = Ok b)
          <-> ~ walks_on flat p frames c))
  /\ (forall (flat : gmap Z category) (p : Z) (frames frames' : nat) (c : Z)
             (b : bool),
         (frames <= frames')%nat ->
         is_child_of_call flat frames c p = Ok b ->
         is_child_of_call flat frames' c p = Ok b)
  /\ (forall (flat : gmap Z category) (p : Z) (rank : Z -> nat)
             (frames : nat) (c : Z),
         ranked flat rank -> (rank c < frames)%nat ->
         exists b, is_child_of_call flat frames c p = Ok b)
  /\ (forall (flat : gmap Z category) (p : Z) (ids : Z -> Prop)
             (frames : nat) (c : Z),
         closed_walk flat p ids -> ids c ->
         is_child_of_call flat frames c p = Raise RecursionError)
  /\ (forall n frames : nat,
         (frames < n)%nat ->
         ranked (chain n) Z.to_nat
         /\ is_child_of_call (chain n) frames (Z.of_nat n) (-1)
            = Raise RecursionError).
Proof.
  assert (forall flat p frames c,
             is_child_of_call flat frames c p = Raise RecursionError
             <-> walks_on flat p frames c) as Hraise.
  { intros flat p frames c. rewrite <- is_child_of_walks_on.
    unfold is_child_of_call.
    destruct (is_child_of flat frames c p); split; done. }
  split; [|split; [|split; [|split]]].
  - intros flat p frames c. split; [apply Hraise|].
    rewrite <- is_child_of_walks_on. unfold is_child_of_call.
    destruct (is_child_of flat frames c p) as [b|].
    + split; [discriminate|]. intros _. by exists b.
    + split; [by intros [b Hb]|]. intros H. by destruct H.
  - intros flat p frames frames' c b Hle. unfold is_child_of_call.
    destruct (is_child_of flat frames c p) as [b'|] eqn:Hb; [|discriminate].
    intros [= <-]. by rewrite (is_child_of_mono _ _ _ _ _ _ Hle Hb).
  - intros flat p rank frames c Hrank Hlt. unfold is_child_of_call.
    destruct (is_child_of_ranked flat rank Hrank frames c p Hlt) as [b ->].
    by exists b.
  - intros flat p ids frames c Hclosed Hc. apply Hraise.
    by eapply closed_walk_walks_on.
  - intros n frames Hlt. split; [apply chain_ranked|].
    apply Hraise, chain_walks_on. lia.
Qed.

Lemma is_child_of_within_frames_witness :
  exists b, is_child_of_call shoe_tree 2 103 102 = Ok b.
Proof.
  apply (proj1 (proj2 (proj2 is_child_of_within_frames)) shoe_tree 102
           shoe_rank 2%nat 103 shoe_tree_ranked).
  vm_compute. lia.
Defined.

End CategoryFilterProofs.

(** ** The size thresholds *)

Module SizeProofs.

Import CategoryFilter.

Lemma WOMEN_MAX_SIZE_eq :
  WOMEN_MAX_SIZE = S754_finite false 5488762045857792 (-47).
Proof. vm_compute. reflexivity. Qed.

Lemma MEN_MIN_SIZE_eq :
  MEN_MIN_SIZE = S754_finite false 5559130790035456 (-47).
Proof. vm_compute. reflexivity. Qed.

(** Both thresholds have exponent -47, so a magnitude below the one is below
    the other. *)
Lemma between_thresholds (m : positive) (e : Z) :
  Float.mag_compare m e 5488762045857792 (-47) <> Gt ->
  Float.mag_compare 5559130790035456 (-47) m e <> Gt ->
  False.
Proof.
  unfold Float.mag_compare. rewrite (Z.min_comm (-47) e).
  set (k := Z.min e (-47)).
  assert (0 <= e - k) by lia. assert (0 <= -47 - k) by lia.
  rewrite !Z.shiftl_mul_pow2 by assumption.
  assert (0 < 2 ^ (-47 - k)) by (apply Z.pow_pos_nonneg; lia).
  intros Ha Hb.
  pose proof (proj1 (Z.compare_le_iff _ _) Ha) as Ha'.
  pose proof (proj1 (Z.compare_le_iff _ _) Hb) as Hb'.
  clear Ha Hb. revert Ha' Hb'. generalize (Z.pos m * 2 ^ (e - k)).
  generalize dependent (2 ^ (-47 - k)). intros; lia.
Qed.

Lemma not_both (f : Float.float) :
  is_women_size f && is_men_size f = false.
Proof.
  unfold is_women_size, is_men_size, Float.geb, Float.leb.
  rewrite WOMEN_MAX_SIZE_eq, MEN_MIN_SIZE_eq.
  destruct f as [s|s| |s m e]; try (destruct s; reflexivity); try reflexivity.
  destruct s; [reflexivity|]. simpl.
  destruct (Float.mag_compare m e _ _) eqn:H1;
    destruct (Float.mag_compare _ _ m e) eqn:H2; try reflexivity;
    exfalso; apply (between_thresholds m e); congruence.
Qed.

Lemma mag_compare_antisym m1 e1 m2 e2 :
  Float.mag_compare m2 e2 m1 e1 = CompOpp (Float.mag_compare m1 e1 m2 e2).
Proof.
  unfold Float.mag_compare. rewrite (Z.min_comm e2 e1).
  apply Z.compare_antisym.
Qed.

(** A float that is neither a women's nor a men's size is NaN or lies
    strictly between the thresholds. *)
Lemma neither_is_between (f : Float.float) :
  is_women_size f = false -> is_men_size f = false ->
  Float.is_nan f = true
  \/ (Float.ltb WOMEN_MAX_SIZE f = true /\ Float.ltb f MEN_MIN_SIZE = true).
Proof.
  unfold is_women_size, is_men_size, Float.geb, Float.leb, Float.ltb.
  rewrite WOMEN_MAX_SIZE_eq, MEN_MIN_SIZE_eq.
  destruct f as [s|s| |s m e]; try (destruct s; simpl; discriminate);
    [simpl; auto|].
  destruct s; [simpl; discriminate|]. simpl.
  rewrite (mag_compare_antisym m e 5488762045857792 (-47)).
  rewrite (mag_compare_antisym m e 5559130790035456 (-47)).
  destruct (Float.mag_compare m e 5488762045857792 (-47));
    destruct (Float.mag_compare m e 5559130790035456 (-47));
    simpl; try discriminate; auto.
Qed.

(** C4 (amended).  No size satisfies both predicates, but the thresholds
    leave a gap: a size parsed from a label satisfies exactly one of them
    unless it is NaN or lies strictly between 39.0 and 39.5, and then it
    satisfies neither. *)
Theorem size_predicates :
  forall f : Float.float,
    is_women_size f && is_men_size f = false
    /\ (is_women_size f || is_men_size f = false <->
        Float.is_nan f = true
        \/ (Float.ltb WOMEN_MAX_SIZE f = true
            /\ Float.ltb f MEN_MIN_SIZE = true)).
Proof.
  intros f. split; [apply not_both|]. split.
  - intros H. apply orb_false_elim in H as [H1 H2].
    by apply neither_is_between.
  - unfold is_women_size, is_men_size, Float.geb, Float.leb, Float.ltb.
    rewrite WOMEN_MAX_SIZE_eq, MEN_MIN_SIZE_eq.
    intros [Hnan|[H1 H2]].
    + destruct f; try discriminate. reflexivity.
    + destruct f as [s|s| |s m e]; try (destruct s; simpl in *; discriminate);
        try discriminate.
      destruct s; [simpl in *; discriminate|]. simpl in *.
      rewrite (mag_compare_antisym m e 5488762045857792 (-47)) in H1.
      rewrite (mag_compare_antisym m e 5559130790035456 (-47)).
      destruct (Float.mag_compare m e 5488762045857792 (-47));
        destruct (Float.mag_compare m e 5559130790035456 (-47));
        simpl in *; try discriminate; reflexivity.
Qed.

(** C4 (as stated) fails: the label 39.2 parses as a float and satisfies
    neither predicate, so a product with that one size shows no signal. *)
Lemma size_between_thresholds :
  (exists f, float_of_str ascii_runtime "39.2" = Some f
             /\ is_women_size f = false /\ is_men_size f = false)
  /\ analyze_sizes ascii_runtime ["39.2"] = (false, false).
Proof.
  split; [eexists; split; [reflexivity|]|]; vm_compute; auto.
Qed.

(** The label is parsed without the runtime's help. *)
Lemma size_between_thresholds_any_runtime (rt : PyRuntime) :
  analyze_sizes rt ["39.2"] = (false, false).
Proof. vm_compute. reflexivity. Qed.

End SizeProofs.

(** ** The price calculator *)

Module PriceProofs.

Import PriceCalculator.

Definition f100 : Float.float := Float.of_Z 100.
Definition f1920 : Float.float := Float.of_Z 1920.

(** C9.  With the parameters a = 12 and b = 1.2 and the default formula
    [(x * a + 400) * b] for the tier of 21 to 26 days,
    [calculate_price(100, c, tier)] is exactly 1920.0 for every category
    that has no formula of its own for that tier. *)
Theorem default_price_of_100 :
  forall (cfg : config) (c : Z),
    parameters cfg !! "a" = Some (VInt 12) ->
    parameters cfg !! "b" = Some (VFloat (Float.of_decimal false 12 1)) ->
    default_formula cfg !! "21-26 дней" = Some "(x * a + 400) * b" ->
    (forall fs, formulas cfg !! str_of_int c = Some fs ->
                fs !! "21-26 дней" = None) ->
    calculate_price cfg f100 c "21-26 дней" = Returns (VFloat f1920).
Proof.
  intros cfg c Ha Hb Hd Hno.
  unfold calculate_price, get_formula. rewrite Hd. simpl.
  assert (Hf : match formulas cfg !! str_of_int c with
               | Some category_formulas =>
                   match category_formulas !! "21-26 дней" with
                   | Some f => f
                   | None => "(x * a + 400) * b"
                   end
               | None => "(x * a + 400) * b"
               end = "(x * a + 400) * b").
  { destruct (formulas cfg !! str_of_int c) as [fs|] eqn:Hfs; [|done].
    by rewrite (Hno fs eq_refl). }
  rewrite Hf. unfold evaluate_formula, scope_of. rewrite Ha, Hb.
  vm_compute. reflexivity.
Qed.

Lemma default_price_of_100_witness :
  calculate_price defaults f100 103 "21-26 дней" = Returns (VFloat f1920).
Proof.
  apply (default_price_of_100 defaults 103).
  - vm_compute. reflexivity.
  - vm_compute. reflexivity.
  - vm_compute. reflexivity.
  - intros fs H. vm_compute in H. discriminate.
Defined.

(** 2.5 as a float. *)
Definition f2_5 : Float.float := Float.of_decimal false 25 1.

(** *** The formula language *)

(** The names the formula language binds: the base price and the three
    parameters. *)
Definition bound_names : list string := ["x"; "a"; "b"; "c"].

Definition arithmetic_token (t : token) : bool :=
  match t with
  | TName n => Str.mem n bound_names
  | TExit | TBad => false
  | _ => true
  end.

(** A formula written in the language: decimal literals, the bound names,
    [+ - * /] and parentheses, read as an expression or found malformed. *)
Definition arithmetic (formula_str : string) : bool :=
  match tokens_of formula_str with
  | Some ts =>
      forallb arithmetic_token ts
      && match parse ts with
         | PUnmodelled => false
         | _ => true
         end
  | None => false
  end.

Fixpoint expr_arithmetic (e : expr) : bool :=
  match e with
  | ENum _ => true
  | EName n => Str.mem n bound_names
  | EPos e1 | ENeg e1 => expr_arithmetic e1
  | EAdd l r | ESub l r | EMul l r | EDiv l r =>
      expr_arithmetic l && expr_arithmetic r
  | EExit => false
  end.

(** A parse result built from tokens of the language. *)
Definition arithmetic_parsed (r : parsed) : Prop :=
  match r with
  | POk e rest =>
      expr_arithmetic e = true /\ forallb arithmetic_token rest = true
  | _ => True
  end.

Lemma arithmetic_after_atom e rest :
  expr_arithmetic e = true -> forallb arithmetic_token rest = true ->
  arithmetic_parsed (after_atom e rest).
Proof.
  intros He Hr. unfold after_atom.
  destruct rest as [|[] rest]; simpl; auto.
Qed.

Ltac split_tokens :=
  repeat match goal with
         | H : forallb arithmetic_token (_ :: _) = true |- _ =>
             apply andb_true_iff in H as [? ?]
         end.

Lemma parse_arithmetic fuel :
  (forall ts, forallb arithmetic_token ts = true ->
              arithmetic_parsed (parse_sum fuel ts))
  /\ (forall l ts, expr_arithmetic l = true ->
                   forallb arithmetic_token ts = true ->
                   arithmetic_parsed (sum_rest fuel l ts))
  /\ (forall ts, forallb arithmetic_token ts = true ->
                 arithmetic_parsed (parse_term fuel ts))
  /\ (forall l ts, expr_arithmetic l = true ->
                   forallb arithmetic_token ts = true ->
                   arithmetic_parsed (term_rest fuel l ts))
  /\ (forall ts, forallb arithmetic_token ts = true ->
                 arithmetic_parsed (parse_factor fuel ts)).
Proof.
  induction fuel as [|fuel (IHsum & IHsumr & IHterm & IHtermr & IHfactor)];
    [repeat split; intros; exact I|].
  assert (forall (next : list token -> parsed)
                 (rest : expr -> list token -> parsed)
                 (op : expr -> expr -> expr) l ts,
             (forall ts, forallb arithmetic_token ts = true ->
                         arithmetic_parsed (next ts)) ->
             (forall l ts, expr_arithmetic l = true ->
                           forallb arithmetic_token ts = true ->
                           arithmetic_parsed (rest l ts)) ->
             (forall l r, expr_arithmetic (op l r)
                          = expr_arithmetic l && expr_arithmetic r) ->
             expr_arithmetic l = true ->
             forallb arithmetic_token ts = true ->
             arithmetic_parsed match next ts with
                               | POk r rest' => rest (op l r) rest'
                               | r => r
                               end) as Hop.
  { intros next rest op l ts Hnext Hrest Hopl Hl Hts.
    specialize (Hnext ts Hts).
    destruct (next ts) as [r rest'| |]; try exact I.
    destruct Hnext as [Hr Hrest']. apply Hrest; [|done].
    by rewrite Hopl, Hl, Hr. }
  repeat split.
  - intros ts Hts. simpl. specialize (IHterm ts Hts).
    destruct (parse_term fuel ts) as [l rest| |]; try exact I.
    destruct IHterm. by apply IHsumr.
  - intros l ts Hl Hts. simpl.
    destruct ts as [|t ts']; [done|]. split_tokens.
    destruct t;
      try (split; [exact Hl|];
           apply andb_true_iff; split; assumption).
    + by apply (Hop (parse_term fuel) (sum_rest fuel) EAdd).
    + by apply (Hop (parse_term fuel) (sum_rest fuel) ESub).
  - intros ts Hts. simpl. specialize (IHfactor ts Hts).
    destruct (parse_factor fuel ts) as [l rest| |]; try exact I.
    destruct IHfactor. by apply IHtermr.
  - intros l ts Hl Hts. simpl.
    destruct ts as [|t ts']; [done|]. split_tokens.
    destruct t;
      try (split; [exact Hl|];
           apply andb_true_iff; split; assumption).
    + by apply (Hop (parse_factor fuel) (term_rest fuel) EMul).
    + by apply (Hop (parse_factor fuel) (term_rest fuel) EDiv).
  - intros ts Hts. simpl.
    destruct ts as [|t ts']; [exact I|]. split_tokens.
    destruct t; try exact I; try discriminate.
    + by apply arithmetic_after_atom.
    + by apply arithmetic_after_atom.
    + specialize (IHfactor ts' ltac:(assumption)).
      destruct (parse_factor fuel ts') as [r rest| |]; try exact I.
      exact IHfactor.
    + specialize (IHfactor ts' ltac:(assumption)).
      destruct (parse_factor fuel ts') as [r rest| |]; try exact I.
      exact IHfactor.
    + destruct ts' as [|t ts'']; [|destruct t]; simpl; try exact I;
        match goal with
        | |- context [parse_sum fuel ?l] =>
            specialize (IHsum l ltac:(assumption));
            destruct (parse_sum fuel l) as [e [|[] rest]| |];
            simpl; try exact I;
            destruct IHsum; split_tokens; by apply arithmetic_after_atom
        | |- _ => idtac
        end.
Qed.

(** The expression of a formula of the language names bound names only and
    calls nothing. *)
Lemma arithmetic_expr formula_str :
  arithmetic formula_str = true ->
  exists ts,
    tokens_of formula_str = Some ts
    /\ (parse ts = PSyntaxError
        \/ exists e, parse ts = POk e [] /\ expr_arithmetic e = true).
Proof.
  unfold arithmetic.
  destruct (tokens_of formula_str) as [ts|]; [|discriminate].
  intros [Hts Hp]%andb_true_iff. exists ts. split; [done|].
  unfold parse in *.
  pose proof (proj1 (parse_arithmetic (4 * S (length ts))) ts Hts) as Ha.
  destruct (parse_sum _ ts) as [e [|t rest]| |]; try discriminate; auto.
  right. exists e. by destruct Ha.
Qed.

(** *** What the operators raise *)

Lemma float_of_int_caught z e : float_of_int z = Raise e -> caught e = true.
Proof. unfold float_of_int. case_match; [discriminate|]. by intros [= <-]. Qed.

Lemma to_float_caught v e : to_float v = Raise e -> caught e = true.
Proof. destruct v; simpl; [apply float_of_int_caught|discriminate]. Qed.

Lemma float_op_caught op l r e :
  float_op op l r = Raise e -> caught e = true.
Proof.
  unfold float_op, mbind, res_bind.
  destruct (to_float l) eqn:Hl; [|intros [= <-]; by eapply to_float_caught].
  destruct (to_float r) eqn:Hr; [discriminate|].
  intros [= <-]. by eapply to_float_caught.
Qed.

Lemma py_add_caught l r e : py_add l r = Raise e -> caught e = true.
Proof. destruct l, r; simpl; try discriminate; apply float_op_caught. Qed.

Lemma py_sub_caught l r e : py_sub l r = Raise e -> caught e = true.
Proof. destruct l, r; simpl; try discriminate; apply float_op_caught. Qed.

Lemma py_mul_caught l r e : py_mul l r = Raise e -> caught e = true.
Proof. destruct l, r; simpl; try discriminate; apply float_op_caught. Qed.

Lemma py_div_caught l r e : py_div l r = Raise e -> caught e = true.
Proof.
  assert (forall lf rf, float_divide lf rf = Raise e -> caught e = true)
    as Hfloat.
  { intros lf rf. unfold float_divide. case_match; [|discriminate].
    by intros [= <-]. }
  assert (forall l' r',
             (lf ← to_float l'; rf ← to_float r'; float_divide lf rf)
             = Raise e -> caught e = true) as Hmixed.
  { intros l' r'. unfold mbind, res_bind.
    destruct (to_float l') eqn:Hl; [|intros [= <-]; by eapply to_float_caught].
    destruct (to_float r') eqn:Hr; [apply Hfloat|].
    intros [= <-]. by eapply to_float_caught. }
  destruct l as [m|lf], r as [n|rf];
    [|apply (Hmixed (VInt m) (VFloat rf))|apply (Hmixed (VFloat lf) (VInt n))
     |apply (Hmixed (VFloat lf) (VFloat rf))].
  simpl. unfold int_true_divide. case_match; [by intros [= <-]|].
  case_match; [discriminate|]. by intros [= <-].
Qed.

Lemma lookup_caught sc n e : lookup sc n = Raise e -> caught e = true.
Proof.
  unfold lookup. repeat case_match; try discriminate. by intros [= <-].
Qed.

(** An expression of the language raises nothing but what [except Exception]
    catches. *)
Lemma eval_expr_caught sc e ex :
  expr_arithmetic e = true -> eval_expr sc e = Raise ex -> caught ex = true.
Proof.
  revert ex.
  assert (forall (op : number -> number -> res number) l r ex,
             (forall l' r' ex', op l' r' = Raise ex' -> caught ex' = true) ->
             (forall ex', eval_expr sc l = Raise ex' -> caught ex' = true) ->
             (forall ex', eval_expr sc r = Raise ex' -> caught ex' = true) ->
             (lv ← eval_expr sc l; rv ← eval_expr sc r; op lv rv) = Raise ex ->
             caught ex = true) as Hbin.
  { intros op l r ex Hop Hl Hr. unfold mbind, res_bind.
    destruct (eval_expr sc l) as [lv|el]; [|intros [= <-]; by apply Hl].
    destruct (eval_expr sc r) as [rv|er]; [apply Hop|].
    intros [= <-]. by apply Hr. }
  induction e as [v|n|e IH|e IH|l IHl r IHr|l IHl r IHr|l IHl r IHr
                  |l IHl r IHr|]; simpl; intros ex He;
    try (apply andb_true_iff in He as [Hl Hr]).
  - discriminate.
  - apply lookup_caught.
  - by apply IH.
  - unfold mbind, res_bind.
    destruct (eval_expr sc e) as [v|e'] eqn:Hv; [discriminate|].
    intros [= <-]. by apply IH.
  - apply Hbin; [apply py_add_caught|intros ex'; by apply IHl
                |intros ex'; by apply IHr].
  - apply Hbin; [apply py_sub_caught|intros ex'; by apply IHl
                |intros ex'; by apply IHr].
  - apply Hbin; [apply py_mul_caught|intros ex'; by apply IHl
                |intros ex'; by apply IHr].
  - apply Hbin; [apply py_div_caught|intros ex'; by apply IHl
                |intros ex'; by apply IHr].
  - discriminate.
Qed.

Lemma format_0f_caught v e : format_0f v = Raise e -> caught e = true.
Proof.
  unfold format_0f, mbind, res_bind.
  destruct (to_float v) eqn:Hv; [discriminate|].
  intros [= <-]. by eapply to_float_caught.
Qed.

(** A formula of the language is priced: by its value or by the fallback. *)
Lemma arithmetic_returns cfg formula_str price_cny category_id :
  arithmetic formula_str = true ->
  exists v, evaluate_formula cfg formula_str price_cny category_id = Returns v.
Proof.
  intros Ha. apply arithmetic_expr in Ha as (ts & Hts & Hp).
  unfold evaluate_formula, py_eval, handle. rewrite Hts.
  destruct Hp as [->|(e & -> & He)]; [by eexists|].
  destruct (eval_expr _ e) as [v|ex] eqn:Hv.
  - destruct (format_0f v) as [u|ex] eqn:Hf; [by eexists|].
    rewrite (format_0f_caught _ _ Hf). by eexists.
  - rewrite (eval_expr_caught _ _ _ He Hv). by eexists.
Qed.

(** *** What a formula can read *)

(** Two scopes with the same base price and parameters. *)
Definition same_bound (sc1 sc2 : scope) : Prop :=
  sc_x sc1 = sc_x sc2 /\ sc_a sc1 = sc_a sc2 /\ sc_b sc1 = sc_b sc2
  /\ sc_c sc1 = sc_c sc2.

Lemma lookup_same_bound sc1 sc2 n :
  same_bound sc1 sc2 -> Str.mem n bound_names = true ->
  lookup sc1 n = lookup sc2 n.
Proof.
  intros (Hx & Ha & Hb & Hc) Hn. unfold lookup.
  rewrite Hx, Ha, Hb, Hc.
  unfold Str.mem, bound_names in Hn. simpl in Hn.
  repeat (case_match; [reflexivity|]).
  repeat match goal with
         | H : Str.eqb n _ = false |- _ => rewrite H in Hn
         end.
  discriminate Hn.
Qed.

Lemma eval_expr_same_bound sc1 sc2 e :
  same_bound sc1 sc2 -> expr_arithmetic e = true ->
  eval_expr sc1 e = eval_expr sc2 e.
Proof.
  intros Hsc.
  induction e as [v|n|e IH|e IH|l IHl r IHr|l IHl r IHr|l IHl r IHr
                  |l IHl r IHr|]; simpl; intros He;
    try (apply andb_true_iff in He as [Hl Hr];
         rewrite (IHl Hl), (IHr Hr); reflexivity).
  - reflexivity.
  - by apply lookup_same_bound.
  - auto.
  - by rewrite (IH He).
  - discriminate.
Qed.

Lemma py_eval_same_bound formula_str sc1 sc2 :
  same_bound sc1 sc2 -> arithmetic formula_str = true ->
  py_eval formula_str sc1 = py_eval formula_str sc2.
Proof.
  intros Hsc Ha. apply arithmetic_expr in Ha as (ts & Hts & Hp).
  unfold py_eval. rewrite Hts.
  destruct Hp as [->|(e & -> & He)]; [reflexivity|].
  by rewrite (eval_expr_same_bound sc1 sc2 e Hsc He).
Qed.

(** C7 (amended).  The formula string is handed to Python's [eval] in the
    scope of [calculate_price], which restricts neither the syntax nor the
    names: a formula can read the other locals of the call, the module's
    globals and the builtins, and it can call what it reads.  Only for a
    formula written in the language itself (decimal literals, [x], [a], [b],
    [c], [+ - * /], parentheses) is the result fixed by the base price and
    the parameters: two runs with equal [x] and equal parameters give equal
    results, whatever the categories and the other settings of the two runs
    are, and the formula is priced by its value or by the fallback. *)
Theorem formula_result_depends_on_bound_names :
  forall (cfg1 cfg2 : config) (formula_str : string) (price_cny : Float.float)
         (c1 c2 : Z),
    arithmetic formula_str = true ->
    (forall n, n ∈ ["a"; "b"; "c"] ->
               parameters cfg1 !! n = parameters cfg2 !! n) ->
    evaluate_formula cfg1 formula_str price_cny c1
    = evaluate_formula cfg2 formula_str price_cny c2
    /\ evaluate_formula cfg1 formula_str price_cny c1 <> Unmodelled.
Proof.
  intros cfg1 cfg2 formula_str price_cny c1 c2 Ha Hp. split.
  - unfold evaluate_formula.
    rewrite (py_eval_same_bound formula_str (scope_of cfg1 price_cny c1)
               (scope_of cfg2 price_cny c2)); [reflexivity| |exact Ha].
    unfold same_bound, scope_of. simpl.
    rewrite (Hp "a"), (Hp "b"), (Hp "c") by (repeat constructor).
    repeat split.
  - destruct (arithmetic_returns cfg1 formula_str price_cny c1 Ha) as [v ->].
    discriminate.
Qed.

(** A configuration with the parameters of the defaults, another default
    formula, and a formula of its own for category 103 that calls
    [exit()]. *)
Definition exit_config : config := {|
  parameters := parameters defaults;
  default_formula := {[ "21-26 дней" := "x * a" ]};
  formulas := {[ "103" := {[ "21-26 дней" := "exit()" ]} ]} |}.

Lemma formula_result_depends_on_bound_names_witness :
  evaluate_formula defaults "(x * a + 400) * b" f100 103
  = evaluate_formula exit_config "(x * a + 400) * b" f100 154
  /\ evaluate_formula defaults "(x * a + 400) * b" f100 103 <> Unmodelled.
Proof.
  apply (formula_result_depends_on_bound_names defaults exit_config
           "(x * a + 400) * b" f100 103 154).
  - vm_compute. reflexivity.
  - intros n Hn. reflexivity.
Defined.

(** C7 (as stated) fails: the formula [x * category_id] is evaluated, and
    with the same [x] and the same parameters it gives 100.0 for category 1
    and 200.0 for category 2. *)
Lemma formula_reads_category_id :
  evaluate_formula defaults "x * category_id" f100 1
  = Returns (VFloat (Float.of_Z 100))
  /\ evaluate_formula defaults "x * category_id" f100 2
     = Returns (VFloat (Float.of_Z 200)).
Proof. split; vm_compute; reflexivity. Qed.

(** *** What reaches the caller *)

(** C8 (amended).  [calculate_price] catches [Exception] and nothing more.
    When the evaluation of the formula raises an exception of that class
    (a malformed formula, a division by zero, an unknown name, an overflow),
    the result is [round(base_price * 2.5, 2)]; a call raises exactly when
    the formula raised an exception outside that class, [SystemExit], which
    then reaches the caller.  A formula written in the formula language
    never does: it is priced by its value or by the fallback. *)
Theorem calculate_price_catches_exception :
  forall (cfg : config) (price_cny : Float.float) (category_id : Z)
         (delivery_days : string),
    (arithmetic (get_formula cfg category_id delivery_days) = true ->
     exists v,
       calculate_price cfg price_cny category_id delivery_days = Returns v)
    /\ (forall e,
          py_eval (get_formula cfg category_id delivery_days)
            (scope_of cfg price_cny category_id) = ERaise e ->
          caught e = true ->
          calculate_price cfg price_cny category_id delivery_days
          = Returns (VFloat (Float.round2 (Float.mul price_cny f2_5))))
    /\ (forall e,
          calculate_price cfg price_cny category_id delivery_days = Raises e
          <-> py_eval (get_formula cfg category_id delivery_days)
                (scope_of cfg price_cny category_id) = ERaise e
              /\ caught e = false)
    /\ Forall (fun formula_str =>
                 evaluate_formula cfg formula_str price_cny category_id
                 = Returns (VFloat (Float.round2 (Float.mul price_cny f2_5))))
         ["x / 0"; "(x * a + 400"; "y + 1"; "x $ 2"].
Proof.
  intros cfg price_cny category_id delivery_days.
  unfold calculate_price.
  split; [apply arithmetic_returns|]. unfold evaluate_formula, handle.
  split; [|split].
  - intros e -> ->. reflexivity.
  - intros e. split.
    + destruct (py_eval _ _) as [v|e'|]; [| |discriminate].
      * destruct (format_0f v) as [u|e'] eqn:Hf; [discriminate|].
        by rewrite (format_0f_caught _ _ Hf).
      * destruct (caught e') eqn:Hc; [discriminate|].
        by intros [= <-].
    + intros [-> ->]. reflexivity.
  - repeat constructor.
Qed.

Lemma calculate_price_catches_exception_witness :
  exists v, calculate_price defaults f100 103 "21-26 дней" = Returns v.
Proof.
  apply (proj1 (calculate_price_catches_exception defaults f100 103
                  "21-26 дней")).
  vm_compute. reflexivity.
Defined.

(** C8 (as stated) fails: the formula [exit()] raises [SystemExit], which
    [except Exception] does not catch, and the call raises it to its
    caller. *)
Lemma formula_exit_reaches_caller :
  get_formula exit_config 103 "21-26 дней" = "exit()"
  /\ calculate_price exit_config f100 103 "21-26 дней" = Raises SystemExit.
Proof. split; vm_compute; reflexivity. Qed.

End PriceProofs.

(** ** The product processor *)

Module ProductProofs.

Import Py ProductProcessor.

(** The id of a SKU as the loop reads it: [sku.get('skuId', 0)]. *)
Definition sku_id_of (sku : json) : json :=
  match sku with
  | JDict d => default (JInt 0) (lookup "skuId" d)
  | _ => JInt 0
  end.

Ltac unfold_bind := unfold mbind, res_bind in *.

(** Case analysis on the outermost test of a computation that ended in
    [Ok]; the branches that raise or return something else are closed. *)
Ltac head_case H :=
  cbv beta zeta in H;
  match type of H with
  | match ?x with _ => _ end = _ =>
      let E := fresh "E" in destruct x eqn:E; try discriminate H
  end.

Ltac walk H := repeat head_case H.

Section Loop.

Variable rt : PyRuntime.
Variable price_formula : option (Float.float -> res Float.float).

(** A variant comes from the SKU of the same turn, carries the size type of
    the product, and under the accessory filter its id is the reference. *)
Lemma process_sku_emitted st reference_sku_id primary_color_id
    property_to_size price_info_skus found sku v :
  process_sku rt price_formula st reference_sku_id primary_color_id
    property_to_size price_info_skus found sku = Ok (Emitted v) ->
  sku_id v = sku_id_of sku
  /\ v_size_type v = st
  /\ (size_type_eqb st Accessories && supplied reference_sku_id = true ->
      is_reference rt reference_sku_id (sku_id v) = true).
Proof.
  unfold process_sku. intros H. unfold_bind.
  destruct sku as [| | | | | |d]; try discriminate H.
  set (by_ref := size_type_eqb st Accessories && supplied reference_sku_id)
    in *.
  destruct (by_ref && negb (is_reference rt reference_sku_id
                              (default (JInt 0) (lookup "skuId" d))))
    eqn:Hfilter; [discriminate H|].
  walk H; injection H as <-; simpl; (split; [reflexivity|]);
    (split; [reflexivity|]); intros Hby; rewrite Hby in Hfilter;
    simpl in Hfilter; by apply negb_false_iff in Hfilter.
Qed.

(** The SKUs a turn of the loop can take: under the accessory filter the
    ones whose id prints as the reference, otherwise all. *)
Definition considered (st : size_type) (reference_sku_id : option string)
    (sku : json) : Prop :=
  size_type_eqb st Accessories && supplied reference_sku_id = true ->
  is_reference rt reference_sku_id (sku_id_of sku) = true.

#[global] Instance considered_dec st reference_sku_id sku :
  Decision (considered st reference_sku_id sku).
Proof. unfold considered. apply _. Defined.

(** The variants are emitted in the order of the SKUs, one at most for each
    SKU considered, and all carry the size type of the product. *)
Lemma process_skus_variants st reference_sku_id primary_color_id
    property_to_size price_info_skus skus :
  forall found vs,
    process_skus rt price_formula st reference_sku_id primary_color_id
      property_to_size price_info_skus found skus = Ok vs ->
    sku_id <$> vs
      `sublist_of` sku_id_of <$> filter (considered st reference_sku_id) skus
    /\ Forall (fun v => v_size_type v = st) vs
    /\ Forall (fun v =>
                 size_type_eqb st Accessories && supplied reference_sku_id
                 = true ->
                 is_reference rt reference_sku_id (sku_id v) = true) vs.
Proof.
  induction skus as [|sku rest IH]; intros found vs H; simpl in H.
  - injection H as <-. repeat split; constructor.
  - unfold_bind.
    destruct (process_sku _ _ _ _ _ _ _ _ sku) as [[|v]|] eqn:Hsku;
      [| |discriminate H].
    + apply IH in H as (Hsub & Hty & Href). split; [|by split].
      rewrite filter_cons. case_decide; [|exact Hsub].
      rewrite fmap_cons. by apply sublist_cons.
    + destruct (process_skus _ _ _ _ _ _ _ _ rest) as [vs'|] eqn:Hrest;
        [|discriminate H].
      injection H as <-.
      apply process_sku_emitted in Hsku as (Hid & Hty & Href).
      apply IH in Hrest as (Hsub & Htys & Hrefs).
      split; [|split; by constructor].
      rewrite filter_cons. rewrite decide_True.
      * rewrite !fmap_cons, Hid. by apply sublist_skip.
      * unfold considered. rewrite <- Hid. exact Href.
Qed.

(** What a parsed product says of the run that produced it. *)
Lemma parsed_variants product_data reference_sku_id category_ids p :
  parse_product_detail rt price_formula product_data reference_sku_id
    category_ids = Parsed p ->
  exists pd skus st primary_color_id property_to_size price_info_skus,
    product_data = JDict pd
    /\ iter (default (JList []) (lookup "skus" pd)) = Ok skus
    /\ process_skus rt price_formula st reference_sku_id primary_color_id
         property_to_size price_info_skus false skus = Ok (variants p)
    /\ variants p <> []
    /\ log_sizes rt st (variants p) = Ok tt.
Proof.
  unfold parse_product_detail.
  destruct (parse_body _ _ _ _ _) as [r|] eqn:Hb; [|discriminate].
  intros ->. unfold parse_body in Hb. unfold_bind. walk Hb.
  injection Hb as <-. simpl.
  repeat eexists; eauto.
  match goal with u : unit |- _ => by destruct u end.
Qed.

End Loop.

(** The SKUs of a document as the loops see them. *)
Definition skus_of (product_data : json) : res (list json) :=
  match product_data with
  | JDict pd => iter (default (JList []) (lookup "skus" pd))
  | _ => Raise AttributeError
  end.

(** C1 (amended).  For every raw document that normalises successfully, and
    for shoes, clothing and accessories alike, the variants of the returned
    record stand in the order of the SKUs of the document that gave them.
    The sorted list of sizes is built for the log line only. *)
Theorem variants_in_sku_order :
  forall (rt : PyRuntime)
         (price_formula : option (Float.float -> res Float.float))
         (product_data : json) (reference_sku_id : option string)
         (category_ids : option (list Z)) (p : product),
    parse_product_detail rt price_formula product_data reference_sku_id
      category_ids = Parsed p ->
    exists skus st,
      skus_of product_data = Ok skus
      /\ sku_id <$> variants p `sublist_of` sku_id_of <$> skus
      /\ Forall (fun v => v_size_type v = st) (variants p).
Proof.
  intros rt price_formula product_data reference_sku_id category_ids p H.
  apply parsed_variants in H
    as (pd & skus & st & primary & t & pis & -> & Hskus & Hloop & _ & _).
  exists skus, st. split; [exact Hskus|].
  apply process_skus_variants in Hloop as (Hsub & Hty & _).
  split; [|exact Hty].
  etrans; [exact Hsub|]. apply fmap_sublist, sublist_filter.
Qed.

(** *** Example documents *)

(** A price tier. *)
Definition tier (trade_type max_delivery price : Z) : json :=
  JDict [("tradeType", JInt trade_type);
         ("timeDelivery", JDict [("max", JInt max_delivery)]);
         ("price", JInt price)].

(** A SKU in stock with one size property and one standard price. *)
Definition sku (id property_value_id price : Z) : json :=
  JDict [("skuId", JInt id); ("status", JInt 1);
         ("properties",
          JList [JDict [("level", JInt 2);
                        ("propertyValueId", JInt property_value_id)]]);
         ("price", JDict [("prices", JList [tier 2 3 price])])].

Definition size_property (property_value_id : Z) (value : string) : json :=
  JDict [("propertyValueId", JInt property_value_id); ("value", JStr value);
         ("level", JInt 2)].

(** A product with the given SKUs and the sizes 42 and 40, in this order. *)
Definition document (skus : list json) : json :=
  JDict [("spuId", JInt 1001); ("title", JStr "Nike Air Jordan 1");
         ("detail", JDict [("logoUrl", JStr "http://img/1.jpg")]);
         ("saleProperties",
          JDict [("list", JList [size_property 11 "42";
                                 size_property 12 "40"])]);
         ("skus", JList skus)].

Definition shoe_document : json :=
  document [sku 501 11 50000; sku 502 12 45000].

Lemma variants_in_sku_order_witness :
  exists p,
    parse_product_detail ascii_runtime None shoe_document None None = Parsed p
    /\ exists skus st,
         skus_of shoe_document = Ok skus
         /\ sku_id <$> variants p `sublist_of` sku_id_of <$> skus
         /\ Forall (fun v => v_size_type v = st) (variants p).
Proof.
  eexists. split; [vm_compute; reflexivity|].
  apply (variants_in_sku_order ascii_runtime None shoe_document None None).
  vm_compute. reflexivity.
Defined.

(** C1 (as stated) fails: a shoe product whose SKUs come as 42 then 40 is
    returned with the variants 42 then 40; only the list for the log is
    sorted. *)
Lemma shoe_variants_not_sorted :
  exists p,
    parse_product_detail ascii_runtime None shoe_document None None = Parsed p
    /\ v_size_type <$> variants p = [Shoes; Shoes]
    /\ size_eu <$> variants p = [JStr "42"; JStr "40"]
    /\ sizes_list ascii_runtime Shoes (variants p)
       = Ok [JStr "40"; JStr "42"].
Proof. eexists. split; [vm_compute; reflexivity|]. by vm_compute. Qed.

(** The run on this document consults the runtime nowhere. *)
Lemma shoe_document_any_runtime (rt : PyRuntime) :
  parse_product_detail rt None shoe_document None None
  = parse_product_detail ascii_runtime None shoe_document None None.
Proof. vm_compute. reflexivity. Qed.

(** *** The accessory filter *)

Lemma filter_none {A : Type} (f : A -> string) (r : string) (l : list A) :
  r ∉ f <$> l -> filter (fun x => f x = r) l = [].
Proof.
  induction l as [|x l IH]; [done|].
  rewrite fmap_cons, not_elem_of_cons. intros [Hx Hl].
  rewrite filter_cons. case_decide; [congruence|by apply IH].
Qed.

Lemma filter_one {A : Type} (f : A -> string) (r : string) (l : list A) :
  NoDup (f <$> l) -> (length (filter (fun x => f x = r) l) <= 1)%nat.
Proof.
  induction l as [|x l IH]; [simpl; lia|].
  rewrite fmap_cons, NoDup_cons. intros [Hx Hl].
  rewrite filter_cons. case_decide as Hr; [|by apply IH].
  simpl. rewrite filter_none; [simpl; lia|congruence].
Qed.

(** C10 (amended).  For a product classified as accessories for which a
    reference SKU id is supplied, only the SKUs whose id prints as the
    reference are considered: every variant of the returned record has that
    id, and the variants stand in the order of these SKUs.  The record holds
    at most one variant when no two SKUs of the document have ids that print
    alike. *)
Theorem accessory_reference_only :
  forall (rt : PyRuntime)
         (price_formula : option (Float.float -> res Float.float))
         (product_data : json) (r : string) (category_ids : option (list Z))
         (p : product),
    r <> "" ->
    parse_product_detail rt price_formula product_data (Some r) category_ids
    = Parsed p ->
    Forall (fun v => v_size_type v = Accessories) (variants p) ->
    exists skus,
      skus_of product_data = Ok skus
      /\ Forall (fun v => str rt (sku_id v) = r) (variants p)
      /\ sku_id <$> variants p
         `sublist_of`
         sku_id_of <$> filter (fun s => str rt (sku_id_of s) = r) skus
      /\ (NoDup ((fun s => str rt (sku_id_of s)) <$> skus) ->
          (length (variants p) <= 1)%nat).
Proof.
  intros rt price_formula product_data r category_ids p Hr H Hacc.
  apply parsed_variants in H
    as (pd & skus & st & primary & t & pis & -> & Hskus & Hloop & Hne & _).
  apply process_skus_variants in Hloop as (Hsub & Hty & Href).
  assert (st = Accessories) as ->.
  { destruct (variants p) as [|v vs]; [done|].
    apply Forall_cons in Hty as [<- _]. by apply Forall_cons in Hacc as [? _]. }
  assert (Hsup : size_type_eqb Accessories Accessories && supplied (Some r)
                 = true).
  { simpl. unfold Str.eqb. by rewrite bool_decide_eq_false_2. }
  assert (Hfilter : filter (considered rt Accessories (Some r)) skus
                    = filter (fun s => str rt (sku_id_of s) = r) skus).
  { apply list_filter_iff. intros s. unfold considered, is_reference, Str.eqb.
    rewrite bool_decide_eq_true. naive_solver. }
  rewrite Hfilter in Hsub.
  exists skus. split; [exact Hskus|]. split; [|split; [exact Hsub|]].
  - eapply Forall_impl; [exact Href|]. intros v Hv. simpl in Hv.
    specialize (Hv Hsup). unfold is_reference, Str.eqb in Hv.
    by apply bool_decide_eq_true in Hv.
  - intros Hdup. apply sublist_length in Hsub.
    rewrite !length_fmap in Hsub.
    pose proof (filter_one (fun s => str rt (sku_id_of s)) r skus Hdup). lia.
Qed.

Definition accessory_document : json :=
  document [sku 501 11 50000; sku 502 12 45000].

Lemma accessory_reference_only_witness :
  exists p,
    parse_product_detail ascii_runtime None accessory_document (Some "502")
      (Some [123]) = Parsed p
    /\ exists skus,
         skus_of accessory_document = Ok skus
         /\ Forall (fun v => str ascii_runtime (sku_id v) = "502")
              (variants p)
         /\ sku_id <$> variants p
            `sublist_of`
            sku_id_of
              <$> filter (fun s => str ascii_runtime (sku_id_of s) = "502")
                    skus
         /\ (NoDup ((fun s => str ascii_runtime (sku_id_of s)) <$> skus) ->
             (length (variants p) <= 1)%nat).
Proof.
  eexists. split; [vm_compute; reflexivity|].
  apply (accessory_reference_only ascii_runtime None accessory_document
           "502" (Some [123])).
  - discriminate.
  - vm_compute. reflexivity.
  - repeat constructor.
Defined.

(** C10 (as stated) fails: when the document lists the reference SKU twice,
    both entries pass the filter and the record holds two variants. *)
Lemma accessory_reference_listed_twice :
  exists p,
    parse_product_detail ascii_runtime None
      (document [sku 502 11 50000; sku 502 12 45000]) (Some "502")
      (Some [123]) = Parsed p
    /\ v_size_type <$> variants p = [Accessories; Accessories]
    /\ sku_id <$> variants p = [JInt 502; JInt 502].
Proof. eexists. split; [vm_compute; reflexivity|]. by vm_compute. Qed.

Lemma accessory_reference_listed_twice_any_runtime (rt : PyRuntime) :
  parse_product_detail rt None
    (document [sku 502 11 50000; sku 502 12 45000]) (Some "502") (Some [123])
  = parse_product_detail ascii_runtime None
      (document [sku 502 11 50000; sku 502 12 45000]) (Some "502")
      (Some [123]).
Proof. vm_compute. reflexivity. Qed.

(** *** The price tiers *)

(** The test of priority 1 on one tier: [tradeType == 2] and a delivery of
    at most four days. *)
Definition is_fast_standard (price_obj : list (string * json)) : res bool :=
  let trade_type := default (JInt 0) (lookup "tradeType" price_obj) in
  let time_delivery := default (JDict []) (lookup "timeDelivery" price_obj) in
  max_delivery ← get_default time_delivery "max" (JInt 999);
  short ← le_int max_delivery 4;
  Ok (eqb_int trade_type 2 && ((short : bool) && negb (eqb_int trade_type 95))).







(** A SKU in stock whose own price list holds the given tiers. *)
Definition priced_sku (id : Z) (tiers : list json) : list (string * json) :=
  [("skuId", JInt id); ("status", JInt 1);
   ("price", JDict [("prices", JList tiers)])].


(** A standard tier with an active price of 80.00 beside its price of
    100.00. *)
Definition tier_with_active_price : json :=
  JDict [("tradeType", JInt 2); ("timeDelivery", JDict [("max", JInt 3)]);
         ("price", JInt 10000); ("activePrice", JInt 8000)].

(** C5 (the code at the failing input).  The same tier gives 80.0 through
    [priceInfo], where the active price is preferred, and 100.0 through the
    SKU's own [price.prices], where only [price] is read. *)
Theorem active_price_only_in_price_info :
  find_price ascii_runtime (priced_sku 501 []) (JInt 501)
    (JDict [("501", JDict [("prices", JList [tier_with_active_price])])])
  = Ok (Price (Some (Float.of_Z 80, FromPriceInfo)))
  /\ find_price ascii_runtime (priced_sku 501 [tier_with_active_price])
       (JInt 501) (JDict [])
     = Ok (Price (Some (Float.of_Z 100, FromPricePrices 2))).
Proof. split; vm_compute; reflexivity. Qed.

(** The two prices are the same under every runtime. *)
Lemma active_price_any_runtime (rt : PyRuntime) :
  find_price rt (priced_sku 501 [tier_with_active_price]) (JInt 501)
    (JDict [])
  = Ok (Price (Some (Float.of_Z 100, FromPricePrices 2)))
  /\ find_price rt (priced_sku 501 [tier 2 10 10000; tier 8 3 5000])
       (JInt 501) (JDict [])
     = Ok (Price (Some (Float.of_Z 50, FromPricePrices 8))).
Proof. split; vm_compute; reflexivity. Qed.

End ProductProofs.

(** * Further properties of the code *)

(** ** category_filter.py *)

Module CategoryFilterExtra.

Import CategoryFilter CategoryFilterProofs.

(** X1.  [is_child_of(category_id, parent_id)] answers true at some depth
    exactly when [parent_id] is reached from [category_id] along the parent
    links, the walk stopping where a parent is 0. *)
Theorem is_child_of_iff_ancestor :
  forall (flat : gmap Z category) (c p : Z),
    (exists fuel, is_child_of flat fuel c p = Some true) <-> ancestor flat c p.
Proof.
  intros flat c p. split.
  - intros [fuel H]. by eapply is_child_of_sound.
  - apply is_child_of_complete.
Qed.

Section Split.

Variable flat : gmap Z category.
Variable fuel : nat.

Definition child_of_men (c : Z) : Prop :=
  is_child_of flat fuel c MEN_PARENT_ID = Some true.
Definition child_of_women (c : Z) : Prop :=
  is_child_of flat fuel c MEN_PARENT_ID = Some false
  /\ is_child_of flat fuel c WOMEN_PARENT_ID = Some true.
Definition child_of_neither (c : Z) : Prop :=
  is_child_of flat fuel c MEN_PARENT_ID = Some false
  /\ is_child_of flat fuel c WOMEN_PARENT_ID = Some false.

(** The three buckets hold every category once, each in the bucket of its
    test. *)
Lemma split_categories_spec ids men women other :
  split_categories flat fuel ids = Some (men, women, other) ->
  ids ≡ₚ other ++ men ++ women
  /\ Forall child_of_men men /\ Forall child_of_women women
  /\ Forall child_of_neither other.
Proof.
  revert men women other.
  induction ids as [|c ids IH]; intros men women other H; simpl in H.
  - injection H as <- <- <-. repeat split; constructor.
  - unfold mbind, option_bind in H.
    destruct (is_child_of flat fuel c MEN_PARENT_ID) as [[|]|] eqn:Hm;
      [| |discriminate H].
    + destruct (split_categories flat fuel ids) as [[[m w] o]|];
        [|discriminate H].
      injection H as <- <- <-.
      destruct (IH m w o eq_refl) as (Hp & Hm' & Hw' & Ho').
      split; [|repeat split; try constructor; done].
      rewrite Hp. simpl. by rewrite <- Permutation_middle.
    + destruct (is_child_of flat fuel c WOMEN_PARENT_ID) as [[|]|] eqn:Hw;
        [| |discriminate H];
        (destruct (split_categories flat fuel ids) as [[[m w] o]|];
         [|discriminate H]);
        injection H as <- <- <-;
        destruct (IH m w o eq_refl) as (Hp & Hm' & Hw' & Ho').
      * split; [|repeat split; try constructor; done].
        rewrite Hp. rewrite (app_assoc o m (c :: w)).
        rewrite <- Permutation_middle. by rewrite <- (app_assoc o m w).
      * split; [|repeat split; try constructor; done].
        by rewrite Hp.
Qed.

End Split.

(** The outcomes of [filter_categories] by the two size signals. *)
Lemma filter_categories_cases flat rt fuel ids sizes size_type r :
  filter_categories flat rt fuel ids sizes size_type = Some r ->
  r = ids
  \/ exists men women other,
       split_categories flat fuel ids = Some (men, women, other)
       /\ size_type = "shoes" /\ ids <> [] /\ sizes <> []
       /\ r = (let '(has_women, has_men) := analyze_sizes rt sizes in
               if has_women && has_men then other ++ men ++ women
               else if has_women then other ++ women
               else if has_men then other ++ men
               else other ++ men ++ women)%list.
Proof.
  unfold filter_categories. intros H.
  destruct ids as [|c ids]; [left; congruence|].
  destruct sizes as [|s sizes]; [left; congruence|].
  destruct (negb (Str.eqb size_type "shoes")) eqn:Hst; [left; congruence|].
  destruct (split_categories flat fuel (c :: ids)) as [[[m w] o]|] eqn:Hsplit;
    [|discriminate H].
  right. exists m, w, o. split; [done|].
  split; [|split; [done|split; [done|]]].
  - apply negb_false_iff in Hst. unfold Str.eqb in Hst.
    by apply bool_decide_eq_true in Hst.
  - destruct (analyze_sizes rt (s :: sizes)) as [hw hm]. congruence.
Qed.

(** *** When the walks return *)

Lemma shoe_rank_bound c : (shoe_rank c < 5)%nat.
Proof. unfold shoe_rank. destruct (_ || _); lia. Qed.

(** On well-founded links and with frames enough for the category, the walk
    returns and decides descent. *)
Lemma is_child_of_decides flat rank fuel c p :
  ranked flat rank -> (rank c < fuel)%nat ->
  exists b,
    is_child_of flat fuel c p = Some b /\ (b = true <-> ancestor flat c p).
Proof.
  intros Hrank Hlt.
  destruct (is_child_of_ranked flat rank Hrank fuel c p Hlt) as [b Hb].
  exists b. split; [done|]. split.
  - intros ->. by eapply is_child_of_sound.
  - intros Ha. apply is_child_of_complete in Ha as [fuel' Ht].
    pose proof (is_child_of_mono flat fuel (fuel `max` fuel') c p b
                  ltac:(lia) Hb) as H1.
    pose proof (is_child_of_mono flat fuel' (fuel `max` fuel') c p true
                  ltac:(lia) Ht) as H2.
    congruence.
Qed.

Lemma split_categories_returns flat rank fuel ids :
  ranked flat rank -> (forall c, c ∈ ids -> (rank c < fuel)%nat) ->
  exists men women other,
    split_categories flat fuel ids = Some (men, women, other).
Proof.
  intros Hrank. induction ids as [|c ids IH]; intros Hids; simpl.
  - by exists [], [], [].
  - destruct IH as (m & w & o & ->).
    { intros c' Hc'. apply Hids. by right. }
    assert (rank c < fuel)%nat as Hc by (apply Hids; left).
    destruct (is_child_of_ranked flat rank Hrank fuel c MEN_PARENT_ID Hc)
      as [bm ->].
    destruct (is_child_of_ranked flat rank Hrank fuel c WOMEN_PARENT_ID Hc)
      as [bw ->].
    simpl. destruct bm; [by eexists _, _, _|].
    simpl. destruct bw; by eexists _, _, _.
Qed.

Lemma filter_categories_returns flat rt rank fuel ids sizes size_type :
  ranked flat rank -> (forall c, c ∈ ids -> (rank c < fuel)%nat) ->
  exists r, filter_categories flat rt fuel ids sizes size_type = Some r.
Proof.
  intros Hrank Hids. unfold filter_categories.
  destruct ids as [|c ids]; [by eexists|].
  destruct sizes as [|s sizes]; [by eexists|].
  destruct (negb _); [by eexists|].
  destruct (split_categories_returns flat rank fuel (c :: ids) Hrank Hids)
    as (m & w & o & ->).
  destruct (analyze_sizes rt (s :: sizes)). by eexists.
Qed.



(** X3.  [filter_categories] never adds a category and never drops one that
    is a child of neither shoe root: the result is a sub-multiset of the
    input, and it holds every such category of the input. *)
Theorem filter_categories_only_drops_shoe_branches :
  forall (flat : gmap Z category) (rt : PyRuntime) (fuel : nat)
         (ids : list Z) (sizes : list string) (size_type : string)
         (r : list Z),
    filter_categories flat rt fuel ids sizes size_type = Some r ->
    r ⊆+ ids
    /\ forall c, c ∈ ids ->
                 is_child_of flat fuel c MEN_PARENT_ID = Some false ->
                 is_child_of flat fuel c WOMEN_PARENT_ID = Some false ->
                 c ∈ r.
Proof.
  intros flat rt fuel ids sizes size_type r H.
  apply filter_categories_cases in H
    as [->|(m & w & o & Hsplit & Hst & Hids & Hsizes & ->)]; [by split|].
  apply split_categories_spec in Hsplit as (Hp & Hm & Hw & Ho).
  assert (Hother : forall c, c ∈ ids ->
            is_child_of flat fuel c MEN_PARENT_ID = Some false ->
            is_child_of flat fuel c WOMEN_PARENT_ID = Some false -> c ∈ o).
  { intros c Hc H1 H2. rewrite Hp in Hc.
    apply elem_of_app in Hc as [Hc|Hc]; [done|].
    apply elem_of_app in Hc as [Hc|Hc].
    - rewrite Forall_forall in Hm. specialize (Hm c Hc).
      unfold child_of_men in Hm. congruence.
    - rewrite Forall_forall in Hw. destruct (Hw c Hc) as [_ Hw']. congruence. }
  destruct (analyze_sizes rt sizes) as [[|] [|]]; simpl; split;
    try (by rewrite Hp);
    try (intros c Hc H1 H2; apply elem_of_app; left; by apply Hother).
  - rewrite Hp. apply submseteq_app; [done|]. apply submseteq_inserts_l. done.
  - rewrite Hp. apply submseteq_app; [done|]. apply submseteq_inserts_r. done.
Qed.

Lemma filter_categories_only_drops_shoe_branches_witness :
  [7; 103] ⊆+ [103; 154; 7]
  /\ forall c, c ∈ [103; 154; 7] ->
               is_child_of shoe_tree 5 c MEN_PARENT_ID = Some false ->
               is_child_of shoe_tree 5 c WOMEN_PARENT_ID = Some false ->
               c ∈ [7; 103].
Proof.
  apply (filter_categories_only_drops_shoe_branches shoe_tree ascii_runtime 5
           [103; 154; 7] ["40"; "41"; "42"] "shoes" [7; 103]).
  vm_compute. reflexivity.
Defined.

(** With a shoe, categories and sizes at hand the filter does run. *)
Lemma filter_categories_shoes flat rt fuel ids sizes r :
  filter_categories flat rt fuel ids sizes "shoes" = Some r ->
  ids <> [] -> sizes <> [] ->
  exists men women other,
    split_categories flat fuel ids = Some (men, women, other)
    /\ r = (let '(has_women, has_men) := analyze_sizes rt sizes in
            if has_women && has_men then other ++ men ++ women
            else if has_women then other ++ women
            else if has_men then other ++ men
            else other ++ men ++ women)%list.
Proof.
  unfold filter_categories. intros H Hids Hsizes.
  destruct ids as [|c ids]; [done|]. destruct sizes as [|s sizes]; [done|].
  change (negb (Str.eqb "shoes" "shoes")) with false in H. cbv iota in H.
  destruct (split_categories flat fuel (c :: ids)) as [[[m w] o]|];
    [|discriminate H].
  exists m, w, o. split; [done|].
  destruct (analyze_sizes rt (s :: sizes)) as [hw hm]. congruence.
Qed.

(** With one signal only, the result in terms of the walks. *)
Lemma filter_categories_one_signal_walks flat rt fuel ids sizes r :
  filter_categories flat rt fuel ids sizes "shoes" = Some r ->
  ids <> [] ->
  (analyze_sizes rt sizes = (false, true) ->
   forall c, c ∈ r <-> c ∈ ids /\ ~ child_of_women flat fuel c)
  /\ (analyze_sizes rt sizes = (true, false) ->
      forall c, c ∈ r <-> c ∈ ids /\ ~ child_of_men flat fuel c).
Proof.
  intros H Hne.
  destruct (decide (sizes = [])) as [->|Hs];
    [split; vm_compute; discriminate|].
  apply filter_categories_shoes in H as (m & w & o & Hsplit & ->);
    [|done|done].
  apply split_categories_spec in Hsplit as (Hp & Hm & Hw & Ho).
  rewrite Forall_forall in Hm, Hw, Ho.
  unfold child_of_men, child_of_women, child_of_neither in *.
  split; intros ->; simpl; intros c; rewrite Hp, !elem_of_app; split.
  - intros [Hc|Hc]; (split; [auto|]).
    + destruct (Ho c Hc). intros [? ?]. congruence.
    + specialize (Hm c Hc). intros [? ?]. congruence.
  - intros [[Hc|[Hc|Hc]] Hn]; auto. destruct (Hn (Hw c Hc)).
  - intros [Hc|Hc]; (split; [auto|]).
    + destruct (Ho c Hc). congruence.
    + destruct (Hw c Hc). congruence.
  - intros [[Hc|[Hc|Hc]] Hn]; auto. destruct (Hn (Hm c Hc)).
Qed.

(** X4.  For a shoe with categories whose walks return (well-founded parent
    links, frames enough for the categories listed), [filter_categories]
    returns a list, and when the sizes show only one of the two signals it
    drops the categories of the other branch and nothing else: with men's
    sizes only a category stays unless it descends from 102 and not from
    101, with women's sizes only it stays unless it descends from 101. *)
Theorem filter_categories_one_signal :
  forall (flat : gmap Z category) (rt : PyRuntime) (fuel : nat)
         (ids : list Z) (sizes : list string) (rank : Z -> nat),
    ranked flat rank ->
    (forall c, c ∈ ids -> (rank c < fuel)%nat) ->
    ids <> [] ->
    exists r,
      filter_categories flat rt fuel ids sizes "shoes" = Some r
      /\ (analyze_sizes rt sizes = (false, true) ->
          forall c, c ∈ r <->
                    c ∈ ids
                    /\ ~ (ancestor flat c WOMEN_PARENT_ID
                          /\ ~ ancestor flat c MEN_PARENT_ID))
      /\ (analyze_sizes rt sizes = (true, false) ->
          forall c, c ∈ r <-> c ∈ ids /\ ~ ancestor flat c MEN_PARENT_ID).
Proof.
  intros flat rt fuel ids sizes rank Hrank Hids Hne.
  destruct (filter_categories_returns flat rt rank fuel ids sizes "shoes"
              Hrank Hids) as [r Hr].
  exists r. split; [done|].
  destruct (filter_categories_one_signal_walks flat rt fuel ids sizes r Hr Hne)
    as [Hmen Hwomen].
  assert (forall c, c ∈ ids ->
            (child_of_men flat fuel c <-> ancestor flat c MEN_PARENT_ID)
            /\ (child_of_women flat fuel c
                <-> ancestor flat c WOMEN_PARENT_ID
                    /\ ~ ancestor flat c MEN_PARENT_ID)) as Hwalk.
  { intros c Hc. unfold child_of_men, child_of_women.
    destruct (is_child_of_decides flat rank fuel c MEN_PARENT_ID Hrank
                (Hids c Hc)) as (bm & -> & Hbm).
    destruct (is_child_of_decides flat rank fuel c WOMEN_PARENT_ID Hrank
                (Hids c Hc)) as (bw & -> & Hbw).
    rewrite <- Hbm, <- Hbw.
    destruct bm, bw; split; split; try done; try (intros [? ?]; done);
      try (intros [_ H]; by destruct H). }
  split.
  - intros Hs c. rewrite (Hmen Hs c). split.
    + intros [Hc Hn]. split; [done|]. by rewrite <- (proj2 (Hwalk c Hc)).
    + intros [Hc Hn]. split; [done|]. by rewrite (proj2 (Hwalk c Hc)).
  - intros Hs c. rewrite (Hwomen Hs c). split.
    + intros [Hc Hn]. split; [done|]. by rewrite <- (proj1 (Hwalk c Hc)).
    + intros [Hc Hn]. split; [done|]. by rewrite (proj1 (Hwalk c Hc)).
Qed.

Lemma filter_categories_one_signal_witness :
  exists r,
    filter_categories shoe_tree ascii_runtime 5 [103; 154; 7]
      ["40"; "41"; "42"] "shoes" = Some r
    /\ (analyze_sizes ascii_runtime ["40"; "41"; "42"] = (false, true) ->
        forall c, c ∈ r <->
                  c ∈ [103; 154; 7]
                  /\ ~ (ancestor shoe_tree c WOMEN_PARENT_ID
                        /\ ~ ancestor shoe_tree c MEN_PARENT_ID))
    /\ (analyze_sizes ascii_runtime ["40"; "41"; "42"] = (true, false) ->
        forall c, c ∈ r <->
                  c ∈ [103; 154; 7] /\ ~ ancestor shoe_tree c MEN_PARENT_ID).
Proof.
  apply (filter_categories_one_signal shoe_tree ascii_runtime 5
           [103; 154; 7] ["40"; "41"; "42"] shoe_rank shoe_tree_ranked).
  - intros c _. apply shoe_rank_bound.
  - discriminate.
Defined.

(** A shoe category: one of the two shoe roots or a category below one. *)
Definition shoe_category (flat : gmap Z category) (c : Z) : Prop :=
  c = MEN_PARENT_ID \/ c = WOMEN_PARENT_ID
  \/ ancestor flat c MEN_PARENT_ID \/ ancestor flat c WOMEN_PARENT_ID.

Lemma is_shoe_category_decides flat rank fuel c :
  ranked flat rank -> (rank c < fuel)%nat ->
  exists b,
    is_shoe_category flat fuel c = Some b
    /\ (b = true <-> shoe_category flat c).
Proof.
  intros Hrank Hlt. unfold is_shoe_category, shoe_category.
  destruct (is_child_of_decides flat rank fuel c MEN_PARENT_ID Hrank Hlt)
    as (bm & -> & Hbm).
  destruct (is_child_of_decides flat rank fuel c WOMEN_PARENT_ID Hrank Hlt)
    as (bw & -> & Hbw).
  destruct bm; simpl.
  { exists true. split; [done|]. split; [|done].
    intros _. right. right. left. by apply Hbm. }
  destruct bw; simpl.
  { exists true. split; [done|]. split; [|done].
    intros _. right. right. right. by apply Hbw. }
  eexists. split; [done|].
  rewrite orb_true_iff, !bool_decide_eq_true.
  split; [intros [?|?]; auto|].
  intros [?|[?|[Ha|Ha]]]; auto.
  - by apply Hbm in Ha.
  - by apply Hbw in Ha.
Qed.

(** X5.  [get_size_attribute_id] answers 5 for the empty list.  For
    categories whose walks return (well-founded parent links, frames enough
    for the categories listed) it returns 4, the shoe size attribute,
    exactly when one of them is a shoe category, and 5 when none is. *)
Theorem get_size_attribute_id_cases :
  forall (flat : gmap Z category) (fuel : nat),
    get_size_attribute_id flat fuel [] = Some 5
    /\ forall (ids : list Z) (rank : Z -> nat),
         ranked flat rank ->
         (forall c, c ∈ ids -> (rank c < fuel)%nat) ->
         (get_size_attribute_id flat fuel ids = Some 4
          /\ exists c, c ∈ ids /\ shoe_category flat c)
         \/ (get_size_attribute_id flat fuel ids = Some 5
             /\ forall c, c ∈ ids -> ~ shoe_category flat c).
Proof.
  intros flat fuel. split; [done|]. intros ids rank Hrank.
  induction ids as [|c ids IH]; intros Hids; simpl.
  - right. split; [done|]. intros c Hc. by inv Hc.
  - destruct (is_shoe_category_decides flat rank fuel c Hrank)
      as (b & -> & Hb); [apply Hids; left|].
    destruct b.
    + left. split; [done|]. exists c. split; [left|by apply Hb].
    + destruct IH as [[-> (c' & Hin & Hs)]|[-> Hall]].
      { intros c' Hc'. apply Hids. by right. }
      * left. split; [done|]. exists c'. split; [by right|done].
      * right. split; [done|]. intros c' Hin. inv Hin; [|by apply Hall].
        intros Hs. apply Hb in Hs. discriminate.
Qed.

Lemma get_size_attribute_id_cases_witness :
  (get_size_attribute_id shoe_tree 5 [7; 103] = Some 4
   /\ exists c, c ∈ [7; 103] /\ shoe_category shoe_tree c)
  \/ (get_size_attribute_id shoe_tree 5 [7; 103] = Some 5
      /\ forall c, c ∈ [7; 103] -> ~ shoe_category shoe_tree c).
Proof.
  apply (proj2 (get_size_attribute_id_cases shoe_tree 5) [7; 103] shoe_rank
           shoe_tree_ranked).
  intros c _. apply shoe_rank_bound.
Defined.

Lemma analyze_sizes_from_spec rt sizes :
  forall hw hm,
    analyze_sizes_from rt hw hm sizes
    = (hw || existsb (fun s => match float_of_str rt s with
                               | Some f => is_women_size f
                               | None => false
                               end) sizes,
       hm || existsb (fun s => match float_of_str rt s with
                               | Some f => is_men_size f
                               | None => false
                               end) sizes).
Proof.
  induction sizes as [|s sizes IH]; intros hw hm; simpl.
  - by rewrite !orb_false_r.
  - destruct (float_of_str rt s) as [f|]; rewrite IH; simpl;
      by rewrite ?orb_assoc.
Qed.

(** X6.  [analyze_sizes] reports women's sizes exactly when some label
    parses as a number at most 39.0, and men's sizes exactly when some label
    parses as a number at least 39.5; a label that is no number counts for
    neither, and the order of the labels does not matter. *)
Theorem analyze_sizes_exists :
  forall (rt : PyRuntime) (sizes : list string),
    (fst (analyze_sizes rt sizes) = true <->
     exists s f, s ∈ sizes /\ float_of_str rt s = Some f
                 /\ is_women_size f = true)
    /\ (snd (analyze_sizes rt sizes) = true <->
        exists s f, s ∈ sizes /\ float_of_str rt s = Some f
                    /\ is_men_size f = true).
Proof.
  intros rt sizes. unfold analyze_sizes.
  rewrite analyze_sizes_from_spec. simpl.
  split; rewrite existsb_exists; split.
  - intros (s & Hin & Hs). destruct (float_of_str rt s) as [f|] eqn:Hf;
      [|discriminate]. exists s, f. by rewrite list_elem_of_In.
  - intros (s & f & Hin & Hf & Hw). exists s.
    rewrite <- list_elem_of_In. by rewrite Hf.
  - intros (s & Hin & Hs). destruct (float_of_str rt s) as [f|] eqn:Hf;
      [|discriminate]. exists s, f. by rewrite list_elem_of_In.
  - intros (s & f & Hin & Hf & Hw). exists s.
    rewrite <- list_elem_of_In. by rewrite Hf.
Qed.

End CategoryFilterExtra.

(** ** price_calculator.py *)

Module PriceExtra.

Import PriceCalculator.

Definition f12 : Float.float := Float.of_Z 12.
Definition f400 : Float.float := Float.of_Z 400.
Definition f600 : Float.float := Float.of_Z 600.
Definition f1_2 : Float.float := Float.of_decimal false 12 1.

(** The default formula on a base price, in binary64. *)
Definition standard_price (x : Float.float) : Float.float :=
  Float.mul (Float.add (Float.mul x f12) f400) f1_2.

(** X7.  With the default configuration every base price is priced by the
    default formulas as written, multiplication before addition and the
    integer parameters taken as floats: [round((x * 12 + 400) * 1.2, 2)] for
    21 to 26 days and [round((x * 12 + 400) * 1.2 + 600, 2)] for 10 to 14
    days, for every category; a delivery tier that is not configured is
    priced like the first. *)
Theorem default_formulas :
  forall (x : Float.float) (category_id : Z),
    calculate_price defaults x category_id "21-26 дней"
    = Returns (VFloat (Float.round2 (standard_price x)))
    /\ calculate_price defaults x category_id "10-14 дней"
       = Returns (VFloat (Float.round2 (Float.add (standard_price x) f600)))
    /\ forall delivery_days,
         delivery_days <> "21-26 дней" -> delivery_days <> "10-14 дней" ->
         calculate_price defaults x category_id delivery_days
         = Returns (VFloat (Float.round2 (standard_price x))).
Proof.
  intros x category_id.
  assert (Hstd : evaluate_formula defaults "(x * a + 400) * b" x category_id
                 = Returns (VFloat (Float.round2 (standard_price x)))).
  { unfold evaluate_formula.
    assert (py_eval "(x * a + 400) * b" (scope_of defaults x category_id)
            = EValue (VFloat (standard_price x))) as -> by reflexivity.
    reflexivity. }
  assert (Hfmt : forall c, formulas defaults !! str_of_int c = None)
    by (intros c; apply lookup_empty).
  split; [|split].
  - unfold calculate_price, get_formula. rewrite Hfmt. exact Hstd.
  - unfold calculate_price, get_formula. rewrite Hfmt.
    unfold evaluate_formula.
    assert (py_eval (default "(x * a + 400) * b"
                       (default_formula defaults !! "10-14 дней"))
              (scope_of defaults x category_id)
            = EValue (VFloat (Float.add (standard_price x) f600))) as ->
      by reflexivity.
    reflexivity.
  - intros d H1 H2. unfold calculate_price, get_formula. rewrite Hfmt.
    assert (default_formula defaults !! d = None) as ->; [|exact Hstd].
    unfold defaults. cbn [default_formula].
    rewrite lookup_insert_ne by congruence.
    apply lookup_singleton_ne. congruence.
Qed.

(** The configuration with the formula [f] stored for one category and one
    delivery tier. *)
Definition with_override (cfg : config) (category_id : Z)
    (delivery_days f : string) : config :=
  {| parameters := parameters cfg;
     default_formula := default_formula cfg;
     formulas :=
       <[ str_of_int category_id :=
            <[ delivery_days := f ]>
              (default ∅ (formulas cfg !! str_of_int category_id)) ]>
         (formulas cfg) |}.

Lemma get_formula_with_override cfg c d f c' d' :
  get_formula (with_override cfg c d f) c' d'
  = if bool_decide (c' = c /\ d' = d) then f else get_formula cfg c' d'.
Proof.
  unfold get_formula, with_override. cbn [formulas default_formula].
  destruct (decide (c' = c)) as [->|Hc].
  - rewrite lookup_insert_eq.
    destruct (decide (d' = d)) as [->|Hd].
    + rewrite lookup_insert_eq. by rewrite bool_decide_eq_true_2.
    + rewrite lookup_insert_ne by done.
      rewrite bool_decide_eq_false_2 by (intros [_ ?]; done).
      destruct (formulas cfg !! str_of_int c) as [fs|]; simpl; [done|].
      by rewrite lookup_empty.
  - rewrite lookup_insert_ne
      by (unfold str_of_int; intros Heq; by apply (inj pretty) in Heq).
    by rewrite bool_decide_eq_false_2 by (intros [? _]; done).
Qed.

(** X8.  A formula stored for a category and a delivery tier prices that
    category and tier and no other: the key is the decimal form of the
    category id, so two ids never share a formula, and the other tiers of the
    category keep theirs. *)
Theorem override_is_local :
  forall (cfg : config) (c : Z) (d f : string) (x : Float.float),
    calculate_price (with_override cfg c d f) x c d
    = evaluate_formula cfg f x c
    /\ forall c' d', ~ (c' = c /\ d' = d) ->
                     calculate_price (with_override cfg c d f) x c' d'
                     = calculate_price cfg x c' d'.
Proof.
  intros cfg c d f x. unfold calculate_price. split.
  - rewrite get_formula_with_override.
    by rewrite bool_decide_eq_true_2.
  - intros c' d' Hne. rewrite get_formula_with_override.
    by rewrite bool_decide_eq_false_2.
Qed.

End PriceExtra.

(** ** Signs of rounded quotients *)

Module FloatSign.

(** A float that is zero, finite or infinite with the sign [s]. *)
Definition signed (s : bool) (x : Float.float) : Prop :=
  match x with
  | S754_zero s' | S754_infinity s' | S754_finite s' _ _ => s' = s
  | S754_nan => False
  end.

Lemma shr_1_nonneg mrs : 0 <= shr_m mrs -> 0 <= shr_m (shr_1 mrs).
Proof.
  destruct mrs as [m r s]. simpl.
  destruct m as [|[p|p|]|[p|p|]]; simpl; lia.
Qed.

Lemma iter_shr_1_nonneg p :
  forall mrs, 0 <= shr_m mrs -> 0 <= shr_m (SpecFloat.iter_pos shr_1 p mrs).
Proof.
  induction p as [p IH|p IH|]; intros mrs H; simpl.
  - apply IH, IH. by apply shr_1_nonneg.
  - by apply IH, IH.
  - by apply shr_1_nonneg.
Qed.

Lemma shr_fexp_nonneg prec emax m e l :
  0 <= m -> 0 <= shr_m (fst (shr_fexp prec emax m e l)).
Proof.
  intros H. unfold shr_fexp, shr.
  assert (0 <= shr_m (shr_record_of_loc m l)) by (destruct l as [|[]]; done).
  destruct (fexp prec emax (Zdigits2 m + e) - e); simpl; try done.
  by apply iter_shr_1_nonneg.
Qed.

Lemma round_nearest_even_nonneg m l : 0 <= m -> 0 <= round_nearest_even m l.
Proof.
  intros H. unfold round_nearest_even.
  destruct l as [|[]]; try done; [destruct (Z.even m)|]; lia.
Qed.

(** Rounding a non-negative mantissa keeps the sign and gives no NaN. *)
Lemma binary_round_aux_signed prec emax s m e l :
  0 <= m -> signed s (binary_round_aux prec emax s m e l).
Proof.
  intros H. unfold binary_round_aux.
  pose proof (shr_fexp_nonneg prec emax m e l H) as H1.
  destruct (shr_fexp prec emax m e l) as [mrs' e']. simpl in H1.
  pose proof (shr_fexp_nonneg prec emax
                (round_nearest_even (shr_m mrs') (loc_of_shr_record mrs')) e'
                loc_Exact (round_nearest_even_nonneg _ _ H1)) as H2.
  destruct (shr_fexp prec emax _ e' loc_Exact) as [mrs'' e'']. simpl in H2.
  destruct (shr_m mrs'') as [|p|p]; simpl; [done| |lia].
  by destruct (e'' <=? emax - prec).
Qed.

(** The quotient of two positive finite floats is no NaN and not negative. *)
Lemma div_positive m1 e1 m2 e2 :
  signed false (Float.div (S754_finite false m1 e1) (S754_finite false m2 e2)).
Proof.
  unfold Float.div, SFdiv, SFdiv_core_binary.
  set (m' := match _ - _ - _ with Z0 => _ | Zpos _ => _ | Zneg _ => _ end).
  assert (Hm' : 0 <= m').
  { subst m'. destruct (_ - _ - _); try done. apply Z.shiftl_nonneg. done. }
  pose proof (Z.div_pos m' (Z.pos m2) Hm' ltac:(done)) as Hq.
  unfold Z.div in Hq. destruct (Z.div_eucl m' (Z.pos m2)) as [q r].
  by apply binary_round_aux_signed.
Qed.

End FloatSign.

(** ** product_processor.py *)

Module ProductExtra.

Import Py ProductProcessor ProductValidation ProductProofs FloatSign.

Lemma compare_zero_gt x :
  Float.compare x (S754_zero false) = Some Gt ->
  x = S754_infinity false \/ exists m e, x = S754_finite false m e.
Proof.
  destruct x as [s|[|]| |[|] m e]; simpl; try discriminate; eauto.
Qed.

(** A tier price that passes [price_raw > 0] gives a float that is no NaN and
    not negative. *)
Lemma div_100_signed raw p :
  gt_int raw 0 = Ok true -> div_100 raw = Ok p -> signed false p.
Proof.
  unfold gt_int, div_100, num_compare.
  destruct (as_number raw) as [n|]; [|discriminate].
  destruct (Float.compare (exact n) (exact (inl 0))) as [[| |]|] eqn:Hc;
    try discriminate.
  intros _. apply compare_zero_gt in Hc.
  destruct n as [z|f]; simpl in Hc.
  - destruct Hc as [Hc|(m & e & Hc)]; [by destruct z|].
    rewrite Hc. change (Float.exact_of_Z 100) with (S754_finite false 100 0).
    pose proof (div_positive m e 100 0) as Hs.
    destruct (Float.is_finite _); [|discriminate]. by intros [= <-].
  - intros [= <-].
    change (Float.of_Z 100) with (S754_finite false 7036874417766400 (-46)).
    destruct Hc as [->|(m & e & ->)]; [done|]. apply div_positive.
Qed.

Lemma signed_positive p :
  signed false p -> Float.leb p f0 = false -> Float.ltb f0 p = true.
Proof. destruct p as [[|]|[|]| |[|] m e]; simpl; done. Qed.

Section Prices.

Variable rt : PyRuntime.

(** A price found for a SKU is a positive tier price divided by 100. *)
Lemma price_from_price_info_origin sku_id price_info_skus p s :
  price_from_price_info rt sku_id price_info_skus
  = Ok (Price (Some (p, s))) ->
  exists raw, gt_int raw 0 = Ok true /\ div_100 raw = Ok p.
Proof.
  unfold price_from_price_info. intros H. unfold_bind. walk H.
  all: injection H as <- <-; eauto.
Qed.

Lemma price_from_sku_origin sku price_cny p s :
  price_from_sku sku price_cny = Ok (Price (Some (p, s))) ->
  price_cny = Some (p, s)
  \/ exists raw, gt_int raw 0 = Ok true /\ div_100 raw = Ok p.
Proof.
  unfold price_from_sku. intros H. unfold_bind. walk H.
  all: injection H as H; subst; eauto.
Qed.

Lemma find_price_origin sku sku_id price_info_skus p s :
  find_price rt sku sku_id price_info_skus = Ok (Price (Some (p, s))) ->
  exists raw, gt_int raw 0 = Ok true /\ div_100 raw = Ok p.
Proof.
  unfold find_price. intros H. unfold_bind.
  destruct (price_from_price_info rt sku_id price_info_skus)
    as [[|first]|] eqn:H1; try discriminate H.
  destruct (no_price first).
  - apply price_from_sku_origin in H as [->|H]; [|done].
    by eapply price_from_price_info_origin.
  - injection H as ->. by eapply price_from_price_info_origin.
Qed.

End Prices.

Lemma pretty_N_go_length x :
  forall s, (String.length s <= String.length (pretty_N_go x s))%nat.
Proof.
  induction (N.lt_wf_0 x) as [x _ IH]; intros s.
  destruct (decide (x = 0)%N) as [->|Hx]; [by rewrite pretty_N_go_0|].
  rewrite pretty_N_go_step by lia.
  etrans; [|apply IH; apply N.div_lt; lia]. simpl. lia.
Qed.

(** The decimal form of an integer is not empty. *)
Lemma pretty_Z_nonempty (z : Z) : pretty z <> "".
Proof.
  destruct z as [|x|x]; [done| |done].
  unfold pretty, pretty_Z, pretty, pretty_positive, pretty, pretty_N.
  case_decide; [done|].
  rewrite pretty_N_go_step by lia. intros Heq.
  pose proof (pretty_N_go_length (N.pos x `div` 10)
                (String (pretty_N_char (N.pos x `mod` 10)) "")) as Hlen.
  rewrite Heq in Hlen. simpl in Hlen. lia.
Qed.

Section Turn.

Variable rt : PyRuntime.
Variable price_formula : option (Float.float -> res Float.float).

Lemma normalize_size_truthy st size size' :
  normalize_size rt st size = Ok size' ->
  truthy size = true -> truthy size' = true.
Proof.
  unfold normalize_size. intros H Ht.
  destruct (size_type_eqb st Shoes && negb (eqb_str size "ONE SIZE"));
    [|congruence].
  destruct (to_float rt size) as [f|[]]; try congruence.
  destruct (integer_value f) as [z|]; [|congruence].
  injection H as <-. simpl. unfold Str.eqb.
  rewrite bool_decide_eq_false_2; [done|apply pretty_Z_nonempty].
Qed.

(** What the code did in a turn of the loop that gave a variant. *)
Lemma process_sku_view st reference_sku_id primary_color_id
    property_to_size price_info_skus found sku v :
  process_sku rt price_formula st reference_sku_id primary_color_id
    property_to_size price_info_skus found sku = Ok (Emitted v) ->
  exists d props looked,
    sku = JDict d
    /\ iter (default (JList []) (lookup "properties" d)) = Ok props
    /\ lookup_size props property_to_size = Ok looked
    /\ exists size1 size2,
         size1 = fallback_size rt st d (sku_id v)
                   (default (JList []) (lookup "properties" d)) props looked
         /\ size2 = (if negb (truthy size1) then JStr ONE_SIZE else size1)
         /\ negb (truthy size1) && negb (size_type_eqb st Accessories) = false
         /\ size_type_eqb st Accessories && eqb_str size2 ONE_SIZE
            && found && negb (supplied reference_sku_id) = false
         /\ normalize_size rt st size2 = Ok (size_eu v)
         /\ stock_status v = default (JInt 0) (lookup "status" d)
         /\ eqb_int (stock_status v) 1 = true
         /\ is_available v = true
         /\ find_price rt d (sku_id v) price_info_skus
            = Ok (Price (Some (price_cny v, v_price_source v)))
         /\ no_price (Some (price_cny v, v_price_source v)) = false
         /\ match price_formula with
            | Some f => f (price_cny v)
            | None => Ok (price_cny v)
            end = Ok (price_rub v).
Proof.
  unfold process_sku. intros H. unfold_bind.
  destruct sku as [| | | | | |d]; try discriminate H.
  walk H.
  all: injection H as <-; cbn [sku_id size_eu stock_status is_available
                               price_cny v_price_source price_rub].
  all: exists d; do 2 eexists; split; [reflexivity|]; split; [eassumption|];
       split; [eassumption|]; do 2 eexists;
       split; [reflexivity|]; split; [reflexivity|].
  all: repeat match goal with
              | |- _ /\ _ => split
              end; try eassumption; try reflexivity.
  all: match goal with
       | E : negb (eqb_int ?s 1) = false |- eqb_int ?s 1 = true =>
           by apply negb_false_iff in E
       end.
Qed.

(** Every variant of the loop is the variant of a turn on one of the SKUs. *)
Lemma process_skus_each st reference_sku_id primary_color_id
    property_to_size price_info_skus skus :
  forall found vs,
    process_skus rt price_formula st reference_sku_id primary_color_id
      property_to_size price_info_skus found skus = Ok vs ->
    Forall (fun v =>
              exists sku found',
                sku ∈ skus
                /\ process_sku rt price_formula st reference_sku_id
                     primary_color_id property_to_size price_info_skus
                     found' sku = Ok (Emitted v)) vs.
Proof.
  induction skus as [|sku rest IH]; intros found vs H; simpl in H.
  - injection H as <-. constructor.
  - unfold_bind.
    destruct (process_sku _ _ _ _ _ _ _ _ sku) as [[|v]|] eqn:Hsku;
      [| |discriminate H].
    + apply IH in H. eapply Forall_impl; [exact H|].
      intros v (s & f & Hin & Hs). exists s, f. split; [by right|done].
    + destruct (process_skus _ _ _ _ _ _ _ _ rest) as [vs'|] eqn:Hrest;
        [|discriminate H].
      injection H as <-. constructor.
      * exists sku, found. split; [left|done].
      * apply IH in Hrest. eapply Forall_impl; [exact Hrest|].
        intros v' (s & f & Hin & Hs). exists s, f. split; [by right|done].
Qed.

(** A variant is in stock, has a size and a positive price. *)
Definition sound_variant (v : variant) : Prop :=
  eqb_int (stock_status v) 1 = true
  /\ is_available v = true
  /\ truthy (size_eu v) = true
  /\ positive_price (price_cny v) = true
  /\ (price_formula = None -> price_rub v = price_cny v).

Lemma process_sku_sound st reference_sku_id primary_color_id
    property_to_size price_info_skus found sku v :
  process_sku rt price_formula st reference_sku_id primary_color_id
    property_to_size price_info_skus found sku = Ok (Emitted v) ->
  sound_variant v.
Proof.
  intros H. apply process_sku_view in H
    as (d & props & looked & _ & _ & _ & size1 & size2 & _ & Hs2 & _ & _
        & Hnorm & _ & Hstatus & Havail & Hprice & Hno & Hrub).
  unfold sound_variant. repeat split; try done.
  - apply (normalize_size_truthy _ _ _ Hnorm). rewrite Hs2.
    by destruct (truthy size1) eqn:Ht.
  - apply find_price_origin in Hprice as (raw & Hgt & Hdiv).
    apply signed_positive; [by eapply div_100_signed|exact Hno].
  - intros Hpf. rewrite Hpf in Hrub. by injection Hrub as <-.
Qed.

(** The record of a parsed product besides its variants. *)
Lemma parsed_record product_data reference_sku_id category_ids p :
  parse_product_detail rt price_formula product_data reference_sku_id
    category_ids = Parsed p ->
  truthy (spu_id p) = true
  /\ title p <> ""
  /\ (exists rest, images p = main_image_url p :: rest)
  /\ is_active p = true
  /\ forall r, reference_sku_id = Some r -> r <> "" ->
               exists z, int_of_str rt r = Ok z.
Proof.
  unfold parse_product_detail.
  destruct (parse_body _ _ _ _ _) as [res|] eqn:Hb; [|discriminate].
  intros ->. unfold parse_body in Hb. unfold_bind. walk Hb.
  injection Hb as <-; cbn [spu_id title images main_image_url is_active].
  split; [by match goal with
             | E : negb (truthy ?x) = false |- truthy ?x = true =>
                 apply negb_false_iff in E
             end|].
  split; [by match goal with
             | E : Str.eqb ?t "" = false |- ?t <> "" =>
                 unfold Str.eqb in E; apply bool_decide_eq_false in E
             end|].
  split; [eexists; reflexivity|]; split; [reflexivity|].
  intros r -> Hne.
  match goal with
  | E : (if supplied (Some r) then _ else _) = Ok _ |- _ => rename E into Href
  end.
  assert (supplied (Some r) = true) as Hs.
  { simpl. unfold Str.eqb. apply negb_true_iff. by apply bool_decide_eq_false. }
  rewrite Hs in Href.
  destruct (int_of_str rt r) as [z|] eqn:Hz; [eauto|discriminate Href].
Qed.

(** [size_eu == "ONE SIZE"] *)
Definition is_one_size (v : variant) : bool := eqb_str (size_eu v) ONE_SIZE.

(** Among accessories without a reference SKU the loop lets one ONE SIZE
    variant through, and none once the flag is set. *)
Lemma process_skus_one_size reference_sku_id primary_color_id
    property_to_size price_info_skus skus :
  supplied reference_sku_id = false ->
  forall found vs,
    process_skus rt price_formula Accessories reference_sku_id
      primary_color_id property_to_size price_info_skus found skus = Ok vs ->
    (length (List.filter is_one_size vs) <= if found then 0 else 1)%nat.
Proof.
  intros Href. induction skus as [|sku rest IH]; intros found vs H; simpl in H.
  - injection H as <-. simpl. destruct found; lia.
  - unfold_bind.
    destruct (process_sku _ _ _ _ _ _ _ _ sku) as [[|v]|] eqn:Hsku;
      [by apply IH| |discriminate H].
    destruct (process_skus _ _ _ _ _ _ _ _ rest) as [vs'|] eqn:Hrest;
      [|discriminate H].
    injection H as <-. apply IH in Hrest.
    apply process_sku_view in Hsku
      as (d & props & looked & _ & _ & _ & size1 & size2 & _ & _ & _ & Hdup
          & Hnorm & _).
    unfold normalize_size in Hnorm. simpl in Hnorm. injection Hnorm as Hsize.
    unfold sets_one_size in Hrest. rewrite Href in Hdup, Hrest.
    simpl in Hdup, Hrest. rewrite !andb_true_r in Hdup, Hrest.
    rewrite <- Hsize in Hrest. simpl. unfold is_one_size at 1.
    rewrite <- Hsize.
    destruct (eqb_str size2 ONE_SIZE), found; simpl in *;
      try discriminate Hdup; lia.
Qed.

End Turn.

Lemma parsed_variants_each_sound rt price_formula product_data
    reference_sku_id category_ids p :
  parse_product_detail rt price_formula product_data reference_sku_id
    category_ids = Parsed p ->
  Forall (sound_variant price_formula) (variants p).
Proof.
  intros H. apply parsed_variants in H
    as (pd & skus & st & primary & table & info & _ & _ & Hloop & _).
  apply process_skus_each in Hloop. eapply Forall_impl; [exact Hloop|].
  intros v (sku & found & _ & Hsku). by eapply process_sku_sound.
Qed.

(** X9.  Every variant of a normalised product is in stock ([status == 1],
    [is_available] set), has a non-empty size and a price in CNY that is
    strictly positive (so no NaN); without a price formula the price in RUB
    is the price in CNY. *)
Theorem parsed_variants_sound rt price_formula product_data reference_sku_id
    category_ids p :
  parse_product_detail rt price_formula product_data reference_sku_id
    category_ids = Parsed p ->
  Forall (fun v =>
            eqb_int (stock_status v) 1 = true
            /\ is_available v = true
            /\ truthy (size_eu v) = true
            /\ positive_price (price_cny v) = true
            /\ (price_formula = None -> price_rub v = price_cny v))
    (variants p).
Proof.
  intros H. apply parsed_variants in H
    as (pd & skus & st & primary & table & info & _ & _ & Hloop & _).
  apply process_skus_each in Hloop. eapply Forall_impl; [exact Hloop|].
  intros v (sku & found & _ & Hsku).
  by apply process_sku_sound in Hsku.
Qed.

Lemma parsed_variants_sound_witness :
  exists p,
    parse_product_detail ascii_runtime None shoe_document None None = Parsed p
    /\ Forall (fun v =>
                 eqb_int (stock_status v) 1 = true
                 /\ is_available v = true
                 /\ truthy (size_eu v) = true
                 /\ positive_price (price_cny v) = true
                 /\ (@None (Float.float -> res Float.float) = None ->
                     price_rub v = price_cny v))
         (variants p).
Proof.
  eexists. split; [vm_compute; reflexivity|].
  apply (parsed_variants_sound ascii_runtime None shoe_document None None).
  vm_compute. reflexivity.
Defined.

(** X10.  A normalised product has a truthy SPU id, a non-empty title, at
    least one image, the first of which is the main image, at least one
    variant, and is active. *)
Theorem parsed_product_complete rt price_formula product_data
    reference_sku_id category_ids p :
  parse_product_detail rt price_formula product_data reference_sku_id
    category_ids = Parsed p ->
  truthy (spu_id p) = true
  /\ title p <> ""
  /\ (exists rest, images p = main_image_url p :: rest)
  /\ variants p <> []
  /\ is_active p = true.
Proof.
  intros H.
  destruct (parsed_record _ _ _ _ _ _ H) as (Hspu & Htitle & Himg & Hact & _).
  apply parsed_variants in H as (? & ? & ? & ? & ? & ? & _ & _ & _ & Hne & _).
  done.
Qed.

Lemma parsed_product_complete_witness :
  exists p,
    parse_product_detail ascii_runtime None shoe_document None None = Parsed p
    /\ truthy (spu_id p) = true
    /\ title p <> ""
    /\ (exists rest, images p = main_image_url p :: rest)
    /\ variants p <> []
    /\ is_active p = true.
Proof.
  eexists. split; [vm_compute; reflexivity|].
  apply (parsed_product_complete ascii_runtime None shoe_document None None).
  vm_compute. reflexivity.
Defined.

(** X11.  [validate_product] on a normalised product can only object to the
    prices in RUB: it accepts the product when some variant has a positive
    one and answers "Нет валидных цен" otherwise; without a price formula
    it accepts every normalised product. *)
Theorem parsed_product_validates rt price_formula product_data
    reference_sku_id category_ids p :
  parse_product_detail rt price_formula product_data reference_sku_id
    category_ids = Parsed p ->
  validate_product p
  = (if existsb (fun v => positive_price (price_rub v)) (variants p)
     then (true, "Valid") else (false, "Нет валидных цен"))
  /\ (price_formula = None -> validate_product p = (true, "Valid")).
Proof.
  intros H.
  destruct (parsed_record _ _ _ _ _ _ H)
    as (Hspu & Htitle & (imgs & Himg) & _ & _).
  pose proof (parsed_variants_each_sound _ _ _ _ _ _ H) as Hall.
  apply parsed_variants in H as (? & ? & ? & ? & ? & ? & _ & _ & _ & Hne & _).
  destruct (variants p) as [|v vs] eqn:Hvs; [done|].
  apply Forall_cons in Hall as [(Hstatus & Havail & Hsize & Hcny & Hrub) _].
  assert (validate_product p
          = (if existsb (fun v => positive_price (price_rub v)) (variants p)
             then (true, "Valid") else (false, "Нет валидных цен"))) as Hv.
  { unfold validate_product. rewrite Hspu, Himg, Hvs. simpl.
    unfold Str.eqb. rewrite bool_decide_eq_false_2 by done.
    rewrite Hsize, Havail. simpl.
    by destruct (positive_price (price_rub v) || _). }
  rewrite Hvs in Hv. split; [exact Hv|]. intros Hpf. rewrite Hv. simpl.
  by rewrite (Hrub Hpf), Hcny.
Qed.

Lemma parsed_product_validates_witness :
  exists p,
    parse_product_detail ascii_runtime None shoe_document None None = Parsed p
    /\ validate_product p
       = (if existsb (fun v => positive_price (price_rub v)) (variants p)
          then (true, "Valid") else (false, "Нет валидных цен"))
    /\ (@None (Float.float -> res Float.float) = None ->
        validate_product p = (true, "Valid")).
Proof.
  eexists. split; [vm_compute; reflexivity|].
  apply (parsed_product_validates ascii_runtime None shoe_document None None).
  vm_compute. reflexivity.
Defined.

(** X12.  An accessory normalised without a reference SKU has at most one
    variant of size "ONE SIZE": the SKUs after the first such variant that
    resolve to this size are passed over. *)
Theorem one_size_variant_once rt price_formula product_data reference_sku_id
    category_ids p :
  parse_product_detail rt price_formula product_data reference_sku_id
    category_ids = Parsed p ->
  supplied reference_sku_id = false ->
  Forall (fun v => v_size_type v = Accessories) (variants p) ->
  (length (List.filter is_one_size (variants p)) <= 1)%nat.
Proof.
  intros H Href Hacc. apply parsed_variants in H
    as (pd & skus & st & primary & table & info & _ & _ & Hloop & Hne & _).
  assert (st = Accessories) as ->.
  { destruct (variants p) as [|v vs] eqn:Hvs; [done|].
    apply Forall_cons in Hacc as [Hv _].
    apply process_skus_each in Hloop.
    apply Forall_cons in Hloop as [(sku & found & _ & Hsku) _].
    apply process_sku_emitted in Hsku as (_ & Hst & _). congruence. }
  by apply (process_skus_one_size _ _ _ _ _ _ _ Href) in Hloop.
Qed.

(** An accessory whose SKUs carry no usable size. *)
Definition cap_document : json :=
  JDict [("spuId", JInt 1002); ("title", JStr "Nike Cap");
         ("detail", JDict [("logoUrl", JStr "http://img/2.jpg")]);
         ("skus", JList [JDict [("skuId", JInt 601); ("status", JInt 1);
                                ("price",
                                 JDict [("prices", JList [tier 2 3 9900])])];
                         JDict [("skuId", JInt 602); ("status", JInt 1);
                                ("price",
                                 JDict [("prices",
                                         JList [tier 2 3 8900])])]])].

Lemma one_size_variant_once_witness :
  exists p,
    parse_product_detail ascii_runtime None cap_document None (Some [123])
    = Parsed p
    /\ supplied None = false
    /\ Forall (fun v => v_size_type v = Accessories) (variants p)
    /\ (length (List.filter is_one_size (variants p)) <= 1)%nat.
Proof.
  eexists. split; [vm_compute; reflexivity|].
  split; [reflexivity|].
  split; [repeat constructor|].
  apply (one_size_variant_once ascii_runtime None cap_document None
           (Some [123])); [vm_compute; reflexivity|reflexivity|].
  repeat constructor.
Defined.

(** X13.  A non-empty reference SKU id that [int] rejects never gives a
    product: the document is reported invalid whatever it holds. *)
Theorem reference_must_be_integer rt price_formula product_data r
    category_ids e :
  r <> "" ->
  int_of_str rt r = Raise e ->
  exists reason,
    parse_product_detail rt price_formula product_data (Some r) category_ids
    = Invalid reason.
Proof.
  intros Hne Hint.
  destruct (parse_product_detail _ _ _ _ _) as [p|reason] eqn:H; [|by eexists].
  destruct (parsed_record _ _ _ _ _ _ H) as (_ & _ & _ & _ & Hz).
  destruct (Hz r eq_refl Hne) as [z Hz']. congruence.
Qed.

Lemma reference_must_be_integer_witness :
  "abc" <> ""
  /\ int_of_str ascii_runtime "abc" = Raise ValueError
  /\ exists reason,
       parse_product_detail ascii_runtime None shoe_document (Some "abc") None
       = Invalid reason.
Proof.
  split; [discriminate|]. split; [vm_compute; reflexivity|].
  apply (reference_must_be_integer ascii_runtime None shoe_document "abc" None
           ValueError); [discriminate|vm_compute; reflexivity].
Defined.

(** *** Cleaning of names *)

Section Clean.

Variable rt : PyRuntime.

(** The characters a cleaner keeps, each a single ASCII character that is no
    white space and belongs to the class [allowed]. *)
Variable keep : string -> bool.
Variable allowed : ascii -> bool.

Hypothesis keep_allowed :
  forall c, keep c = true ->
    exists a, c = String a EmptyString /\ Str.is_ascii_char a = true
              /\ Str.is_space a = false /\ allowed a = true.

(** A kept character or the space. *)
Definition clean_chr (c : string) : Prop := keep c = true \/ c = " ".

(** White space occurs as single spaces only, and not at the front when
    [after_space] is set. *)
Fixpoint separated (after_space : bool) (cs : list string) : Prop :=
  match cs with
  | [] => True
  | c :: cs' =>
      if isspace_chr rt c
      then after_space = false /\ c = " " /\ separated true cs'
      else separated false cs'
  end.

(** [strip] on the characters. *)
Definition trim (cs : list string) : list string :=
  rev (drop_space rt (rev (drop_space rt cs))).

Lemma clean_chr_single c :
  clean_chr c ->
  exists a, c = String a EmptyString /\ Str.is_ascii_char a = true.
Proof.
  intros [H| ->].
  - apply keep_allowed in H as (a & -> & Ha & _). eauto.
  - by exists " "%char.
Qed.

Lemma clean_chr_keep_no_space c : keep c = true -> isspace_chr rt c = false.
Proof.
  intros H. apply keep_allowed in H as (a & -> & Ha & Hs & _).
  simpl. by rewrite Ha.
Qed.

Lemma collapse_clean b cs :
  Forall (fun c => keep c || isspace_chr rt c = true) cs ->
  Forall clean_chr (collapse_spaces rt b cs).
Proof.
  intros H. revert b. induction H as [|c cs Hc _ IH]; intros b; simpl.
  - constructor.
  - destruct (isspace_chr rt c) eqn:Hs.
    + destruct b; [apply IH|]. constructor; [by right|apply IH].
    + rewrite orb_false_r in Hc. constructor; [by left|apply IH].
Qed.

Lemma collapse_separated b cs : separated b (collapse_spaces rt b cs).
Proof.
  revert b. induction cs as [|c cs IH]; intros b; simpl; [done|].
  destruct (isspace_chr rt c) eqn:Hs.
  - destruct b; [apply IH|]. simpl. repeat split. apply IH.
  - simpl. rewrite Hs. apply IH.
Qed.

Lemma separated_fixed b cs :
  separated b cs -> collapse_spaces rt b cs = cs.
Proof.
  revert b. induction cs as [|c cs IH]; intros b; simpl; [done|].
  destruct (isspace_chr rt c).
  - intros (-> & -> & H). by rewrite (IH _ H).
  - intros H. by rewrite (IH _ H).
Qed.

Lemma separated_drop b cs :
  separated b cs -> separated false (drop_space rt cs).
Proof.
  revert b. induction cs as [|c cs IH]; intros b; simpl; [done|].
  destruct (isspace_chr rt c) eqn:Hs.
  - intros (_ & _ & H). by eapply IH.
  - intros H. simpl. by rewrite Hs.
Qed.

Lemma separated_prefix b front back :
  separated b (front ++ back)%list -> separated b front.
Proof.
  revert b. induction front as [|c front IH]; intros b; simpl; [done|].
  destruct (isspace_chr rt c).
  - intros (? & ? & H). repeat split; try done. by apply IH.
  - apply IH.
Qed.

Lemma drop_space_split cs : exists front, cs = (front ++ drop_space rt cs)%list.
Proof.
  induction cs as [|c cs [front IH]]; simpl; [by exists []|].
  destruct (isspace_chr rt c).
  - exists (c :: front). simpl. by rewrite <- IH.
  - by exists [].
Qed.

Lemma drop_space_end cs :
  exists back, cs = (rev (drop_space rt (rev cs)) ++ back)%list.
Proof.
  destruct (drop_space_split (rev cs)) as [front H].
  exists (rev front). rewrite <- rev_app_distr, <- H.
  by rewrite rev_involutive.
Qed.

Lemma separated_trim b cs : separated b cs -> separated false (trim cs).
Proof.
  intros H. apply separated_drop in H. unfold trim.
  destruct (drop_space_end (drop_space rt cs)) as [back Hb].
  rewrite Hb in H. by eapply separated_prefix.
Qed.

Lemma Forall_drop_space (P : string -> Prop) cs :
  Forall P cs -> Forall P (drop_space rt cs).
Proof.
  induction 1 as [|c cs Hc H IH]; simpl; [constructor|].
  destruct (isspace_chr rt c); [exact IH|by constructor].
Qed.

Lemma Forall_trim (P : string -> Prop) cs : Forall P cs -> Forall P (trim cs).
Proof.
  intros H. unfold trim.
  by apply Forall_rev, Forall_drop_space, Forall_rev, Forall_drop_space.
Qed.

Lemma drop_space_idem cs :
  drop_space rt (drop_space rt cs) = drop_space rt cs.
Proof.
  induction cs as [|c cs IH]; simpl; [done|].
  destruct (isspace_chr rt c) eqn:Hs; [exact IH|]. simpl. by rewrite Hs.
Qed.

Lemma drop_space_length cs : (length (drop_space rt cs) <= length cs)%nat.
Proof.
  induction cs as [|c cs IH]; simpl; [lia|].
  destruct (isspace_chr rt c); simpl; lia.
Qed.

Lemma drop_space_prefix_fixed front back :
  drop_space rt (front ++ back)%list = (front ++ back)%list ->
  drop_space rt front = front.
Proof.
  destruct front as [|c front]; simpl; [done|].
  destruct (isspace_chr rt c); [|done].
  intros H. pose proof (drop_space_length (front ++ back)%list) as Hl.
  rewrite H in Hl. simpl in Hl. lia.
Qed.

Lemma trim_idem cs : trim (trim cs) = trim cs.
Proof.
  unfold trim.
  destruct (drop_space_end (drop_space rt cs)) as [back Hb].
  assert (drop_space rt (rev (drop_space rt (rev (drop_space rt cs))))
          = rev (drop_space rt (rev (drop_space rt cs)))) as Hi.
  { apply (drop_space_prefix_fixed _ back). rewrite <- Hb.
    apply drop_space_idem. }
  by rewrite Hi, rev_involutive, drop_space_idem.
Qed.

Lemma chars_join cs : Forall clean_chr cs -> chars (join_chars cs) = cs.
Proof.
  induction 1 as [|c cs Hc H IH]; simpl; [done|].
  apply clean_chr_single in Hc as (a & -> & Ha).
  change (chars (String a (join_chars cs)) = String a EmptyString :: cs).
  cbn [chars]. rewrite IH.
  destruct H as [|c' cs' Hc' _]; [done|].
  apply clean_chr_single in Hc' as (a' & -> & Ha').
  cbn [starts_with_continuation]. unfold is_continuation. unfold Str.is_ascii_char in Ha'.
  apply Z.ltb_lt in Ha'.
  by rewrite (proj2 (Z.leb_gt 128 (Str.code a'))) by lia.
Qed.

Lemma all_join cs :
  Forall clean_chr cs ->
  Str.all (fun a => allowed a || Ascii.eqb a " ") (join_chars cs) = true.
Proof.
  induction 1 as [|c cs Hc _ IH]; [done|].
  destruct Hc as [Hc| ->].
  - apply keep_allowed in Hc as (a & -> & _ & _ & Ha).
    change (join_chars (String a EmptyString :: cs))
      with (String a (join_chars cs)).
    cbn [Str.all]. by rewrite Ha, IH.
  - change (join_chars (" "%string :: cs))
      with (String " " (join_chars cs)).
    cbn [Str.all]. by rewrite IH, orb_true_r.
Qed.

Lemma filter_clean cs :
  Forall clean_chr cs ->
  filter (fun c => keep c || isspace_chr rt c) cs = cs.
Proof.
  induction 1 as [|c cs Hc _ IH]; [done|].
  rewrite filter_cons, IH. case_decide as Hd; [done|].
  destruct Hd. destruct Hc as [Hc| ->]; [by rewrite Hc|].
  by rewrite orb_true_r.
Qed.

(** The cleaned text holds allowed characters and spaces only, and cleaning
    it again changes nothing. *)
Lemma clean_text_normal s :
  Str.all (fun a => allowed a || Ascii.eqb a " ") (clean_text rt keep s) = true
  /\ clean_text rt keep (clean_text rt keep s) = clean_text rt keep s.
Proof.
  unfold clean_text at 1 3 4.
  set (kept := filter (fun c => keep c || isspace_chr rt c) (chars s)).
  assert (Forall clean_chr (collapse_spaces rt false kept)) as Hclean.
  { apply collapse_clean, Forall_forall. intros c Hc.
    apply list_elem_of_filter in Hc as [Hc _]. by apply Is_true_true. }
  pose proof (collapse_separated false kept) as Hsep.
  unfold strip. rewrite (chars_join _ Hclean).
  fold (trim (collapse_spaces rt false kept)).
  set (tidy := trim (collapse_spaces rt false kept)).
  assert (Forall clean_chr tidy) as Htidy by by apply Forall_trim.
  split; [by apply all_join|].
  unfold clean_text, strip.
  rewrite (chars_join _ Htidy), (filter_clean _ Htidy).
  rewrite (separated_fixed false tidy) by by eapply separated_trim.
  rewrite (chars_join _ Htidy). fold (trim tidy).
  unfold tidy. by rewrite trim_idem.
Qed.

End Clean.

(** The characters of a title: ASCII letters, digits and the space. *)
Definition title_char (a : ascii) : bool :=
  Str.is_alpha a || Str.is_digit a || Ascii.eqb a " ".

(** The characters of a brand: those of a title, the hyphen and the
    ampersand. *)
Definition brand_char (a : ascii) : bool :=
  Str.is_alpha a || Str.is_digit a || Ascii.eqb a "-" || Ascii.eqb a "&"
  || Ascii.eqb a " ".

Lemma alnum_no_space a :
  Str.is_alpha a || Str.is_digit a = true -> Str.is_space a = false.
Proof.
  unfold Str.is_alpha, Str.is_upper, Str.is_lower, Str.is_digit, Str.is_space.
  intros H.
  repeat match type of H with
         | _ || _ = true => apply orb_true_iff in H as [H|H]
         | _ && _ = true => apply andb_true_iff in H as [H H']
         end;
    apply Z.leb_le in H, H';
    apply orb_false_iff; split; apply andb_false_iff;
    rewrite !Z.leb_gt; lia.
Qed.

Lemma is_alnum_chr_allowed c :
  is_alnum_chr c = true ->
  exists a, c = String a EmptyString /\ Str.is_ascii_char a = true
            /\ Str.is_space a = false
            /\ Str.is_alpha a || Str.is_digit a = true.
Proof.
  destruct c as [|a [|]]; try discriminate. simpl.
  intros [Ha Hc]%andb_true_iff. exists a. repeat split; try done.
  by apply alnum_no_space.
Qed.

Lemma is_brand_chr_allowed c :
  is_brand_chr c = true ->
  exists a, c = String a EmptyString /\ Str.is_ascii_char a = true
            /\ Str.is_space a = false
            /\ Str.is_alpha a || Str.is_digit a || Ascii.eqb a "-"
               || Ascii.eqb a "&" = true.
Proof.
  unfold is_brand_chr. intros H.
  apply orb_true_iff in H as [H|H]; [apply orb_true_iff in H as [H|H]|].
  - apply is_alnum_chr_allowed in H as (a & -> & Ha & Hs & Hc).
    exists a. repeat split; try done. by rewrite Hc.
  - unfold Str.eqb in H. apply bool_decide_eq_true in H as ->.
    by exists "-"%char.
  - unfold Str.eqb in H. apply bool_decide_eq_true in H as ->.
    by exists "&"%char.
Qed.

(** X14.  [clean_title] of any string gives a title of ASCII letters, digits
    and spaces only, for every behaviour of the runtime on other
    characters, and the title is in normal form: cleaning it again returns
    it unchanged (no space at either end, no two spaces in a row). *)
Theorem clean_title_normal_form (rt : PyRuntime) (s : string) :
  exists t,
    clean_title rt (JStr s) = Ok t
    /\ Str.all title_char t = true
    /\ clean_title rt (JStr t) = Ok t.
Proof.
  destruct (clean_text_normal rt is_alnum_chr
              (fun a => Str.is_alpha a || Str.is_digit a)
              is_alnum_chr_allowed s) as [Hall Hidem].
  unfold clean_title. simpl. unfold Str.eqb.
  case_bool_decide as Hs; simpl.
  - exists "". by rewrite bool_decide_eq_true_2.
  - eexists. split; [reflexivity|]. split; [exact Hall|].
    case_bool_decide as Ht; simpl; [by rewrite Ht|]. by rewrite Hidem.
Qed.

(** X15.  [_sanitize_brand_name] of any string gives a name of ASCII
    letters, digits, hyphens, ampersands and spaces only, in normal form:
    sanitising it again returns it unchanged. *)
Theorem sanitize_brand_name_normal_form (rt : PyRuntime) (s : string) :
  exists t,
    _sanitize_brand_name rt (JStr s) = Ok t
    /\ Str.all brand_char t = true
    /\ _sanitize_brand_name rt (JStr t) = Ok t.
Proof.
  destruct (clean_text_normal rt is_brand_chr
              (fun a => Str.is_alpha a || Str.is_digit a || Ascii.eqb a "-"
                        || Ascii.eqb a "&")
              is_brand_chr_allowed s) as [Hall Hidem].
  unfold _sanitize_brand_name. simpl. unfold Str.eqb.
  case_bool_decide as Hs; simpl.
  - exists "". by rewrite bool_decide_eq_true_2.
  - eexists. split; [reflexivity|]. split; [exact Hall|].
    case_bool_decide as Ht; simpl; [by rewrite Ht|]. by rewrite Hidem.
Qed.

(** *** The tier selected *)

Lemma find_fast_standard_sound prices_list price_obj :
  find_fast_standard prices_list = Ok (Some price_obj) ->
  price_obj ∈ prices_list
  /\ exists d, price_obj = JDict d /\ is_fast_standard d = Ok true.
Proof.
  induction prices_list as [|q rest IH]; simpl; [discriminate|].
  assert (find_fast_standard rest = Ok (Some price_obj) ->
          price_obj ∈ q :: rest
          /\ exists d, price_obj = JDict d /\ is_fast_standard d = Ok true)
    as Hrest.
  { intros H. apply IH in H as [Hin Hd]. split; [by right|done]. }
  destruct q as [| | | | | |d]; try exact Hrest.
  unfold_bind.
  destruct (get_default _ "max" _) as [m|] eqn:Hmax; [|discriminate].
  destruct (le_int m 4) as [short|] eqn:Hshort; [|discriminate].
  destruct (eqb_int _ 2 && _) eqn:Hfast; [|exact Hrest].
  intros H. injection H as <-. split; [left|]. exists d. split; [done|].
  unfold is_fast_standard. unfold_bind. cbv beta zeta.
  by rewrite Hmax, Hshort, Hfast.
Qed.

Lemma find_type_sound dflt trade_type prices_list price_obj :
  find_type dflt trade_type prices_list = Some price_obj ->
  price_obj ∈ prices_list
  /\ exists d, price_obj = JDict d
               /\ eqb_int (default dflt (lookup "tradeType" d)) trade_type
                  = true.
Proof.
  induction prices_list as [|q rest IH]; simpl; [discriminate|].
  assert (find_type dflt trade_type rest = Some price_obj ->
          price_obj ∈ q :: rest
          /\ exists d, price_obj = JDict d
                       /\ eqb_int (default dflt (lookup "tradeType" d))
                            trade_type = true)
    as Hrest.
  { intros H. apply IH in H as [Hin Hd]. split; [by right|done]. }
  destruct q as [| | | | | |d]; try exact Hrest.
  destruct (eqb_int _ trade_type) eqn:Htype; [|exact Hrest].
  intros H. injection H as <-. split; [left|]. by exists d.
Qed.

(** A selection that is either empty or a tier of the list with the type it
    is reported under. *)
Definition selection_ok (dflt : json) (prices_list : list json)
    (selected : json * Z) : Prop :=
  truthy (fst selected) = true ->
  exists d,
    fst selected = JDict d
    /\ fst selected ∈ prices_list
    /\ (snd selected = 2 /\ is_fast_standard d = Ok true
        \/ snd selected ∈ [12; 0; 8; 11]
           /\ eqb_int (default dflt (lookup "tradeType" d)) (snd selected)
              = true).

Lemma or_find_ok dflt trade_type prices_list selected :
  trade_type ∈ [12; 0; 8; 11] ->
  selection_ok dflt prices_list selected ->
  selection_ok dflt prices_list
    (or_find dflt trade_type prices_list selected).
Proof.
  intros Ht Hsel. unfold or_find.
  destruct (truthy (fst selected)); [exact Hsel|]. simpl.
  destruct (find_type _ _ _) as [o|] eqn:Hfind; [|exact Hsel].
  apply find_type_sound in Hfind as (Hin & d & -> & Htype).
  intros _. exists d. simpl. repeat split; try done. by right.
Qed.

(** X16.  The tier [select_price] reports is a dict of the list given, and
    the type reported is its own: either 2, and then the tier passes the
    test of priority 1 (standard delivery of at most four days), or one of
    12, 0, 8, 11, and then [tradeType] of the tier equals it.  A tier of
    any other kind is never selected. *)
Theorem select_price_sound dflt prices_list price_obj trade_type :
  select_price dflt prices_list = Ok (price_obj, trade_type) ->
  truthy price_obj = true ->
  exists d,
    price_obj = JDict d
    /\ price_obj ∈ prices_list
    /\ (trade_type = 2 /\ is_fast_standard d = Ok true
        \/ trade_type ∈ [12; 0; 8; 11]
           /\ eqb_int (default dflt (lookup "tradeType" d)) trade_type
              = true).
Proof.
  unfold select_price. unfold_bind.
  destruct (find_fast_standard prices_list) as [first|] eqn:Hfast;
    [|discriminate].
  intros H Htruthy. injection H as H.
  assert (selection_ok dflt prices_list (price_obj, trade_type)) as Hok;
    [|exact (Hok Htruthy)].
  rewrite <- H.
  apply or_find_ok; [by repeat constructor|].
  apply or_find_ok; [by repeat constructor|].
  apply or_find_ok; [by repeat constructor|].
  apply or_find_ok; [by repeat constructor|].
  destruct first as [o|]; [|intros Hnull; discriminate Hnull].
  apply find_fast_standard_sound in Hfast as (Hin & d & -> & Hd).
  intros _. exists d. simpl. repeat split; try done. by left.
Qed.

Lemma select_price_sound_witness :
  select_price JNull [tier 95 1 100; tier 8 3 5000; tier 12 3 7000]
  = Ok (tier 12 3 7000, 12)
  /\ truthy (tier 12 3 7000) = true
  /\ exists d,
       tier 12 3 7000 = JDict d
       /\ tier 12 3 7000 ∈ [tier 95 1 100; tier 8 3 5000; tier 12 3 7000]
       /\ (12 = 2 /\ is_fast_standard d = Ok true
           \/ 12 ∈ [12; 0; 8; 11]
              /\ eqb_int (default JNull (lookup "tradeType" d)) 12 = true).
Proof.
  split; [vm_compute; reflexivity|]. split; [reflexivity|].
  apply (select_price_sound JNull
           [tier 95 1 100; tier 8 3 5000; tier 12 3 7000]
           (tier 12 3 7000) 12); [vm_compute; reflexivity|reflexivity].
Defined.

(** *** Size types *)

Lemma parsed_size_type rt price_formula product_data reference_sku_id
    category_ids p :
  parse_product_detail rt price_formula product_data reference_sku_id
    category_ids = Parsed p ->
  exists property_to_size st sizes,
    determine_size_type rt category_ids property_to_size = Ok (st, sizes)
    /\ Forall (fun v => v_size_type v = st) (variants p).
Proof.
  unfold parse_product_detail.
  destruct (parse_body _ _ _ _ _) as [r|] eqn:Hb; [|discriminate].
  intros ->. unfold parse_body in Hb. unfold_bind. walk Hb.
  injection Hb as <-. cbn [variants].
  do 3 eexists. split; [eassumption|].
  match goal with
  | E : process_skus _ _ _ _ _ _ _ _ _ = Ok _ |- _ =>
      apply process_skus_each in E; eapply Forall_impl; [exact E|]
  end.
  intros v' (sku & found & _ & Hsku).
  by apply process_sku_emitted in Hsku as (_ & Hst & _).
Qed.

(** X17.  When one of the categories given is a ONE SIZE category (caps,
    hats, wallets, backpacks, bags), every variant is an accessory, whatever
    sizes the document lists. *)
Theorem one_size_category_accessories rt price_formula product_data
    reference_sku_id category_ids p :
  parse_product_detail rt price_formula product_data reference_sku_id
    (Some category_ids) = Parsed p ->
  CategoryFilter.has_one_size_category category_ids = true ->
  Forall (fun v => v_size_type v = Accessories) (variants p).
Proof.
  intros H Hone.
  apply parsed_size_type in H as (table & st & sizes & Hst & Hall).
  unfold determine_size_type in Hst. simpl in Hst. rewrite Hone in Hst.
  by injection Hst as <- _.
Qed.

Lemma one_size_category_accessories_witness :
  exists p,
    parse_product_detail ascii_runtime None shoe_document None (Some [7; 123])
    = Parsed p
    /\ CategoryFilter.has_one_size_category [7; 123] = true
    /\ Forall (fun v => v_size_type v = Accessories) (variants p).
Proof.
  eexists. split; [vm_compute; reflexivity|]. split; [reflexivity|].
  apply (one_size_category_accessories ascii_runtime None shoe_document None
           [7; 123]); [vm_compute; reflexivity|reflexivity].
Defined.

(** *** Valid shoe sizes and the category filter *)

(** X18.  A shoe size that [validate_eu_size] accepts is a number from 33 to
    50 that [analyze_sizes] counts as exactly one of women's and men's: the
    gap between the two thresholds holds no valid size. *)
Theorem valid_shoe_size_classified (rt : PyRuntime) (size : json) :
  validate_eu_size rt size "shoes" = true ->
  exists f,
    float_of_str rt (strip rt (str rt size)) = Some f
    /\ Float.leb (Float.of_Z 33) f = true
    /\ Float.leb f (Float.of_Z 50) = true
    /\ CategoryFilter.is_women_size f = negb (CategoryFilter.is_men_size f).
Proof.
  unfold validate_eu_size. cbn [Str.eqb]. unfold Str.eqb at 1.
  rewrite bool_decide_eq_true_2 by reflexivity.
  generalize (strip rt (str rt size)). intros label H.
  unfold Str.mem in H. apply existsb_exists in H as (valid & Hin & Heq).
  unfold Str.eqb in Heq. apply bool_decide_eq_true in Heq as ->.
  let l := eval vm_compute in VALID_EU_SHOE_SIZES in
  change VALID_EU_SHOE_SIZES with l in Hin.
  simpl in Hin.
  repeat destruct Hin as [<-|Hin]; try contradiction;
    (eexists; split; [vm_compute; reflexivity|]; by vm_compute).
Qed.

Lemma valid_shoe_size_classified_witness :
  validate_eu_size ascii_runtime (JStr " 39.5 ") "shoes" = true
  /\ exists f,
       float_of_str ascii_runtime
         (strip ascii_runtime (str ascii_runtime (JStr " 39.5 "))) = Some f
       /\ Float.leb (Float.of_Z 33) f = true
       /\ Float.leb f (Float.of_Z 50) = true
       /\ CategoryFilter.is_women_size f
          = negb (CategoryFilter.is_men_size f).
Proof.
  split; [vm_compute; reflexivity|].
  apply (valid_shoe_size_classified ascii_runtime (JStr " 39.5 ")).
  vm_compute. reflexivity.
Defined.

End ProductExtra.

(** ** The flat map of a categories file *)

Module CategoryTreeProofs.

Import CategoryFilter CategoryTree CategoryFilterProofs.

Lemma tree_induction (P : tree -> Prop) :
  (forall id name slug parent children,
      Forall P children -> P (Node id name slug parent children)) ->
  forall t, P t.
Proof.
  intros step. fix IH 1. intros [id name slug parent children].
  apply step. induction children as [|c cs IHcs]; constructor.
  - apply IH.
  - exact IHcs.
Qed.

(** The ids of a category and of all categories below it, in the order the
    loader meets them. *)
Fixpoint ids (t : tree) : list Z :=
  match t with
  | Node id _ _ _ children => id :: concat (List.map ids children)
  end.

Definition ids_of (cats : list tree) : list Z := concat (List.map ids cats).

(** The entries of a category and of all below it, in the same order. *)
Fixpoint entries (t : tree) : list (Z * category) :=
  match t with
  | Node id name slug parent children =>
      (id, {| name := name; slug := slug; parent := parent |})
      :: concat (List.map entries children)
  end.

Definition entries_of (cats : list tree) : list (Z * category) :=
  concat (List.map entries cats).

(** [nested up t]: the [parent] field of [t] is [up], and the categories
    under [children] name [t] as their parent, and so on below. *)
Inductive nested : Z -> tree -> Prop :=
| nested_node up id name slug children :
    Forall (nested id) children ->
    nested up (Node id name slug up children).

(** *** The entries written *)

Definition write (result : gmap Z category) (e : Z * category)
  : gmap Z category :=
  <[e.1 := e.2]> result.

Lemma flatten_node_entries t :
  forall result, flatten_node t result = fold_left write (entries t) result.
Proof.
  induction t as [id name slug parent children IH] using tree_induction.
  intros result. cbn [flatten_node entries fold_left].
  change (write result (id, {| name := name; slug := slug;
                               parent := parent |}))
    with (<[id := {| name := name; slug := slug; parent := parent |}]>
            result).
  generalize (<[id := {| name := name; slug := slug; parent := parent |}]>
                result).
  induction IH as [|c cs Hc _ IHcs]; intros m; [done|].
  cbn [fold_left List.map concat]. rewrite fold_left_app, <- Hc. apply IHcs.
Qed.

Lemma flatten_categories_entries cats :
  forall result,
    _flatten_categories cats result
    = fold_left write (entries_of cats) result.
Proof.
  unfold _flatten_categories, entries_of.
  induction cats as [|c cs IH]; intros result; [done|].
  cbn [fold_left List.map concat].
  rewrite fold_left_app, <- flatten_node_entries. apply IH.
Qed.

Lemma write_all_lookup es i :
  forall result,
    fold_left write es result !! i
    = match last (filter (fun e => e.1 = i) es) with
      | Some e => Some e.2
      | None => result !! i
      end.
Proof.
  induction es as [|e es IH]; intros result; [done|].
  cbn [fold_left]. rewrite IH, filter_cons. unfold write.
  case_decide as He.
  - destruct (filter _ es) as [|e' es'] eqn:Hf.
    + simpl. by rewrite <- He, lookup_insert_eq.
    + change (last (e :: e' :: es')) with (last (e' :: es')).
      destruct (last (e' :: es')) eqn:Hl; [done|].
      by apply last_None in Hl.
  - destruct (last _); [done|]. by rewrite lookup_insert_ne.
Qed.

(** X19.  [_flatten_categories] writes one entry per category of the file, at
    every depth: an id of the file maps to the name, slug and parent of the
    category that carries it, the one met last (parents before children,
    in file order) when the id occurs more than once; every other id keeps
    what [result] held. *)
Theorem flatten_categories_lookup :
  forall (cats : list tree) (result : gmap Z category) (i : Z),
    _flatten_categories cats result !! i
    = match last (filter (fun e => e.1 = i) (entries_of cats)) with
      | Some e => Some e.2
      | None => result !! i
      end.
Proof.
  intros cats result i. rewrite flatten_categories_entries.
  apply write_all_lookup.
Qed.

(** *** Parent links of a well-formed file *)

(** The loader with the depth of every category beside its entry. *)
Fixpoint flatten_depth (k : nat) (cat : tree)
    (result : gmap Z (category * nat)) : gmap Z (category * nat) :=
  match cat with
  | Node id name slug parent children =>
      fold_left (fun result child => flatten_depth (S k) child result)
        children
        (<[id := ({| name := name; slug := slug; parent := parent |}, k)]>
           result)
  end.

Lemma flatten_depth_entries k t :
  forall m, fst <$> flatten_depth k t m = flatten_node t (fst <$> m).
Proof.
  revert k.
  induction t as [id name slug parent children IH] using tree_induction.
  intros k m. cbn [flatten_depth flatten_node].
  rewrite <- (fmap_insert fst m id
                ({| name := name; slug := slug; parent := parent |}, k)).
  generalize (<[id := ({| name := name; slug := slug; parent := parent |},
                       k)]> m).
  induction IH as [|c cs Hc _ IHcs]; intros m'; [done|].
  cbn [fold_left]. rewrite IHcs. by rewrite Hc.
Qed.

Lemma flatten_depth_other k t :
  forall m i, i ∉ ids t -> flatten_depth k t m !! i = m !! i.
Proof.
  revert k.
  induction t as [id name slug parent children IH] using tree_induction.
  intros k m i Hi. cbn [flatten_depth ids] in *.
  apply not_elem_of_cons in Hi as [Hid Hi].
  rewrite <- (lookup_insert_ne m id i
                ({| name := name; slug := slug; parent := parent |}, k))
    by done.
  generalize (<[id := ({| name := name; slug := slug; parent := parent |},
                       k)]> m).
  induction IH as [|c cs Hc _ IHcs]; intros m'; [done|].
  cbn [fold_left List.map concat] in *.
  apply not_elem_of_app in Hi as [Hc' Hcs].
  rewrite (IHcs Hcs). by apply Hc.
Qed.

(** Every parent link other than 0 leads to a category that lies less
    deep. *)
Definition links_up (m : gmap Z (category * nat)) : Prop :=
  forall c cat k,
    m !! c = Some (cat, k) ->
    parent cat = 0
    \/ exists cat' k', m !! parent cat = Some (cat', k') /\ (k' < k)%nat.

Lemma links_up_insert m id cat k :
  links_up m -> m !! id = None ->
  (parent cat = 0
   \/ exists cat' k', m !! parent cat = Some (cat', k') /\ (k' < k)%nat) ->
  links_up (<[id := (cat, k)]> m).
Proof.
  intros Hm Hfresh Hup c cat0 k0 Hc.
  assert (forall q cat' k', m !! q = Some (cat', k') ->
                            <[id := (cat, k)]> m !! q = Some (cat', k'))
    as Hkeep.
  { intros q cat' k' Hq. rewrite lookup_insert_ne; [done|]. congruence. }
  apply lookup_insert_Some in Hc as [[<- Heq]|[Hne Hc]].
  - injection Heq as <- <-.
    destruct Hup as [H0|(cat' & k' & Hp & Hlt)]; [by left|].
    right. exists cat', k'. split; [by apply Hkeep|done].
  - destruct (Hm c cat0 k0 Hc) as [H0|(cat' & k' & Hp & Hlt)]; [by left|].
    right. exists cat', k'. split; [by apply Hkeep|done].
Qed.

Lemma nested_inv up id name slug parent children :
  nested up (Node id name slug parent children) ->
  parent = up /\ Forall (nested id) children.
Proof. by inversion 1. Qed.

Lemma flatten_depth_links_up t :
  forall k up m,
    nested up t -> NoDup (ids t) ->
    (forall i, i ∈ ids t -> m !! i = None) ->
    (up = 0 \/ exists cat' k', m !! up = Some (cat', k') /\ (k' < k)%nat) ->
    links_up m ->
    links_up (flatten_depth k t m).
Proof.
  induction t as [id name slug parent children IH] using tree_induction.
  intros k up m Hnested Hnodup Hfresh Hup Hm.
  apply nested_inv in Hnested as [-> Hch].
  cbn [flatten_depth ids] in *.
  apply NoDup_cons in Hnodup as [Hid Hnodup].
  set (cat := {| name := name; slug := slug; parent := up |}).
  assert (links_up (<[id := (cat, k)]> m)) as Hm1.
  { apply links_up_insert; [done|apply Hfresh; left|done]. }
  assert (<[id := (cat, k)]> m !! id = Some (cat, k)) as Hself
    by apply lookup_insert_eq.
  assert (forall i, i ∈ concat (List.map ids children) ->
                    <[id := (cat, k)]> m !! i = None) as Hfresh1.
  { intros i Hi. rewrite lookup_insert_ne; [|by intros ->].
    apply Hfresh. by right. }
  clear Hfresh Hm Hup.
  revert Hm1 Hself Hfresh1. generalize (<[id := (cat, k)]> m).
  clear m. revert Hid Hnodup Hch.
  induction IH as [|c cs Hc _ IHcs];
    intros Hid Hnodup Hch m Hm Hself Hfresh; [done|].
  cbn [fold_left List.map concat] in *.
  apply not_elem_of_app in Hid as [Hidc Hidcs].
  apply NoDup_app in Hnodup as (Hndc & Hdisj & Hndcs).
  apply Forall_cons in Hch as [Hnc Hncs].
  apply IHcs; try done.
  - apply (Hc (S k) id m); try done.
    + intros i Hi. apply Hfresh, elem_of_app. by left.
    + right. exists cat, k. split; [done|lia].
  - by rewrite flatten_depth_other.
  - intros i Hi. rewrite flatten_depth_other.
    + apply Hfresh, elem_of_app. by right.
    + intros Hic. by apply (Hdisj i).
Qed.

Lemma flatten_depth_all_links_up cats :
  forall m,
    Forall (nested 0) cats -> NoDup (ids_of cats) ->
    (forall i, i ∈ ids_of cats -> m !! i = None) ->
    links_up m ->
    links_up (fold_left (fun m cat => flatten_depth 0 cat m) cats m).
Proof.
  unfold ids_of.
  induction cats as [|c cs IH]; intros m Hnested Hnodup Hfresh Hm; [done|].
  cbn [fold_left List.map concat] in *.
  apply NoDup_app in Hnodup as (Hndc & Hdisj & Hndcs).
  apply Forall_cons in Hnested as [Hnc Hncs].
  apply IH; try done.
  - intros i Hi. rewrite flatten_depth_other.
    + apply Hfresh, elem_of_app. by right.
    + intros Hic. by apply (Hdisj i).
  - apply (flatten_depth_links_up c 0%nat 0 m); try done.
    + intros i Hi. apply Hfresh, elem_of_app. by left.
    + by left.
Qed.

Lemma flatten_all_depth_entries cats :
  forall m,
    fst <$> fold_left (fun m cat => flatten_depth 0 cat m) cats m
    = _flatten_categories cats (fst <$> m).
Proof.
  unfold _flatten_categories.
  induction cats as [|c cs IH]; intros m; [done|].
  cbn [fold_left]. by rewrite IH, flatten_depth_entries.
Qed.

(** X20.  On the flat map of a well-formed file, every call of [is_child_of]
    returns: when the [parent] field of each category is the id of the
    category whose [children] hold it (0 at the top level) and no id occurs
    twice, the parent links of the map lead upwards in the file and the walk
    ends. *)
Theorem is_child_of_returns_on_file :
  forall (cats : list tree) (c p : Z),
    Forall (nested 0) cats ->
    NoDup (ids_of cats) ->
    exists fuel b,
      is_child_of (_flatten_categories cats ∅) fuel c p = Some b.
Proof.
  intros cats c p Hnested Hnodup.
  set (depths := fold_left (fun m cat => flatten_depth 0 cat m) cats ∅).
  assert (links_up depths) as Hup.
  { apply flatten_depth_all_links_up; try done. }
  assert (_flatten_categories cats ∅ = fst <$> depths) as ->.
  { unfold depths. by rewrite flatten_all_depth_entries, fmap_empty. }
  set (rank := fun i : Z => match depths !! i with
                            | Some (_, k) => k
                            | None => 0%nat
                            end).
  exists (S (rank c)).
  apply (is_child_of_ranked (fst <$> depths) rank); [|lia].
  intros i cat Hi Hp. rewrite lookup_fmap in Hi.
  destruct (depths !! i) as [[cat0 k]|] eqn:Hd; [|discriminate].
  injection Hi as <-.
  destruct (Hup i cat0 k Hd) as [H0|(cat' & k' & Hparent & Hlt)]; [done|].
  unfold rank. by rewrite Hparent, Hd.
Qed.

(** The two shoe roots with a child each, as a categories file. *)
Definition shoe_file : list tree :=
  [Node 101 "Shoes" "shoes-men" 0 [Node 103 "Sneakers" "sneakers-men" 101 []];
   Node 102 "Shoes" "shoes-women" 0
     [Node 154 "Sneakers" "sneakers-women" 102 []]].

Lemma shoe_file_nested : Forall (nested 0) shoe_file.
Proof. repeat constructor. Qed.

Lemma shoe_file_ids : NoDup (ids_of shoe_file).
Proof.
  change (ids_of shoe_file) with [101; 103; 102; 154].
  repeat (apply NoDup_cons; split;
          [rewrite ?not_elem_of_cons; repeat split; try lia;
           apply not_elem_of_nil|]).
  apply NoDup_nil_2.
Qed.

Lemma is_child_of_returns_on_file_witness :
  Forall (nested 0) shoe_file
  /\ NoDup (ids_of shoe_file)
  /\ exists fuel b,
       is_child_of (_flatten_categories shoe_file ∅) fuel 103 102 = Some b.
Proof.
  split; [exact shoe_file_nested|]. split; [exact shoe_file_ids|].
  exact (is_child_of_returns_on_file shoe_file 103 102 shoe_file_nested
           shoe_file_ids).
Defined.

End CategoryTreeProofs.
